(** * Hours-of-Service trip simulator and daily-log partitioner

    A shallow embedding of [routes/hos_calculator.py] (class [HOSCalculator])
    and of the partitioner of [routes/views.py] ([generate_daily_logs],
    [_fill_gaps], [_calc_totals]).

    Numbers.  The Python code computes on doubles.  The program is embedded
    twice.  In the first embedding every number is an exact rational ([Q]),
    [round(x, n)] is rounding to [n] decimals with ties to even, and the
    comparisons, [min], [max], [math.ceil] and [int] are the exact ones; the
    theorems are proved of it.  In the second ([Binary64]) every number is a
    binary64 value with the operations of the machine; it runs the code on
    the inputs where the two arithmetics part: a quotient such as
    [(0.01 * avg_speed) / avg_speed], a sum such as [8.0 + 2.88 + 0.12], a
    difference such as [(35.25 + 0.01) - 35.25] or a product such as
    [0.29 * 100] can fall on the other side of a threshold.  Where a
    statement would depend on the side, it is stated with the margin that
    makes it independent of it, and the case is a lemma computed on
    [Binary64].

    Text.  The literal descriptions are strings; the two formatted texts
    ([f'Driving {drive_miles} miles'] and the labels built by [_loc]) are kept
    as structured values rather than rendered.  Calendar dates are day
    ordinals, so [start_date + timedelta(days=d)] is [start_date + d]. *)

From Stdlib Require Import QArith Qround Qabs Lqa ZArith Lia List String Bool.
From Stdlib Require Import Permutation Sorted.
From Stdlib Require Floats Uint63.
Import ListNotations.
Open Scope Q_scope.
Set Warnings "-inexact-float".

(** ** Numbers as Python uses them *)

Module Py.

Definition ltb (x y : Q) : bool :=
  match Qcompare x y with Lt => true | _ => false end.
Definition leb (x y : Q) : bool :=
  match Qcompare x y with Gt => false | _ => true end.

(** [max(a, b)] and [min(a, b)] return the first argument on a tie. *)
Definition max (a b : Q) : Q := if ltb a b then b else a.
Definition min (a b : Q) : Q := if ltb b a then b else a.

(** Nearest integer, ties to the even one. *)
Definition round_half_even (x : Q) : Z :=
  let n := Qfloor x in
  match Qcompare (x - inject_Z n) 0.5 with
  | Lt => n
  | Gt => (n + 1)%Z
  | Eq => if Z.even n then n else (n + 1)%Z
  end.

(** [round(x, 2)] and [round(x, 1)]. *)
Definition round2 (x : Q) : Q := Qred (round_half_even (x * 100) # 100).
Definition round1 (x : Q) : Q := Qred (round_half_even (x * 10) # 10).

(** [int(x)]: truncation towards zero. *)
Definition int (x : Q) : Z := if ltb x 0 then Qceiling x else Qfloor x.

(** [math.ceil(x)]. *)
Definition ceil (x : Q) : Z := Qceiling x.

End Py.

Notation "x <? y" := (Py.ltb x y) (at level 70, no associativity) : Q_scope.
Notation "x <=? y" := (Py.leb x y) (at level 70, no associativity) : Q_scope.
Notation "x >? y" := (Py.ltb y x) (at level 70, no associativity, only parsing) : Q_scope.
Notation "x >=? y" := (Py.leb y x) (at level 70, no associativity, only parsing) : Q_scope.

(** ** Data model *)

Inductive Status : Set :=
| off_duty
| sleeper_berth
| driving
| on_duty_not_driving.

(** Event descriptions: a literal, or [f'Driving {drive_miles} miles']. *)
Inductive Description : Set :=
| Text (s : string)
| DrivingMiles (drive_miles : Q).

(** Location labels: a label as given by the caller, or one of the two
    formats of [_loc]: [f"Near {s}"] and
    [f"En route ({pct}% {from_loc} -> {to_loc})"]. *)
Inductive Location : Set :=
| Place (s : string)
| Near (s : string)
| EnRoute (pct : Z) (from_loc to_loc : string).

(** The dict built by [_evt]; the key ['miles'] is present only for driving. *)
Record Event : Set := mkEvent {
  e_status : Status;
  e_clock : Q;
  e_duration : Q;
  e_description : Description;
  e_location : Location;
  e_distance : Q;
  e_miles : option Q
}.

(** The seven local variables that [calculate_trip] threads through
    [_drive] and [_do_on_duty]. *)
Record State : Set := mkState {
  clock : Q;
  shift_start : Q;
  shift_driving : Q;
  driving_since_break : Q;
  cycle_hours : Q;
  total_distance : Q;
  last_fuel_distance : Q
}.

(** ** [HOSCalculator] *)

Module HOSCalculator.

Definition MAX_DRIVING : Q := 11.
Definition MAX_DUTY_WINDOW : Q := 14.
Definition BREAK_AFTER_DRIVING : Q := 8.
Definition BREAK_DURATION : Q := 0.5.
Definition REQUIRED_REST : Q := 10.
Definition MAX_CYCLE : Q := 70.
Definition RESTART_HOURS : Q := 34.
Definition FUEL_INTERVAL : Q := 1000.
Definition FUEL_DURATION : Q := 0.5.
Definition PICKUP_DURATION : Q := 1.0.
Definition DROPOFF_DURATION : Q := 1.0.
Definition PRE_TRIP_DURATION : Q := 0.25.
Definition POST_TRIP_DURATION : Q := 0.25.
Definition START_HOUR : Q := 8.

(** [__init__]: the only field of the object. *)
Definition initial_cycle (current_cycle_used : Q) : Q :=
  Py.min current_cycle_used MAX_CYCLE.

Definition _evt (status : Status) (clock duration : Q) (desc : Description)
           (location : Location) (distance : Q) (miles : option Q) : Event :=
  {| e_status := status;
     e_clock := Py.round2 clock;
     e_duration := Py.round2 duration;
     e_description := desc;
     e_location := location;
     e_distance := Py.round1 distance;
     e_miles := option_map Py.round1 miles |}.

(** The label of a position.  [progress * 100] is the exact product; on
    doubles it can fall just under a whole number, which [int] then cuts
    to the one below ([Binary64.HOSCalculator._loc]). *)
Definition _loc (from_loc to_loc : string) (total remaining : Q) : Location :=
  if total <=? 0 then Place from_loc
  else
    let progress := (total - remaining) / total in
    if progress <? 0.1 then Near from_loc
    else if progress >? 0.9 then Near to_loc
    else EnRoute (Py.int (progress * 100)) from_loc to_loc.

(** [_rest] returns [clock, shift_start, shift_driving, driving_since_break];
    the event list it appends to is returned with them. *)
Definition _rest (events : list Event) (clock : Q) (location : Location)
           (distance : Q) : list Event * (Q * Q * Q * Q) :=
  let events := events ++ [_evt sleeper_berth clock REQUIRED_REST
                                (Text "10-hour rest period") location distance None] in
  let clock := clock + REQUIRED_REST in
  (events, (clock, clock, 0, 0)).

(** [_restart] returns
    [clock, cycle, shift_start, shift_driving, driving_since_break]. *)
Definition _restart (events : list Event) (clock : Q) (location : Location)
           (distance : Q) : list Event * (Q * Q * Q * Q * Q) :=
  let events := events ++ [_evt sleeper_berth clock RESTART_HOURS
                                (Text "34-hour restart (70-hour cycle limit)")
                                location distance None] in
  let clock := clock + RESTART_HOURS in
  (events, (clock, 0, clock, 0, 0)).

(** The call
    [clock, shift_start, shift_driving, driving_since_break = self._rest(events, clock, loc, total_distance)]:
    the four variables named on the left are overwritten, the others stay. *)
Definition call_rest (events : list Event) (s : State) (loc : Location)
  : list Event * State :=
  let '(events, (c, ss, sd, dsb)) := _rest events (clock s) loc (total_distance s) in
  (events,
   {| clock := c; shift_start := ss; shift_driving := sd;
      driving_since_break := dsb;
      cycle_hours := cycle_hours s;
      total_distance := total_distance s;
      last_fuel_distance := last_fuel_distance s |}).

(** The call
    [clock, cycle_hours, shift_start, shift_driving, driving_since_break = self._restart(events, clock, loc, total_distance)]. *)
Definition call_restart (events : list Event) (s : State) (loc : Location)
  : list Event * State :=
  let '(events, (c, cy, ss, sd, dsb)) :=
    _restart events (clock s) loc (total_distance s) in
  (events,
   {| clock := c; shift_start := ss; shift_driving := sd;
      driving_since_break := dsb;
      cycle_hours := cy;
      total_distance := total_distance s;
      last_fuel_distance := last_fuel_distance s |}).

(** [_do_on_duty]; [distance] is the caller's [total_distance], which, like
    [last_fuel_distance], the caller keeps. *)
Definition _do_on_duty (events : list Event) (s : State) (duration : Q)
           (description : Description) (location : Location)
  : list Event * State :=
  let '(events, s) :=
    if (clock s - shift_start s) + duration >? MAX_DUTY_WINDOW
    then call_rest events s location else (events, s) in
  let '(events, s) :=
    if cycle_hours s + duration >? MAX_CYCLE
    then call_restart events s location else (events, s) in
  let events := events ++ [_evt on_duty_not_driving (clock s) duration
                                description location (total_distance s) None] in
  (events,
   {| clock := clock s + duration;
      shift_start := shift_start s;
      shift_driving := shift_driving s;
      driving_since_break :=
        if duration >=? BREAK_DURATION then 0 else driving_since_break s;
      cycle_hours := cycle_hours s + duration;
      total_distance := total_distance s;
      last_fuel_distance := last_fuel_distance s |}).

(** *** The loop of [_drive]

    One iteration is cut at the places where the source has its section
    comments.  [loc] is [self._loc(from_loc, to_loc, segment_miles,
    remaining)], which the source recomputes in each branch from values
    that do not change before the driving event. *)

(** CHECK CYCLE *)
Definition check_cycle (events : list Event) (s : State) (loc : Location)
  : list Event * State :=
  if cycle_hours s >=? MAX_CYCLE then call_restart events s loc
  else (events, s).

(** CHECK 14-HR WINDOW / 11-HR DRIVING *)
Definition check_shift (events : list Event) (s : State) (loc : Location)
  : list Event * State :=
  let shift_elapsed := clock s - shift_start s in
  if (shift_elapsed >=? MAX_DUTY_WINDOW) || (shift_driving s >=? MAX_DRIVING)
  then call_rest events s loc
  else (events, s).

(** The 30-minute break itself. *)
Definition take_break (events : list Event) (s : State) (loc : Location)
  : list Event * State :=
  let events := events ++ [_evt off_duty (clock s) BREAK_DURATION
                                (Text "30-minute break (8-hr driving limit)")
                                loc (total_distance s) None] in
  (events,
   {| clock := clock s + BREAK_DURATION;
      shift_start := shift_start s;
      shift_driving := shift_driving s;
      driving_since_break := 0;
      cycle_hours := cycle_hours s;
      total_distance := total_distance s;
      last_fuel_distance := last_fuel_distance s |}).

(** CHECK 30-MIN BREAK *)
Definition check_break (events : list Event) (s : State) (loc : Location)
  : list Event * State :=
  if driving_since_break s >=? BREAK_AFTER_DRIVING then
    let shift_elapsed := clock s - shift_start s in
    if (shift_elapsed + BREAK_DURATION <? MAX_DUTY_WINDOW)
       && (shift_driving s <? MAX_DRIVING)
    then take_break events s loc
    else call_rest events s loc
  else (events, s).

(** The fuelling stop itself. *)
Definition fuel_stop (events : list Event) (s : State) (loc : Location)
  : list Event * State :=
  let events := events ++ [_evt on_duty_not_driving (clock s) FUEL_DURATION
                                (Text "Fueling stop") loc (total_distance s) None] in
  (events,
   {| clock := clock s + FUEL_DURATION;
      shift_start := shift_start s;
      shift_driving := shift_driving s;
      driving_since_break := 0;
      cycle_hours := cycle_hours s + FUEL_DURATION;
      total_distance := total_distance s;
      last_fuel_distance := total_distance s |}).

(** CHECK FUEL *)
Definition check_fuel (events : list Event) (s : State) (loc : Location)
  : list Event * State :=
  if total_distance s - last_fuel_distance s >=? FUEL_INTERVAL then
    let shift_elapsed := clock s - shift_start s in
    let '(events, s) :=
      if shift_elapsed + FUEL_DURATION >? MAX_DUTY_WINDOW
      then call_rest events s loc else (events, s) in
    fuel_stop events s loc
  else (events, s).

(** Everything an iteration does before CALCULATE DRIVE TIME. *)
Definition before_driving (events : list Event) (s : State) (loc : Location)
  : list Event * State :=
  let '(events, s) := check_cycle events s loc in
  let '(events, s) := check_shift events s loc in
  let '(events, s) := check_break events s loc in
  check_fuel events s loc.

(** CALCULATE DRIVE TIME, up to the floor on [can_drive]. *)
Definition can_drive (s : State) (remaining avg_speed : Q) : Q :=
  let shift_elapsed := clock s - shift_start s in
  let t_break := Py.max 0.01 (BREAK_AFTER_DRIVING - driving_since_break s) in
  let t_11 := Py.max 0.01 (MAX_DRIVING - shift_driving s) in
  let t_14 := Py.max 0.01 (MAX_DUTY_WINDOW - shift_elapsed) in
  let t_cycle := Py.max 0.01 (MAX_CYCLE - cycle_hours s) in
  let t_fuel :=
    if avg_speed >? 0
    then Py.max 0.01 ((FUEL_INTERVAL - (total_distance s - last_fuel_distance s))
                      / avg_speed)
    else 999 in
  let t_finish := if avg_speed >? 0 then remaining / avg_speed else 0 in
  let can_drive :=
    Py.min (Py.min (Py.min (Py.min (Py.min t_break t_11) t_14) t_cycle) t_fuel)
           t_finish in
  Py.max 0.01 can_drive.

(** [drive_miles] and [drive_time] before they are rounded.  The product
    and the quotient are the exact ones; on doubles
    [(can_drive * avg_speed) / avg_speed] can fall under [can_drive]
    ([Binary64.HOSCalculator.drive_time]). *)
Definition drive_miles (s : State) (remaining avg_speed : Q) : Q :=
  Py.min (can_drive s remaining avg_speed * avg_speed) remaining.

Definition drive_time (s : State) (remaining avg_speed : Q) : Q :=
  if avg_speed >? 0 then drive_miles s remaining avg_speed / avg_speed else 0.

(** The driving event and the updates that follow it.  The sums are the
    exact ones; on doubles each [+=] rounds
    ([Binary64.HOSCalculator.drive_increment]). *)
Definition drive_increment (events : list Event) (s : State) (loc : Location)
           (drive_time drive_miles : Q) : list Event * State :=
  let events := events ++ [_evt driving (clock s) drive_time
                                (DrivingMiles drive_miles) loc
                                (total_distance s) (Some drive_miles)] in
  (events,
   {| clock := clock s + drive_time;
      shift_start := shift_start s;
      shift_driving := shift_driving s + drive_time;
      driving_since_break := driving_since_break s + drive_time;
      cycle_hours := cycle_hours s + drive_time;
      total_distance := total_distance s + drive_miles;
      last_fuel_distance := last_fuel_distance s |}).

(** How an iteration ends: back to the [while] test, the [break] of
    [if drive_time < 0.01], or the [break] of [if remaining < 0.5]. *)
Inductive Flow : Set := NextIteration | SafetyStop | SegmentDone.

(** One iteration of [while remaining > 0.5]. *)
Definition drive_body (events : list Event) (s : State) (remaining : Q)
           (segment_miles avg_speed : Q) (from_loc to_loc : string)
  : Flow * (list Event * State * Q) :=
  let loc := _loc from_loc to_loc segment_miles remaining in
  let '(events, s) := before_driving events s loc in
  let miles := drive_miles s remaining avg_speed in
  let time := drive_time s remaining avg_speed in
  if time <? 0.01 then (SafetyStop, (events, s, remaining))
  else
    let time := Py.round2 time in
    let miles := Py.round1 miles in
    let '(events, s) := drive_increment events s loc time miles in
    let remaining := remaining - miles in
    if remaining <? 0.5 then (SegmentDone, (events, s, 0))
    else (NextIteration, (events, s, remaining)).

(** The [while] loop; [fuel] bounds the number of iterations, and [None]
    is a run that needs more. *)
Fixpoint drive_loop (fuel : nat) (events : list Event) (s : State)
         (remaining : Q) (segment_miles avg_speed : Q)
         (from_loc to_loc : string) {struct fuel}
  : option (list Event * State * Q) :=
  if remaining >? 0.5 then
    match fuel with
    | O => None
    | S fuel =>
        let '(flow, (events, s, remaining)) :=
          drive_body events s remaining segment_miles avg_speed from_loc to_loc in
        match flow with
        | NextIteration =>
            drive_loop fuel events s remaining segment_miles avg_speed
                       from_loc to_loc
        | SafetyStop | SegmentDone => Some (events, s, remaining)
        end
    end
  else Some (events, s, remaining).

(** The variables at the [while] test once [n] iterations have run and
    the loop has not been left. *)
Fixpoint loop_head (n : nat) (events : list Event) (s : State)
         (remaining : Q) (segment_miles avg_speed : Q)
         (from_loc to_loc : string) {struct n}
  : option (list Event * State * Q) :=
  match n with
  | O => Some (events, s, remaining)
  | S n =>
      if remaining >? 0.5 then
        let '(flow, (events, s, remaining)) :=
          drive_body events s remaining segment_miles avg_speed from_loc to_loc in
        match flow with
        | NextIteration =>
            loop_head n events s remaining segment_miles avg_speed
                      from_loc to_loc
        | SafetyStop | SegmentDone => None
        end
      else None
  end.

(** [_drive]: the loop, then the seven variables are returned
    ([remaining] is local). *)
Definition _drive (fuel : nat) (events : list Event) (s : State)
           (segment_miles avg_speed : Q) (from_loc to_loc : string)
  : option (list Event * State) :=
  match drive_loop fuel events s segment_miles segment_miles avg_speed
                   from_loc to_loc with
  | Some (events, s, _) => Some (events, s)
  | None => None
  end.

(** *** [calculate_trip] *)

Record TripResult : Set := mkTripResult {
  r_events : list Event;
  r_total_distance : Q;
  r_final_cycle_hours : Q
}.

(** The state at the top of [calculate_trip]. *)
Definition start_state (initial_cycle : Q) : State :=
  {| clock := START_HOUR;
     shift_start := START_HOUR;
     shift_driving := 0;
     driving_since_break := 0;
     cycle_hours := initial_cycle;
     total_distance := 0;
     last_fuel_distance := 0 |}.

(** 34-HOUR RESTART IF NEEDED; it leaves the two driving counters as they
    are (they are zero). *)
Definition initial_restart (events : list Event) (s : State)
           (current_loc : string) : list Event * State :=
  if cycle_hours s >=? MAX_CYCLE then
    let events := events ++ [_evt sleeper_berth (clock s) RESTART_HOURS
                                  (Text "34-hour restart (70-hour cycle limit reached)")
                                  (Place current_loc) (total_distance s) None] in
    (events,
     {| clock := clock s + RESTART_HOURS;
        shift_start := clock s + RESTART_HOURS;
        shift_driving := shift_driving s;
        driving_since_break := driving_since_break s;
        cycle_hours := 0;
        total_distance := total_distance s;
        last_fuel_distance := last_fuel_distance s |})
  else (events, s).

(** PRE-TRIP INSPECTION and POST-TRIP INSPECTION: an event, then
    [clock] and [cycle_hours] advance. *)
Definition inspection (events : list Event) (s : State) (duration : Q)
           (description : string) (loc : string) : list Event * State :=
  let events := events ++ [_evt on_duty_not_driving (clock s) duration
                                (Text description) (Place loc)
                                (total_distance s) None] in
  (events,
   {| clock := clock s + duration;
      shift_start := shift_start s;
      shift_driving := shift_driving s;
      driving_since_break := driving_since_break s;
      cycle_hours := cycle_hours s + duration;
      total_distance := total_distance s;
      last_fuel_distance := last_fuel_distance s |}).

(** DRIVE LEG: skipped when the leg is at most half a mile. *)
Definition drive_leg (fuel : nat) (events : list Event) (s : State)
           (leg_miles leg_hours : Q) (from_loc to_loc : string)
  : option (list Event * State) :=
  if leg_miles >? 0.5 then
    let speed := if leg_hours >? 0 then leg_miles / leg_hours else 55 in
    _drive fuel events s leg_miles speed from_loc to_loc
  else Some (events, s).

(** The body of [calculate_trip] up to its [return]: the event list and
    the variables as they are then. *)
Definition run_trip (fuel : nat) (initial_cycle : Q)
           (leg1_miles leg1_hours leg2_miles leg2_hours : Q)
           (current_loc pickup_loc dropoff_loc : string)
  : option (list Event * State) :=
  let events := [] in
  let s := start_state initial_cycle in
  let '(events, s) := initial_restart events s current_loc in
  let '(events, s) :=
    inspection events s PRE_TRIP_DURATION "Pre-trip inspection" current_loc in
  match drive_leg fuel events s leg1_miles leg1_hours current_loc pickup_loc with
  | None => None
  | Some (events, s) =>
      let '(events, s) :=
        _do_on_duty events s PICKUP_DURATION (Text "Pickup / Loading")
                    (Place pickup_loc) in
      match drive_leg fuel events s leg2_miles leg2_hours pickup_loc dropoff_loc with
      | None => None
      | Some (events, s) =>
          let '(events, s) :=
            _do_on_duty events s DROPOFF_DURATION (Text "Dropoff / Unloading")
                        (Place dropoff_loc) in
          Some (inspection events s POST_TRIP_DURATION "Post-trip inspection"
                           dropoff_loc)
      end
  end.

Definition calculate_trip (fuel : nat) (initial_cycle : Q)
           (leg1_miles leg1_hours leg2_miles leg2_hours : Q)
           (current_loc pickup_loc dropoff_loc : string)
  : option TripResult :=
  match run_trip fuel initial_cycle leg1_miles leg1_hours leg2_miles leg2_hours
                 current_loc pickup_loc dropoff_loc with
  | Some (events, s) =>
      Some {| r_events := events;
              r_total_distance := Py.round1 (total_distance s);
              r_final_cycle_hours := Py.round2 (cycle_hours s) |}
  | None => None
  end.

(** [HOSCalculator(current_cycle_used).calculate_trip(...)]. *)
Definition simulate (fuel : nat) (current_cycle_used : Q)
           (leg1_miles leg1_hours leg2_miles leg2_hours : Q)
           (current_loc pickup_loc dropoff_loc : string)
  : option TripResult :=
  calculate_trip fuel (initial_cycle current_cycle_used)
                 leg1_miles leg1_hours leg2_miles leg2_hours
                 current_loc pickup_loc dropoff_loc.

End HOSCalculator.

(** ** The partitioner of [views.py] *)

Module Views.

(** An entry of [day_activities]. *)
Record Activity : Set := mkActivity {
  a_status : Status;
  start_hour : Q;
  end_hour : Q;
  a_duration : Q;
  a_description : Description;
  a_location : Location
}.

(** An entry of [day_remarks]; [time] is the pair that
    [f"{hour:02d}:{minute:02d}"] prints. *)
Record Remark : Set := mkRemark {
  time : Z * Z;
  rm_status : Status;
  text : Description;
  rm_location : Location
}.

(** The dict [totals], with its four keys in insertion order. *)
Record Totals : Set := mkTotals {
  t_off_duty : Q;
  t_sleeper_berth : Q;
  t_driving : Q;
  t_on_duty_not_driving : Q
}.

Record DailyLog : Set := mkDailyLog {
  day : Z;
  date : Z;
  total_miles : Q;
  activities : list Activity;
  remarks : list Remark;
  totals : Totals
}.

(** The synthetic block that fills a gap. *)
Definition off_duty_block (start_hour end_hour duration : Q) : Activity :=
  {| a_status := off_duty;
     start_hour := start_hour;
     end_hour := end_hour;
     a_duration := duration;
     a_description := Text "Off Duty";
     a_location := Place EmptyString |}.

(** [activities.sort(key=lambda x: x['start_hour'])]: the sort is stable,
    so an activity goes before the later ones of the same start hour. *)
Fixpoint insert_by_start (a : Activity) (sorted : list Activity)
  : list Activity :=
  match sorted with
  | [] => [a]
  | b :: rest =>
      if start_hour a <=? start_hour b then a :: b :: rest
      else b :: insert_by_start a rest
  end.

Definition sort_by_start (activities : list Activity) : list Activity :=
  fold_right insert_by_start [] activities.

(** The loop [for act in activities] of [_fill_gaps], on [filled] and
    [current]. *)
Fixpoint fill_loop (activities : list Activity) (filled : list Activity)
         (current : Q) : list Activity * Q :=
  match activities with
  | [] => (filled, current)
  | act :: rest =>
      let filled :=
        if start_hour act >? current + 0.01 then
          let gap := Py.round2 (start_hour act - current) in
          filled ++ [off_duty_block (Py.round2 current)
                                    (Py.round2 (start_hour act)) gap]
        else filled in
      let filled := filled ++ [act] in
      fill_loop rest filled (end_hour act)
  end.

Definition _fill_gaps (activities : list Activity) : list Activity :=
  match activities with
  | [] => [off_duty_block 0 24 24]
  | _ :: _ =>
      let activities := sort_by_start activities in
      let '(filled, current) := fill_loop activities [] 0.0 in
      if current <? 23.99 then
        let gap := Py.round2 (24 - current) in
        filled ++ [off_duty_block (Py.round2 current) 24.0 gap]
      else filled
  end.

(** [totals[s] += d]; every status is a key of [totals]. *)
Definition add_to (totals : Totals) (s : Status) (d : Q) : Totals :=
  match s with
  | off_duty =>
      {| t_off_duty := t_off_duty totals + d;
         t_sleeper_berth := t_sleeper_berth totals;
         t_driving := t_driving totals;
         t_on_duty_not_driving := t_on_duty_not_driving totals |}
  | sleeper_berth =>
      {| t_off_duty := t_off_duty totals;
         t_sleeper_berth := t_sleeper_berth totals + d;
         t_driving := t_driving totals;
         t_on_duty_not_driving := t_on_duty_not_driving totals |}
  | driving =>
      {| t_off_duty := t_off_duty totals;
         t_sleeper_berth := t_sleeper_berth totals;
         t_driving := t_driving totals + d;
         t_on_duty_not_driving := t_on_duty_not_driving totals |}
  | on_duty_not_driving =>
      {| t_off_duty := t_off_duty totals;
         t_sleeper_berth := t_sleeper_berth totals;
         t_driving := t_driving totals;
         t_on_duty_not_driving := t_on_duty_not_driving totals + d |}
  end.

(** [sum(totals.values())]. *)
Definition sum_values (totals : Totals) : Q :=
  0 + t_off_duty totals + t_sleeper_berth totals + t_driving totals
  + t_on_duty_not_driving totals.

Definition _calc_totals (activities : list Activity) : Totals :=
  let totals :=
    fold_left (fun totals act => add_to totals (a_status act) (a_duration act))
              activities
              {| t_off_duty := 0.0; t_sleeper_berth := 0.0;
                 t_driving := 0.0; t_on_duty_not_driving := 0.0 |} in
  let totals :=
    {| t_off_duty := Py.round2 (t_off_duty totals);
       t_sleeper_berth := Py.round2 (t_sleeper_berth totals);
       t_driving := Py.round2 (t_driving totals);
       t_on_duty_not_driving := Py.round2 (t_on_duty_not_driving totals) |} in
  let total := sum_values totals in
  if Qabs (total - 24) >? 0.01 then
    {| t_off_duty := Py.round2 (t_off_duty totals + (24 - total));
       t_sleeper_berth := t_sleeper_berth totals;
       t_driving := t_driving totals;
       t_on_duty_not_driving := t_on_duty_not_driving totals |}
  else totals.

(** What the loop [for event in events] of a day has built so far. *)
Record DayAcc : Set := mkDayAcc {
  day_activities : list Activity;
  day_miles : Q;
  day_remarks : list Remark
}.

(** [x % 1] on a float. *)
Definition mod1 (x : Q) : Q := x - inject_Z (Qfloor x).

(** The body of [for event in events]; a [continue] leaves [acc] as it
    is.  [ev_end] and [clipped_duration] are the exact sum and difference;
    on doubles a clipped duration of 0.01 can fall under the threshold
    ([Binary64.Views.day_step]). *)
Definition day_step (day_start day_end : Q) (acc : DayAcc) (event : Event)
  : DayAcc :=
  let ev_start := e_clock event in
  let ev_end := e_clock event + e_duration event in
  if (ev_end <=? day_start) || (ev_start >=? day_end) then acc
  else
    let clipped_start := Py.max ev_start day_start - day_start in
    let clipped_end := Py.min ev_end day_end - day_start in
    let clipped_duration := clipped_end - clipped_start in
    if clipped_duration <? 0.01 then acc
    else
      let hour := Py.int clipped_start in
      let minute := Py.int (mod1 clipped_start * 60) in
      {| day_activities :=
           day_activities acc ++
             [{| a_status := e_status event;
                 start_hour := Py.round2 clipped_start;
                 end_hour := Py.round2 clipped_end;
                 a_duration := Py.round2 clipped_duration;
                 a_description := e_description event;
                 a_location := e_location event |}];
         day_miles :=
           match e_miles event with
           | Some miles =>
               if negb (Qeq_bool miles 0) && (ev_start >=? day_start)
               then day_miles acc + miles
               else day_miles acc
           | None => day_miles acc
           end;
         day_remarks :=
           day_remarks acc ++
             [{| time := (hour, minute);
                 rm_status := e_status event;
                 text := e_description event;
                 rm_location := e_location event |}] |}.

(** The loop [for event in events] of one day. *)
Definition day_loop (events : list Event) (day_start day_end : Q) : DayAcc :=
  fold_left (day_step day_start day_end) events
            {| day_activities := []; day_miles := 0.0; day_remarks := [] |}.

(** The body of [for day_idx in range(num_days)]. *)
Definition daily_log (events : list Event) (start_date : Z) (day_idx : Z)
  : DailyLog :=
  let day_start := inject_Z (day_idx * 24) in
  let day_end := inject_Z ((day_idx + 1) * 24) in
  let acc := day_loop events day_start day_end in
  let filled := _fill_gaps (day_activities acc) in
  let totals := _calc_totals filled in
  {| day := (day_idx + 1)%Z;
     date := (start_date + day_idx)%Z;
     total_miles := Py.round1 (day_miles acc);
     activities := filled;
     remarks := day_remarks acc;
     totals := totals |}.

(** [range(n)]. *)
Definition range (n : Z) : list Z := map Z.of_nat (seq 0 (Z.to_nat n)).

(** [total_hours] and [num_days] for a list whose last event is known. *)
Definition total_hours (last_event : Event) : Q :=
  e_clock last_event + e_duration last_event.

Definition num_days (last_event : Event) : Z :=
  Z.max 1 (Py.ceil (total_hours last_event / 24)).

Definition generate_daily_logs (events : list Event) (start_date : Z)
  : list DailyLog :=
  match events with
  | [] => []
  | first :: _ =>
      let last_event := last events first in
      map (daily_log events start_date) (range (num_days last_event))
  end.

(** *** The summary of [calculate_trip] (the view)

    The view sums event durations by status and counts the daily logs; the
    lookups, the database and the response around that are not modelled. *)

Record Summary : Set := mkSummary {
  total_days : nat;
  total_driving_hours : Q;
  total_duty_hours : Q;
  total_rest_hours : Q;
  cycle_hours_at_end : Q
}.

(** [sum(e['duration'] for e in events if keep(e['status']))]. *)
Definition sum_durations_where (keep : Status -> bool) (events : list Event) : Q :=
  fold_left (fun total e => total + e_duration e)
            (filter (fun e => keep (e_status e)) events) 0.

Definition is_driving (s : Status) : bool :=
  match s with driving => true | _ => false end.

(** [e['status'] in ['driving', 'on_duty_not_driving']]. *)
Definition is_on_duty (s : Status) : bool :=
  match s with driving | on_duty_not_driving => true | _ => false end.

Definition is_sleeper_berth (s : Status) : bool :=
  match s with sleeper_berth => true | _ => false end.

Definition trip_summary (events : list Event) (daily_logs : list DailyLog)
           (final_cycle_hours : Q) : Summary :=
  let total_driving := sum_durations_where is_driving events in
  let total_on_duty := sum_durations_where is_on_duty events in
  let total_rest := sum_durations_where is_sleeper_berth events in
  {| total_days := List.length daily_logs;
     total_driving_hours := Py.round2 total_driving;
     total_duty_hours := Py.round2 total_on_duty;
     total_rest_hours := Py.round2 total_rest;
     cycle_hours_at_end := final_cycle_hours |}.

End Views.

Import HOSCalculator Views.

(** * The same program on binary64

    The Python code computes on doubles.  This module is the embedding
    above again, definition for definition, with the numbers of the code:
    every number is a binary64 value, [+], [-], [*], [/] and the comparisons
    are the operations of the machine, and [round(x, n)] is Python's: the
    exact value of [x] is rounded to [n] decimals, ties to even, and the
    result is the double nearest to that decimal.  It is used to run the
    code where the two arithmetics part. *)

Module Binary64.

Import PrimFloat FloatOps SpecFloat.
#[local] Open Scope float_scope.

Definition round_half_even (x : Q) : Z := Py.round_half_even x.

(** The number a double stands for; the doubles of this program are finite. *)
Definition value (x : float) : Q :=
  match Prim2SF x with
  | S754_finite sign m e =>
      let magnitude :=
        match e with
        | Zneg k => (Zpos m # 1) / (Zpos (2 ^ k) # 1)
        | _ => inject_Z (Zpos m * 2 ^ e)
        end%Q in
      Qred (if sign then Qopp magnitude else magnitude)
  | _ => 0%Q
  end.

(** The double of a whole number under [2^53]. *)
Definition of_Z (n : Z) : float :=
  match n with
  | Z0 => 0
  | Zpos _ => of_uint63 (Uint63.of_Z n)
  | Zneg p => - of_uint63 (Uint63.of_Z (Zpos p))
  end.

(** The double that a decimal literal denotes: the nearest one, which is
    the quotient of two whole numbers under [2^53]. *)
Definition double (q : Q) : float := of_Z (Qnum q) / of_Z (Zpos (Qden q)).


Module Py.

Definition ltb (x y : float) : bool := x <? y.
Definition leb (x y : float) : bool := x <=? y.

(** [max(a, b)] and [min(a, b)] return the first argument on a tie. *)
Definition max (a b : float) : float := if ltb a b then b else a.
Definition min (a b : float) : float := if ltb b a then b else a.

(** [round(x, 2)] and [round(x, 1)]: the quotient of two whole numbers is
    the double nearest to the decimal. *)
Definition round2 (x : float) : float :=
  of_Z (round_half_even (value x * 100)%Q) / 100.
Definition round1 (x : float) : float :=
  of_Z (round_half_even (value x * 10)%Q) / 10.

(** [math.floor(x)], [int(x)] and [math.ceil(x)]. *)
Definition floor (x : float) : Z := Qfloor (value x).
Definition int (x : float) : Z :=
  if ltb x 0 then Qceiling (value x) else Qfloor (value x).
Definition ceil (x : float) : Z := Qceiling (value x).

End Py.

#[local] Notation "x >? y" := (PrimFloat.ltb y x)
  (at level 70, no associativity, only parsing) : float_scope.
#[local] Notation "x >=? y" := (PrimFloat.leb y x)
  (at level 70, no associativity, only parsing) : float_scope.

Inductive Description : Set :=
| Text (s : string)
| DrivingMiles (drive_miles : float).

Record Event : Set := mkEvent {
  e_status : Status;
  e_clock : float;
  e_duration : float;
  e_description : Description;
  e_location : Location;
  e_distance : float;
  e_miles : option float
}.

Record State : Set := mkState {
  clock : float;
  shift_start : float;
  shift_driving : float;
  driving_since_break : float;
  cycle_hours : float;
  total_distance : float;
  last_fuel_distance : float
}.

Module HOSCalculator.

Definition MAX_DRIVING : float := 11.
Definition MAX_DUTY_WINDOW : float := 14.
Definition BREAK_AFTER_DRIVING : float := 8.
Definition BREAK_DURATION : float := 0.5.
Definition REQUIRED_REST : float := 10.
Definition MAX_CYCLE : float := 70.
Definition RESTART_HOURS : float := 34.
Definition FUEL_INTERVAL : float := 1000.
Definition FUEL_DURATION : float := 0.5.
Definition PICKUP_DURATION : float := 1.0.
Definition DROPOFF_DURATION : float := 1.0.
Definition PRE_TRIP_DURATION : float := 0.25.
Definition POST_TRIP_DURATION : float := 0.25.
Definition START_HOUR : float := 8.

(** [__init__]: the only field of the object. *)
Definition initial_cycle (current_cycle_used : float) : float :=
  Py.min current_cycle_used MAX_CYCLE.

Definition _evt (status : Status) (clock duration : float) (desc : Description)
           (location : Location) (distance : float) (miles : option float) : Event :=
  {| e_status := status;
     e_clock := Py.round2 clock;
     e_duration := Py.round2 duration;
     e_description := desc;
     e_location := location;
     e_distance := Py.round1 distance;
     e_miles := option_map Py.round1 miles |}.

Definition _loc (from_loc to_loc : string) (total remaining : float) : Location :=
  if total <=? 0 then Place from_loc
  else
    let progress := (total - remaining) / total in
    if progress <? 0.1 then Near from_loc
    else if progress >? 0.9 then Near to_loc
    else EnRoute (Py.int (progress * 100)) from_loc to_loc.

(** [_rest] returns [clock, shift_start, shift_driving, driving_since_break];
    the event list it appends to is returned with them. *)
Definition _rest (events : list Event) (clock : float) (location : Location)
           (distance : float) : list Event * (float * float * float * float) :=
  let events := events ++ [_evt sleeper_berth clock REQUIRED_REST
                                (Text "10-hour rest period") location distance None] in
  let clock := clock + REQUIRED_REST in
  (events, (clock, clock, 0, 0)).

(** [_restart] returns
    [clock, cycle, shift_start, shift_driving, driving_since_break]. *)
Definition _restart (events : list Event) (clock : float) (location : Location)
           (distance : float) : list Event * (float * float * float * float * float) :=
  let events := events ++ [_evt sleeper_berth clock RESTART_HOURS
                                (Text "34-hour restart (70-hour cycle limit)")
                                location distance None] in
  let clock := clock + RESTART_HOURS in
  (events, (clock, 0, clock, 0, 0)).

(** The call
    [clock, shift_start, shift_driving, driving_since_break = self._rest(events, clock, loc, total_distance)]:
    the four variables named on the left are overwritten, the others stay. *)
Definition call_rest (events : list Event) (s : State) (loc : Location)
  : list Event * State :=
  let '(events, (c, ss, sd, dsb)) := _rest events (clock s) loc (total_distance s) in
  (events,
   {| clock := c; shift_start := ss; shift_driving := sd;
      driving_since_break := dsb;
      cycle_hours := cycle_hours s;
      total_distance := total_distance s;
      last_fuel_distance := last_fuel_distance s |}).

(** The call
    [clock, cycle_hours, shift_start, shift_driving, driving_since_break = self._restart(events, clock, loc, total_distance)]. *)
Definition call_restart (events : list Event) (s : State) (loc : Location)
  : list Event * State :=
  let '(events, (c, cy, ss, sd, dsb)) :=
    _restart events (clock s) loc (total_distance s) in
  (events,
   {| clock := c; shift_start := ss; shift_driving := sd;
      driving_since_break := dsb;
      cycle_hours := cy;
      total_distance := total_distance s;
      last_fuel_distance := last_fuel_distance s |}).

(** [_do_on_duty]; [distance] is the caller's [total_distance], which, like
    [last_fuel_distance], the caller keeps. *)
Definition _do_on_duty (events : list Event) (s : State) (duration : float)
           (description : Description) (location : Location)
  : list Event * State :=
  let '(events, s) :=
    if (clock s - shift_start s) + duration >? MAX_DUTY_WINDOW
    then call_rest events s location else (events, s) in
  let '(events, s) :=
    if cycle_hours s + duration >? MAX_CYCLE
    then call_restart events s location else (events, s) in
  let events := events ++ [_evt on_duty_not_driving (clock s) duration
                                description location (total_distance s) None] in
  (events,
   {| clock := clock s + duration;
      shift_start := shift_start s;
      shift_driving := shift_driving s;
      driving_since_break :=
        if duration >=? BREAK_DURATION then 0 else driving_since_break s;
      cycle_hours := cycle_hours s + duration;
      total_distance := total_distance s;
      last_fuel_distance := last_fuel_distance s |}).

(** *** The loop of [_drive]

    One iteration is cut at the places where the source has its section
    comments.  [loc] is [self._loc(from_loc, to_loc, segment_miles,
    remaining)], which the source recomputes in each branch from values
    that do not change before the driving event. *)

(** CHECK CYCLE *)
Definition check_cycle (events : list Event) (s : State) (loc : Location)
  : list Event * State :=
  if cycle_hours s >=? MAX_CYCLE then call_restart events s loc
  else (events, s).

(** CHECK 14-HR WINDOW / 11-HR DRIVING *)
Definition check_shift (events : list Event) (s : State) (loc : Location)
  : list Event * State :=
  let shift_elapsed := clock s - shift_start s in
  if (shift_elapsed >=? MAX_DUTY_WINDOW) || (shift_driving s >=? MAX_DRIVING)
  then call_rest events s loc
  else (events, s).

(** The 30-minute break itself. *)
Definition take_break (events : list Event) (s : State) (loc : Location)
  : list Event * State :=
  let events := events ++ [_evt off_duty (clock s) BREAK_DURATION
                                (Text "30-minute break (8-hr driving limit)")
                                loc (total_distance s) None] in
  (events,
   {| clock := clock s + BREAK_DURATION;
      shift_start := shift_start s;
      shift_driving := shift_driving s;
      driving_since_break := 0;
      cycle_hours := cycle_hours s;
      total_distance := total_distance s;
      last_fuel_distance := last_fuel_distance s |}).

(** CHECK 30-MIN BREAK *)
Definition check_break (events : list Event) (s : State) (loc : Location)
  : list Event * State :=
  if driving_since_break s >=? BREAK_AFTER_DRIVING then
    let shift_elapsed := clock s - shift_start s in
    if (shift_elapsed + BREAK_DURATION <? MAX_DUTY_WINDOW)
       && (shift_driving s <? MAX_DRIVING)
    then take_break events s loc
    else call_rest events s loc
  else (events, s).

(** The fuelling stop itself. *)
Definition fuel_stop (events : list Event) (s : State) (loc : Location)
  : list Event * State :=
  let events := events ++ [_evt on_duty_not_driving (clock s) FUEL_DURATION
                                (Text "Fueling stop") loc (total_distance s) None] in
  (events,
   {| clock := clock s + FUEL_DURATION;
      shift_start := shift_start s;
      shift_driving := shift_driving s;
      driving_since_break := 0;
      cycle_hours := cycle_hours s + FUEL_DURATION;
      total_distance := total_distance s;
      last_fuel_distance := total_distance s |}).

(** CHECK FUEL *)
Definition check_fuel (events : list Event) (s : State) (loc : Location)
  : list Event * State :=
  if total_distance s - last_fuel_distance s >=? FUEL_INTERVAL then
    let shift_elapsed := clock s - shift_start s in
    let '(events, s) :=
      if shift_elapsed + FUEL_DURATION >? MAX_DUTY_WINDOW
      then call_rest events s loc else (events, s) in
    fuel_stop events s loc
  else (events, s).

(** Everything an iteration does before CALCULATE DRIVE TIME. *)
Definition before_driving (events : list Event) (s : State) (loc : Location)
  : list Event * State :=
  let '(events, s) := check_cycle events s loc in
  let '(events, s) := check_shift events s loc in
  let '(events, s) := check_break events s loc in
  check_fuel events s loc.

(** CALCULATE DRIVE TIME, up to the floor on [can_drive]. *)
Definition can_drive (s : State) (remaining avg_speed : float) : float :=
  let shift_elapsed := clock s - shift_start s in
  let t_break := Py.max 0.01 (BREAK_AFTER_DRIVING - driving_since_break s) in
  let t_11 := Py.max 0.01 (MAX_DRIVING - shift_driving s) in
  let t_14 := Py.max 0.01 (MAX_DUTY_WINDOW - shift_elapsed) in
  let t_cycle := Py.max 0.01 (MAX_CYCLE - cycle_hours s) in
  let t_fuel :=
    if avg_speed >? 0
    then Py.max 0.01 ((FUEL_INTERVAL - (total_distance s - last_fuel_distance s))
                      / avg_speed)
    else 999 in
  let t_finish := if avg_speed >? 0 then remaining / avg_speed else 0 in
  let can_drive :=
    Py.min (Py.min (Py.min (Py.min (Py.min t_break t_11) t_14) t_cycle) t_fuel)
           t_finish in
  Py.max 0.01 can_drive.

(** [drive_miles] and [drive_time] before they are rounded. *)
Definition drive_miles (s : State) (remaining avg_speed : float) : float :=
  Py.min (can_drive s remaining avg_speed * avg_speed) remaining.

Definition drive_time (s : State) (remaining avg_speed : float) : float :=
  if avg_speed >? 0 then drive_miles s remaining avg_speed / avg_speed else 0.

(** The driving event and the updates that follow it. *)
Definition drive_increment (events : list Event) (s : State) (loc : Location)
           (drive_time drive_miles : float) : list Event * State :=
  let events := events ++ [_evt driving (clock s) drive_time
                                (DrivingMiles drive_miles) loc
                                (total_distance s) (Some drive_miles)] in
  (events,
   {| clock := clock s + drive_time;
      shift_start := shift_start s;
      shift_driving := shift_driving s + drive_time;
      driving_since_break := driving_since_break s + drive_time;
      cycle_hours := cycle_hours s + drive_time;
      total_distance := total_distance s + drive_miles;
      last_fuel_distance := last_fuel_distance s |}).

(** How an iteration ends: back to the [while] test, the [break] of
    [if drive_time < 0.01], or the [break] of [if remaining < 0.5]. *)
Inductive Flow : Set := NextIteration | SafetyStop | SegmentDone.

(** One iteration of [while remaining > 0.5]. *)
Definition drive_body (events : list Event) (s : State) (remaining : float)
           (segment_miles avg_speed : float) (from_loc to_loc : string)
  : Flow * (list Event * State * float) :=
  let loc := _loc from_loc to_loc segment_miles remaining in
  let '(events, s) := before_driving events s loc in
  let miles := drive_miles s remaining avg_speed in
  let time := drive_time s remaining avg_speed in
  if time <? 0.01 then (SafetyStop, (events, s, remaining))
  else
    let time := Py.round2 time in
    let miles := Py.round1 miles in
    let '(events, s) := drive_increment events s loc time miles in
    let remaining := remaining - miles in
    if remaining <? 0.5 then (SegmentDone, (events, s, 0))
    else (NextIteration, (events, s, remaining)).

(** The [while] loop; [fuel] bounds the number of iterations, and [None]
    is a run that needs more. *)
Fixpoint drive_loop (fuel : nat) (events : list Event) (s : State)
         (remaining : float) (segment_miles avg_speed : float)
         (from_loc to_loc : string) {struct fuel}
  : option (list Event * State * float) :=
  if remaining >? 0.5 then
    match fuel with
    | O => None
    | S fuel =>
        let '(flow, (events, s, remaining)) :=
          drive_body events s remaining segment_miles avg_speed from_loc to_loc in
        match flow with
        | NextIteration =>
            drive_loop fuel events s remaining segment_miles avg_speed
                       from_loc to_loc
        | SafetyStop | SegmentDone => Some (events, s, remaining)
        end
    end
  else Some (events, s, remaining).

(** The variables at the [while] test once [n] iterations have run and
    the loop has not been left. *)
Fixpoint loop_head (n : nat) (events : list Event) (s : State)
         (remaining : float) (segment_miles avg_speed : float)
         (from_loc to_loc : string) {struct n}
  : option (list Event * State * float) :=
  match n with
  | O => Some (events, s, remaining)
  | S n =>
      if remaining >? 0.5 then
        let '(flow, (events, s, remaining)) :=
          drive_body events s remaining segment_miles avg_speed from_loc to_loc in
        match flow with
        | NextIteration =>
            loop_head n events s remaining segment_miles avg_speed
                      from_loc to_loc
        | SafetyStop | SegmentDone => None
        end
      else None
  end.

(** [_drive]: the loop, then the seven variables are returned
    ([remaining] is local). *)
Definition _drive (fuel : nat) (events : list Event) (s : State)
           (segment_miles avg_speed : float) (from_loc to_loc : string)
  : option (list Event * State) :=
  match drive_loop fuel events s segment_miles segment_miles avg_speed
                   from_loc to_loc with
  | Some (events, s, _) => Some (events, s)
  | None => None
  end.

(** *** [calculate_trip] *)

Record TripResult : Set := mkTripResult {
  r_events : list Event;
  r_total_distance : float;
  r_final_cycle_hours : float
}.

(** The state at the top of [calculate_trip]. *)
Definition start_state (initial_cycle : float) : State :=
  {| clock := START_HOUR;
     shift_start := START_HOUR;
     shift_driving := 0;
     driving_since_break := 0;
     cycle_hours := initial_cycle;
     total_distance := 0;
     last_fuel_distance := 0 |}.

(** 34-HOUR RESTART IF NEEDED; it leaves the two driving counters as they
    are (they are zero). *)
Definition initial_restart (events : list Event) (s : State)
           (current_loc : string) : list Event * State :=
  if cycle_hours s >=? MAX_CYCLE then
    let events := events ++ [_evt sleeper_berth (clock s) RESTART_HOURS
                                  (Text "34-hour restart (70-hour cycle limit reached)")
                                  (Place current_loc) (total_distance s) None] in
    (events,
     {| clock := clock s + RESTART_HOURS;
        shift_start := clock s + RESTART_HOURS;
        shift_driving := shift_driving s;
        driving_since_break := driving_since_break s;
        cycle_hours := 0;
        total_distance := total_distance s;
        last_fuel_distance := last_fuel_distance s |})
  else (events, s).

(** PRE-TRIP INSPECTION and POST-TRIP INSPECTION: an event, then
    [clock] and [cycle_hours] advance. *)
Definition inspection (events : list Event) (s : State) (duration : float)
           (description : string) (loc : string) : list Event * State :=
  let events := events ++ [_evt on_duty_not_driving (clock s) duration
                                (Text description) (Place loc)
                                (total_distance s) None] in
  (events,
   {| clock := clock s + duration;
      shift_start := shift_start s;
      shift_driving := shift_driving s;
      driving_since_break := driving_since_break s;
      cycle_hours := cycle_hours s + duration;
      total_distance := total_distance s;
      last_fuel_distance := last_fuel_distance s |}).

(** DRIVE LEG: skipped when the leg is at most half a mile. *)
Definition drive_leg (fuel : nat) (events : list Event) (s : State)
           (leg_miles leg_hours : float) (from_loc to_loc : string)
  : option (list Event * State) :=
  if leg_miles >? 0.5 then
    let speed := if leg_hours >? 0 then leg_miles / leg_hours else 55 in
    _drive fuel events s leg_miles speed from_loc to_loc
  else Some (events, s).

(** The body of [calculate_trip] up to its [return]: the event list and
    the variables as they are then. *)
Definition run_trip (fuel : nat) (initial_cycle : float)
           (leg1_miles leg1_hours leg2_miles leg2_hours : float)
           (current_loc pickup_loc dropoff_loc : string)
  : option (list Event * State) :=
  let events := [] in
  let s := start_state initial_cycle in
  let '(events, s) := initial_restart events s current_loc in
  let '(events, s) :=
    inspection events s PRE_TRIP_DURATION "Pre-trip inspection" current_loc in
  match drive_leg fuel events s leg1_miles leg1_hours current_loc pickup_loc with
  | None => None
  | Some (events, s) =>
      let '(events, s) :=
        _do_on_duty events s PICKUP_DURATION (Text "Pickup / Loading")
                    (Place pickup_loc) in
      match drive_leg fuel events s leg2_miles leg2_hours pickup_loc dropoff_loc with
      | None => None
      | Some (events, s) =>
          let '(events, s) :=
            _do_on_duty events s DROPOFF_DURATION (Text "Dropoff / Unloading")
                        (Place dropoff_loc) in
          Some (inspection events s POST_TRIP_DURATION "Post-trip inspection"
                           dropoff_loc)
      end
  end.

Definition calculate_trip (fuel : nat) (initial_cycle : float)
           (leg1_miles leg1_hours leg2_miles leg2_hours : float)
           (current_loc pickup_loc dropoff_loc : string)
  : option TripResult :=
  match run_trip fuel initial_cycle leg1_miles leg1_hours leg2_miles leg2_hours
                 current_loc pickup_loc dropoff_loc with
  | Some (events, s) =>
      Some {| r_events := events;
              r_total_distance := Py.round1 (total_distance s);
              r_final_cycle_hours := Py.round2 (cycle_hours s) |}
  | None => None
  end.

(** [HOSCalculator(current_cycle_used).calculate_trip(...)]. *)
Definition simulate (fuel : nat) (current_cycle_used : float)
           (leg1_miles leg1_hours leg2_miles leg2_hours : float)
           (current_loc pickup_loc dropoff_loc : string)
  : option TripResult :=
  calculate_trip fuel (initial_cycle current_cycle_used)
                 leg1_miles leg1_hours leg2_miles leg2_hours
                 current_loc pickup_loc dropoff_loc.

End HOSCalculator.

Module Views.

(** An entry of [day_activities]. *)
Record Activity : Set := mkActivity {
  a_status : Status;
  start_hour : float;
  end_hour : float;
  a_duration : float;
  a_description : Description;
  a_location : Location
}.

(** An entry of [day_remarks]; [time] is the pair that
    [f"{hour:02d}:{minute:02d}"] prints. *)
Record Remark : Set := mkRemark {
  time : Z * Z;
  rm_status : Status;
  text : Description;
  rm_location : Location
}.

(** The dict [totals], with its four keys in insertion order. *)
Record Totals : Set := mkTotals {
  t_off_duty : float;
  t_sleeper_berth : float;
  t_driving : float;
  t_on_duty_not_driving : float
}.

Record DailyLog : Set := mkDailyLog {
  day : Z;
  date : Z;
  total_miles : float;
  activities : list Activity;
  remarks : list Remark;
  totals : Totals
}.

(** The synthetic block that fills a gap. *)
Definition off_duty_block (start_hour end_hour duration : float) : Activity :=
  {| a_status := off_duty;
     start_hour := start_hour;
     end_hour := end_hour;
     a_duration := duration;
     a_description := Text "Off Duty";
     a_location := Place EmptyString |}.

(** [activities.sort(key=lambda x: x['start_hour'])]: the sort is stable,
    so an activity goes before the later ones of the same start hour. *)
Fixpoint insert_by_start (a : Activity) (sorted : list Activity)
  : list Activity :=
  match sorted with
  | [] => [a]
  | b :: rest =>
      if start_hour a <=? start_hour b then a :: b :: rest
      else b :: insert_by_start a rest
  end.

Definition sort_by_start (activities : list Activity) : list Activity :=
  fold_right insert_by_start [] activities.

(** The loop [for act in activities] of [_fill_gaps], on [filled] and
    [current]. *)
Fixpoint fill_loop (activities : list Activity) (filled : list Activity)
         (current : float) : list Activity * float :=
  match activities with
  | [] => (filled, current)
  | act :: rest =>
      let filled :=
        if start_hour act >? current + 0.01 then
          let gap := Py.round2 (start_hour act - current) in
          filled ++ [off_duty_block (Py.round2 current)
                                    (Py.round2 (start_hour act)) gap]
        else filled in
      let filled := filled ++ [act] in
      fill_loop rest filled (end_hour act)
  end.

Definition _fill_gaps (activities : list Activity) : list Activity :=
  match activities with
  | [] => [off_duty_block 0 24 24]
  | _ :: _ =>
      let activities := sort_by_start activities in
      let '(filled, current) := fill_loop activities [] 0.0 in
      if current <? 23.99 then
        let gap := Py.round2 (24 - current) in
        filled ++ [off_duty_block (Py.round2 current) 24.0 gap]
      else filled
  end.

(** [totals[s] += d]; every status is a key of [totals]. *)
Definition add_to (totals : Totals) (s : Status) (d : float) : Totals :=
  match s with
  | off_duty =>
      {| t_off_duty := t_off_duty totals + d;
         t_sleeper_berth := t_sleeper_berth totals;
         t_driving := t_driving totals;
         t_on_duty_not_driving := t_on_duty_not_driving totals |}
  | sleeper_berth =>
      {| t_off_duty := t_off_duty totals;
         t_sleeper_berth := t_sleeper_berth totals + d;
         t_driving := t_driving totals;
         t_on_duty_not_driving := t_on_duty_not_driving totals |}
  | driving =>
      {| t_off_duty := t_off_duty totals;
         t_sleeper_berth := t_sleeper_berth totals;
         t_driving := t_driving totals + d;
         t_on_duty_not_driving := t_on_duty_not_driving totals |}
  | on_duty_not_driving =>
      {| t_off_duty := t_off_duty totals;
         t_sleeper_berth := t_sleeper_berth totals;
         t_driving := t_driving totals;
         t_on_duty_not_driving := t_on_duty_not_driving totals + d |}
  end.

(** [sum(totals.values())]. *)
Definition sum_values (totals : Totals) : float :=
  0 + t_off_duty totals + t_sleeper_berth totals + t_driving totals
  + t_on_duty_not_driving totals.

Definition _calc_totals (activities : list Activity) : Totals :=
  let totals :=
    fold_left (fun totals act => add_to totals (a_status act) (a_duration act))
              activities
              {| t_off_duty := 0.0; t_sleeper_berth := 0.0;
                 t_driving := 0.0; t_on_duty_not_driving := 0.0 |} in
  let totals :=
    {| t_off_duty := Py.round2 (t_off_duty totals);
       t_sleeper_berth := Py.round2 (t_sleeper_berth totals);
       t_driving := Py.round2 (t_driving totals);
       t_on_duty_not_driving := Py.round2 (t_on_duty_not_driving totals) |} in
  let total := sum_values totals in
  if abs (total - 24) >? 0.01 then
    {| t_off_duty := Py.round2 (t_off_duty totals + (24 - total));
       t_sleeper_berth := t_sleeper_berth totals;
       t_driving := t_driving totals;
       t_on_duty_not_driving := t_on_duty_not_driving totals |}
  else totals.

(** What the loop [for event in events] of a day has built so far. *)
Record DayAcc : Set := mkDayAcc {
  day_activities : list Activity;
  day_miles : float;
  day_remarks : list Remark
}.

(** [x % 1] on a float. *)
Definition mod1 (x : float) : float := x - of_Z (Py.floor x).

(** The body of [for event in events]; a [continue] leaves [acc] as it
    is. *)
Definition day_step (day_start day_end : float) (acc : DayAcc) (event : Event)
  : DayAcc :=
  let ev_start := e_clock event in
  let ev_end := e_clock event + e_duration event in
  if (ev_end <=? day_start) || (ev_start >=? day_end) then acc
  else
    let clipped_start := Py.max ev_start day_start - day_start in
    let clipped_end := Py.min ev_end day_end - day_start in
    let clipped_duration := clipped_end - clipped_start in
    if clipped_duration <? 0.01 then acc
    else
      let hour := Py.int clipped_start in
      let minute := Py.int (mod1 clipped_start * 60) in
      {| day_activities :=
           day_activities acc ++
             [{| a_status := e_status event;
                 start_hour := Py.round2 clipped_start;
                 end_hour := Py.round2 clipped_end;
                 a_duration := Py.round2 clipped_duration;
                 a_description := e_description event;
                 a_location := e_location event |}];
         day_miles :=
           match e_miles event with
           | Some miles =>
               if negb (miles =? 0) && (ev_start >=? day_start)
               then day_miles acc + miles
               else day_miles acc
           | None => day_miles acc
           end;
         day_remarks :=
           day_remarks acc ++
             [{| time := (hour, minute);
                 rm_status := e_status event;
                 text := e_description event;
                 rm_location := e_location event |}] |}.

(** The loop [for event in events] of one day. *)
Definition day_loop (events : list Event) (day_start day_end : float) : DayAcc :=
  fold_left (day_step day_start day_end) events
            {| day_activities := []; day_miles := 0.0; day_remarks := [] |}.

(** The body of [for day_idx in range(num_days)]. *)
Definition daily_log (events : list Event) (start_date : Z) (day_idx : Z)
  : DailyLog :=
  let day_start := of_Z (day_idx * 24) in
  let day_end := of_Z ((day_idx + 1) * 24) in
  let acc := day_loop events day_start day_end in
  let filled := _fill_gaps (day_activities acc) in
  let totals := _calc_totals filled in
  {| day := (day_idx + 1)%Z;
     date := (start_date + day_idx)%Z;
     total_miles := Py.round1 (day_miles acc);
     activities := filled;
     remarks := day_remarks acc;
     totals := totals |}.

(** [range(n)]. *)
Definition range (n : Z) : list Z := map Z.of_nat (seq 0 (Z.to_nat n)).

(** [total_hours] and [num_days] for a list whose last event is known. *)
Definition total_hours (last_event : Event) : float :=
  e_clock last_event + e_duration last_event.

Definition num_days (last_event : Event) : Z :=
  Z.max 1 (Py.ceil (total_hours last_event / 24)).

Definition generate_daily_logs (events : list Event) (start_date : Z)
  : list DailyLog :=
  match events with
  | [] => []
  | first :: _ =>
      let last_event := last events first in
      map (daily_log events start_date) (range (num_days last_event))
  end.


End Views.

End Binary64.

(** ** Vocabulary of the statements *)

(** A number with at most two decimals: what [round(x, 2)] returns. *)
Definition hundredths (x : Q) : Prop := exists k : Z, x == k # 100.

(** The invariant of the data model: the driving of the shift fits in the
    time since the shift started, and the driving since the last break fits
    in the driving of the shift. *)
Definition counters_ordered (s : State) : Prop :=
  shift_driving s <= clock s - shift_start s
  /\ driving_since_break s <= shift_driving s.

(** What the steps of the simulator preserve: the invariant, with a driving
    since the last break that is not negative. *)
Definition counters_consistent (s : State) : Prop :=
  0 <= driving_since_break s /\ counters_ordered s.

(** The states a simulation passes through: the state [calculate_trip]
    starts from, and what each step of the simulator makes of a state it has
    reached.  A driving event lasts at least 0.01 hour, the other durations
    are not negative. *)
Inductive reachable : State -> Prop :=
| reach_start (initial_cycle : Q) :
    reachable (start_state initial_cycle)
| reach_initial_restart (initial_cycle : Q) (current_loc : string) :
    reachable (snd (initial_restart [] (start_state initial_cycle) current_loc))
| reach_inspection events s duration description place :
    reachable s -> 0 <= duration ->
    reachable (snd (inspection events s duration description place))
| reach_rest events s loc :
    reachable s -> reachable (snd (call_rest events s loc))
| reach_restart events s loc :
    reachable s -> reachable (snd (call_restart events s loc))
| reach_break events s loc :
    reachable s -> reachable (snd (take_break events s loc))
| reach_fuel events s loc :
    reachable s -> reachable (snd (fuel_stop events s loc))
| reach_increment events s loc time miles :
    reachable s -> 0.01 <= time ->
    reachable (snd (drive_increment events s loc time miles))
| reach_on_duty events s duration description location :
    reachable s -> 0 <= duration ->
    reachable (snd (_do_on_duty events s duration description location)).

(** Events that follow each other without a gap from [start] to [finish],
    each of positive duration and recorded to two decimals, as [_evt]
    records them. *)
Fixpoint timeline (start : Q) (events : list Event) (finish : Q) : Prop :=
  match events with
  | [] => start == finish
  | e :: rest =>
      e_clock e == start
      /\ hundredths (e_clock e)
      /\ hundredths (e_duration e)
      /\ 0 < e_duration e
      /\ timeline (e_clock e + e_duration e) rest finish
  end.

(** Activities that cover the hours from [a] to [b] one after the other. *)
Fixpoint tiles (a : Q) (acts : list Activity) (b : Q) : Prop :=
  match acts with
  | [] => a == b
  | act :: rest =>
      start_hour act == a
      /\ a < end_hour act
      /\ a_duration act == end_hour act - a
      /\ hundredths (a_duration act)
      /\ tiles (end_hour act) rest b
  end.

(** The hours of a list of activities. *)
Definition sum_durations (acts : list Activity) : Q :=
  fold_right (fun act total => a_duration act + total) 0 acts.

(** The events appended so far follow each other from the start hour to
    the current clock, which has two decimals. *)
Definition well_timed (run : list Event * State) : Prop :=
  timeline START_HOUR (fst run) (clock (snd run))
  /\ hundredths (clock (snd run)).

(** The four totals have two decimals. *)
Definition totals_hundredths (t : Totals) : Prop :=
  hundredths (t_off_duty t) /\ hundredths (t_sleeper_berth t)
  /\ hundredths (t_driving t) /\ hundredths (t_on_duty_not_driving t).

(** Two decimals, decided. *)
Definition has_two_decimals (x : Q) : bool :=
  ((Qnum x * 100) mod (Zpos (Qden x)) =? 0)%Z.

(** The last step of [_do_on_duty]: the event of the activity and the
    updates that follow it. *)
Definition on_duty_activity (events : list Event) (s : State) (duration : Q)
           (description : Description) (location : Location)
  : list Event * State :=
  (events ++ [_evt on_duty_not_driving (clock s) duration description location
                   (total_distance s) None],
   {| clock := clock s + duration;
      shift_start := shift_start s;
      shift_driving := shift_driving s;
      driving_since_break :=
        if duration >=? BREAK_DURATION then 0 else driving_since_break s;
      cycle_hours := cycle_hours s + duration;
      total_distance := total_distance s;
      last_fuel_distance := last_fuel_distance s |}).

(** The two driving counters are within the limits of 11 hours in a shift
    and 8 hours between breaks, but for the hundredths that a last driving
    time and the rounding of the sums may add. *)
Definition near_driving_limits (s : State) : Prop :=
  shift_driving s < 11.02 /\ driving_since_break s < 8.02.

(** A remark stamped with a time of the day. *)
Definition valid_remark (r : Remark) : Prop :=
  (0 <= fst (time r) <= 23)%Z /\ (0 <= snd (time r) <= 59)%Z.

(** A number with at most one decimal: what [round(x, 1)] returns. *)
Definition tenths (x : Q) : Prop := exists k : Z, x == k # 10.

(** The miles an event carries: those of its key ['miles'], if it has it. *)
Definition miles_of (e : Event) : Q :=
  match e_miles e with Some miles => miles | None => 0 end.

Definition sum_miles (events : list Event) : Q :=
  fold_right (fun e total => miles_of e + total) 0 events.

(** Each event's ['distance'] is [d] plus the miles of the events before
    it. *)
Fixpoint distances_from (d : Q) (events : list Event) : Prop :=
  match events with
  | [] => True
  | e :: rest => e_distance e == d /\ distances_from (d + miles_of e) rest
  end.

(** Only driving events carry miles. *)
Definition miles_on_driving (e : Event) : Prop :=
  e_miles e <> None <-> e_status e = driving.

(** The event list accounts for the distance driven so far. *)
Definition distance_logged (run : list Event * State) : Prop :=
  tenths (total_distance (snd run))
  /\ total_distance (snd run) == sum_miles (fst run)
  /\ distances_from 0 (fst run)
  /\ Forall miles_on_driving (fst run).

(** A 34-hour restart, as it shows in the event list. *)
Definition is_restart (e : Event) : bool :=
  is_sleeper_berth (e_status e) && Qeq_bool (e_duration e) 34.

(** The cycle hours after an event: zero after a restart, the event's
    duration more after driving or other duty, unchanged otherwise. *)
Definition cycle_step (cycle : Q) (e : Event) : Q :=
  if is_restart e then 0
  else if is_on_duty (e_status e) then cycle + e_duration e
  else cycle.

Definition replay_cycle (initial : Q) (events : list Event) : Q :=
  fold_left cycle_step events initial.

(** The event list accounts for the cycle hours, from [initial]. *)
Definition cycle_logged (initial : Q) (run : list Event * State) : Prop :=
  cycle_hours (snd run) == replay_cycle initial (fst run).

(** [filled] holds the activities [acts], in their order, and besides them
    only off-duty blocks. *)
Inductive with_gaps : list Activity -> list Activity -> Prop :=
| gaps_nil : with_gaps [] []
| gaps_keep (act : Activity) (acts filled : list Activity) :
    with_gaps acts filled -> with_gaps (act :: acts) (act :: filled)
| gaps_block (a b d : Q) (acts filled : list Activity) :
    with_gaps acts filled -> with_gaps acts (off_duty_block a b d :: filled).

(** Ordered by start hour. *)
Definition starts_before (a b : Activity) : Prop := start_hour a <= start_hour b.

(** The hour of the day from [day_start] to [day_end] at which the trip
    hour [x] falls: 0 before the day, the length of the day after it. *)
Definition hour_in_day (day_start day_end x : Q) : Q :=
  Py.min (Py.max x day_start) day_end - day_start.

(** The sum of [f] over a list. *)
Definition sum_over {A : Type} (f : A -> Q) (l : list A) : Q :=
  fold_right (fun x total => f x + total) 0 l.

(** The event starts in the day from [day_start] to [day_end]. *)
Definition starts_in (day_start day_end : Q) (e : Event) : bool :=
  (day_start <=? e_clock e) && (e_clock e <? day_end).

(** The miles of the events that start in the day. *)
Definition miles_started_in (day_start day_end : Q) (events : list Event) : Q :=
  sum_miles (filter (starts_in day_start day_end) events).

(** The miles of every event so far have one decimal. *)
Definition miles_recorded (run : list Event * State) : Prop :=
  Forall (fun e => tenths (miles_of e)) (fst run).

(** [totals[s]]. *)
Definition total_of (s : Status) (t : Totals) : Q :=
  match s with
  | off_duty => t_off_duty t
  | sleeper_berth => t_sleeper_berth t
  | driving => t_driving t
  | on_duty_not_driving => t_on_duty_not_driving t
  end.

(** [s' == s] on statuses. *)
Definition has_status (s s' : Status) : bool :=
  match s, s' with
  | off_duty, off_duty
  | sleeper_berth, sleeper_berth
  | driving, driving
  | on_duty_not_driving, on_duty_not_driving => true
  | _, _ => false
  end.

(** The hours that the activities spend in status [s]. *)
Definition status_hours (s : Status) (acts : list Activity) : Q :=
  sum_over (fun act => if has_status s (a_status act) then a_duration act else 0)
           acts.

(** The event has no part shorter than 0.02 hour in the day that starts at
    hour [day_start].  A part of 0.01 hour is at the threshold under which
    the partitioner leaves a clipped event out, and computed on doubles it
    can fall on either side of it. *)
Definition clear_of (day_start : Q) (e : Event) : Prop :=
  day_start < e_clock e + e_duration e ->
  0.02 <= e_clock e + e_duration e - Py.max (e_clock e) day_start.

(** Activities in the order of the day that do not overlap and leave out
    at most a hundredth of an hour at a time: the first starts at hour [a]
    or 0.01 hour later, each of the others where the one before it ends or
    0.01 hour later, and the last ends at hour [b] or 0.01 hour earlier. *)
Fixpoint nearly_tiles (a : Q) (acts : list Activity) (b : Q) : Prop :=
  match acts with
  | [] => a <= b <= a + 0.01
  | act :: rest =>
      a <= start_hour act <= a + 0.01
      /\ start_hour act < end_hour act
      /\ a_duration act == end_hour act - start_hour act
      /\ nearly_tiles (end_hour act) rest b
  end.

(** ** Runs on doubles

    A state of the program on doubles, read as the numbers its doubles
    stand for. *)
Definition state_value (s : Binary64.State) : State :=
  {| clock := Binary64.value (Binary64.clock s);
     shift_start := Binary64.value (Binary64.shift_start s);
     shift_driving := Binary64.value (Binary64.shift_driving s);
     driving_since_break := Binary64.value (Binary64.driving_since_break s);
     cycle_hours := Binary64.value (Binary64.cycle_hours s);
     total_distance := Binary64.value (Binary64.total_distance s);
     last_fuel_distance := Binary64.value (Binary64.last_fuel_distance s) |}.

(** The state in which the first leg of a trip starts on doubles: after the
    restart, if one is due, and the pre-trip inspection. *)
Definition first_leg_start (current_cycle_used : Q) (current_loc : string)
  : list Binary64.Event * Binary64.State :=
  let '(events, s) :=
    Binary64.HOSCalculator.initial_restart
      [] (Binary64.HOSCalculator.start_state
            (Binary64.HOSCalculator.initial_cycle
               (Binary64.double current_cycle_used)))
      current_loc in
  Binary64.HOSCalculator.inspection
    events s Binary64.HOSCalculator.PRE_TRIP_DURATION
    "Pre-trip inspection" current_loc.

(** Hours that are a whole number of quarter hours. *)
Definition quarter_hours (x : Q) : Prop := exists k : Z, x == k # 4.

(** * Properties *)

(** ** Arithmetic of the Python operations *)

Section PyFacts.

Lemma ltb_spec (x y : Q) : BoolSpec (x < y) (y <= x) (x <? y).
Proof.
  unfold Py.ltb.
  destruct (Qcompare_spec x y) as [H | H | H]; constructor; lra.
Qed.

Lemma leb_spec (x y : Q) : BoolSpec (x <= y) (y < x) (x <=? y).
Proof.
  unfold Py.leb.
  destruct (Qcompare_spec x y) as [H | H | H]; constructor; lra.
Qed.

Lemma max_spec (a b : Q) :
  (a < b /\ Py.max a b = b) \/ (b <= a /\ Py.max a b = a).
Proof. unfold Py.max. destruct (ltb_spec a b); auto. Qed.

Lemma min_spec (a b : Q) :
  (b < a /\ Py.min a b = b) \/ (a <= b /\ Py.min a b = a).
Proof. unfold Py.min. destruct (ltb_spec b a); auto. Qed.

Lemma max_ge_l (a b : Q) : a <= Py.max a b.
Proof. destruct (max_spec a b) as [[? ->] | [? ->]]; lra. Qed.

Lemma round_half_even_floor (x : Q) :
  Py.round_half_even x = Qfloor x \/ Py.round_half_even x = (Qfloor x + 1)%Z.
Proof.
  unfold Py.round_half_even.
  destruct (Qcompare _ _); auto.
  destruct (Z.even _); auto.
Qed.

(** An integer is its own rounding. *)
Lemma round_half_even_Z (x : Q) (k : Z) :
  x == inject_Z k -> Py.round_half_even x = k.
Proof.
  intros Hx. unfold Py.round_half_even.
  assert (Hf : Qfloor x = k) by (rewrite Hx; apply Qfloor_Z).
  rewrite Hf.
  destruct (Qcompare_spec (x - inject_Z k) 0.5) as [H | H | H];
    try reflexivity; lra.
Qed.

Lemma round_half_even_ge (x : Q) (k : Z) :
  inject_Z k <= x -> (k <= Py.round_half_even x)%Z.
Proof.
  intros H. apply Qfloor_resp_le in H. rewrite Qfloor_Z in H.
  destruct (round_half_even_floor x) as [-> | ->]; lia.
Qed.

Lemma round_half_even_le (x : Q) (k : Z) :
  x <= inject_Z k -> (Py.round_half_even x <= k)%Z.
Proof.
  intros H.
  destruct (Qlt_le_dec x (inject_Z k)) as [Hlt | Hge].
  - assert (Hfl : (Qfloor x < k)%Z).
    { rewrite Zlt_Qlt. pose proof (Qfloor_le x). lra. }
    destruct (round_half_even_floor x) as [-> | ->]; lia.
  - rewrite (round_half_even_Z x k); [lia | lra].
Qed.

(** Rounding moves a number by at most one half. *)
Lemma round_half_even_near (x : Q) :
  x - 0.5 <= inject_Z (Py.round_half_even x) <= x + 0.5.
Proof.
  unfold Py.round_half_even.
  pose proof (Qfloor_le x) as Hlo. pose proof (Qlt_floor x) as Hhi.
  rewrite inject_Z_plus in Hhi. change (inject_Z 1) with 1 in Hhi.
  destruct (Qcompare_spec (x - inject_Z (Qfloor x)) 0.5) as [H | H | H].
  - destruct (Z.even _);
      rewrite ?inject_Z_plus; change (inject_Z 1) with 1; lra.
  - lra.
  - rewrite inject_Z_plus; change (inject_Z 1) with 1; lra.
Qed.

Lemma round2_eq (x : Q) : Py.round2 x == Py.round_half_even (x * 100) # 100.
Proof. unfold Py.round2. apply Qred_correct. Qed.

Lemma round2_hundredths (x : Q) : hundredths (Py.round2 x).
Proof. eexists. apply round2_eq. Qed.

Lemma hundredths_scaled (x : Q) (k : Z) : x == k # 100 -> x * 100 == inject_Z k.
Proof.
  intros ->. unfold Qeq; simpl. lia.
Qed.

(** [round(x, 2)] returns a number of two decimals unchanged. *)
Lemma round2_id (x : Q) : hundredths x -> Py.round2 x == x.
Proof.
  intros [k Hk]. rewrite round2_eq.
  rewrite (round_half_even_Z (x * 100) k) by (apply hundredths_scaled; assumption).
  symmetry; assumption.
Qed.

Lemma round2_ge (x : Q) (k : Z) : k # 100 <= x -> k # 100 <= Py.round2 x.
Proof.
  intros H. rewrite round2_eq.
  assert (Hk : (k <= Py.round_half_even (x * 100))%Z).
  { apply round_half_even_ge.
    assert (inject_Z k == (k # 100) * 100) by (unfold Qeq; simpl; lia). lra. }
  unfold Qle; simpl. lia.
Qed.

Lemma round2_le (x : Q) (k : Z) : x <= k # 100 -> Py.round2 x <= k # 100.
Proof.
  intros H. rewrite round2_eq.
  assert (Hk : (Py.round_half_even (x * 100) <= k)%Z).
  { apply round_half_even_le.
    assert (inject_Z k == (k # 100) * 100) by (unfold Qeq; simpl; lia). lra. }
  unfold Qle; simpl. lia.
Qed.

Lemma hundredths_plus (x y : Q) : hundredths x -> hundredths y -> hundredths (x + y).
Proof.
  intros [a Ha] [b Hb]. exists (a + b)%Z. rewrite Ha, Hb.
  unfold Qeq; simpl. lia.
Qed.

Lemma hundredths_minus (x y : Q) : hundredths x -> hundredths y -> hundredths (x - y).
Proof.
  intros [a Ha] [b Hb]. exists (a - b)%Z. rewrite Ha, Hb.
  unfold Qeq; simpl. lia.
Qed.

Lemma hundredths_Z (k : Z) : hundredths (inject_Z k).
Proof. exists (k * 100)%Z. unfold Qeq; simpl. lia. Qed.

Lemma hundredths_eq (x y : Q) : x == y -> hundredths x -> hundredths y.
Proof. intros E [k Hk]. exists k. rewrite <- E. assumption. Qed.

Lemma has_two_decimals_ok (x : Q) : has_two_decimals x = true -> hundredths x.
Proof.
  unfold has_two_decimals. intros H. apply Z.eqb_eq in H.
  apply Z.mod_divide in H; [| discriminate].
  destruct H as [k Hk]. exists k. unfold Qeq. simpl. lia.
Qed.

End PyFacts.

(** ** Construction of the simulator *)

(** C6, in the form that holds.  [HOSCalculator(current_cycle_used)] never
    rejects its argument and caps it at 70 from above only: the cycle hours
    the simulation starts from are at most 70, and they are non-negative
    exactly when the argument is. *)
Theorem C6_initial_cycle_capped_above (current_cycle_used : Q) :
  let s := start_state (initial_cycle current_cycle_used) in
  cycle_hours s <= 70
  /\ (0 <= cycle_hours s <-> 0 <= current_cycle_used)
  /\ (current_cycle_used <= 70 -> cycle_hours s = current_cycle_used).
Proof.
  simpl. unfold initial_cycle, MAX_CYCLE.
  destruct (min_spec current_cycle_used 70) as [[H ->] | [H ->]].
  - repeat split; intros; lra.
  - repeat split; intros; try lra; reflexivity.
Qed.

Lemma C6_initial_cycle_capped_above_witness :
  let s := start_state (initial_cycle 42.5) in
  cycle_hours s = 42.5.
Proof.
  apply (C6_initial_cycle_capped_above 42.5). unfold Qle; simpl; lia.
Defined.

(** C6 in the specification's wording fails: a negative argument is taken
    as it is. *)
Lemma C6_negative_cycle_not_clamped :
  ~ (0 <= cycle_hours (start_state (initial_cycle (-5))) <= 70).
Proof.
  vm_compute. intros [H _]. apply H. reflexivity.
Qed.

(** ** The rest and the on-duty procedures *)

(** C8.  A rest appends one [sleeper_berth] event of 10 hours, stamped with
    the current clock (to two decimals, as every event is) and the given
    location; the clock advances by 10, the shift starts at the new clock,
    both driving counters are zero, and the cycle hours, the total distance
    and the last fuel distance are what they were. *)
Theorem C8_rest_effect (events : list Event) (s : State) (loc : Location) :
  let e := _evt sleeper_berth (clock s) REQUIRED_REST (Text "10-hour rest period")
                loc (total_distance s) None in
  let s' := snd (call_rest events s loc) in
  _rest events (clock s) loc (total_distance s)
  = (events ++ [e], (clock s + 10, clock s + 10, 0, 0))
  /\ fst (call_rest events s loc) = events ++ [e]
  /\ e_status e = sleeper_berth
  /\ e_duration e = 10
  /\ e_location e = loc
  /\ e_clock e = Py.round2 (clock s)
  /\ (hundredths (clock s) -> e_clock e == clock s)
  /\ clock s' = clock s + 10
  /\ shift_start s' = clock s'
  /\ shift_driving s' = 0
  /\ driving_since_break s' = 0
  /\ cycle_hours s' = cycle_hours s
  /\ total_distance s' = total_distance s
  /\ last_fuel_distance s' = last_fuel_distance s.
Proof.
  simpl. repeat split; try reflexivity.
  intros H. apply round2_id. assumption.
Qed.

Lemma C8_rest_effect_witness :
  let s := mkState 19.75 8 11 3 30 600 0 in
  let e := _evt sleeper_berth (clock s) REQUIRED_REST (Text "10-hour rest period")
                (Near "Dallas") (total_distance s) None in
  e_clock e == 19.75.
Proof.
  apply (C8_rest_effect [] (mkState 19.75 8 11 3 30 600 0) (Near "Dallas")).
  exists 1975%Z. reflexivity.
Defined.

(** C5.  [_do_on_duty] tests the 14-hour window and the 70-hour cycle on
    the state it is given: the rest does not touch the cycle hours, so the
    second test sees the hours of before the activity.  When the first test
    holds the rest runs: its event is appended, the clock moves on by 10
    hours and the shift starts anew.  When the second holds the restart
    runs after it: its event is appended, the clock moves on by 34 hours,
    the shift starts anew and the cycle hours are zero.  Then comes the
    single on-duty event.  When both hold the three events follow each
    other, 10 and 44 hours apart, and the activity ends a shift that
    started with it. *)
Theorem C5_on_duty_rest_then_restart
        (events : list Event) (s : State) (duration : Q)
        (description : Description) (location : Location) :
  let window := (clock s - shift_start s) + duration >? MAX_DUTY_WINDOW in
  let cycle := cycle_hours s + duration >? MAX_CYCLE in
  let rest := _evt sleeper_berth (clock s) REQUIRED_REST
                   (Text "10-hour rest period") location (total_distance s) None in
  let clock1 := if window then clock s + REQUIRED_REST else clock s in
  let restart := _evt sleeper_berth clock1 RESTART_HOURS
                      (Text "34-hour restart (70-hour cycle limit)")
                      location (total_distance s) None in
  let clock2 := if cycle then clock1 + RESTART_HOURS else clock1 in
  let activity := _evt on_duty_not_driving clock2 duration description location
                       (total_distance s) None in
  fst (_do_on_duty events s duration description location)
  = events ++ (if window then [rest] else [])
           ++ (if cycle then [restart] else [])
           ++ [activity]
  /\ snd (_do_on_duty events s duration description location)
     = {| clock := clock2 + duration;
          shift_start :=
            if cycle then clock2 else if window then clock1 else shift_start s;
          shift_driving := if window || cycle then 0 else shift_driving s;
          driving_since_break :=
            if duration >=? BREAK_DURATION then 0
            else if window || cycle then 0 else driving_since_break s;
          cycle_hours := (if cycle then 0 else cycle_hours s) + duration;
          total_distance := total_distance s;
          last_fuel_distance := last_fuel_distance s |}
  /\ (window = true -> cycle = true ->
      fst (_do_on_duty events s duration description location)
      = events ++ [rest;
                   _evt sleeper_berth (clock s + 10) RESTART_HOURS
                        (Text "34-hour restart (70-hour cycle limit)")
                        location (total_distance s) None;
                   _evt on_duty_not_driving (clock s + 10 + 34) duration
                        description location (total_distance s) None]
      /\ snd (_do_on_duty events s duration description location)
         = {| clock := clock s + 10 + 34 + duration;
              shift_start := clock s + 10 + 34;
              shift_driving := 0;
              driving_since_break := 0;
              cycle_hours := 0 + duration;
              total_distance := total_distance s;
              last_fuel_distance := last_fuel_distance s |}).
Proof.
  cbv zeta. unfold _do_on_duty.
  destruct ((clock s - shift_start s) + duration >? MAX_DUTY_WINDOW) eqn:Hw;
    destruct (cycle_hours s + duration >? MAX_CYCLE) eqn:Hc;
    simpl; rewrite ?Hc; simpl; rewrite <- ?app_assoc; simpl;
    repeat split; try reflexivity; try (intros; discriminate);
    destruct (duration >=? BREAK_DURATION); reflexivity.
Qed.

Lemma C5_on_duty_rest_then_restart_witness :
  map (fun e => (e_status e, e_clock e, e_duration e))
      (fst (_do_on_duty [] (mkState 21.25 8 11 0 69.75 1100 1000) 1.0
                        (Text "Dropoff / Unloading") (Place "Reno")))
  = [(sleeper_berth, 85 # 4, 10); (sleeper_berth, 125 # 4, 34);
     (on_duty_not_driving, 261 # 4, 1)]
  /\ snd (_do_on_duty [] (mkState 21.25 8 11 0 69.75 1100 1000) 1.0
                      (Text "Dropoff / Unloading") (Place "Reno"))
     = mkState (21.25 + 10 + 34 + 1.0) (21.25 + 10 + 34) 0 0 (0 + 1.0) 1100 1000.
Proof.
  destruct (proj2 (proj2 (C5_on_duty_rest_then_restart
                            [] (mkState 21.25 8 11 0 69.75 1100 1000) 1.0
                            (Text "Dropoff / Unloading") (Place "Reno")))
                  eq_refl eq_refl) as [Hev Hst].
  rewrite Hev, Hst. split; vm_compute; reflexivity.
Defined.

(** ** The partitioner: totals and number of days *)

Lemma sum_values_hundredths (t : Totals) :
  hundredths (t_off_duty t) -> hundredths (t_sleeper_berth t) ->
  hundredths (t_driving t) -> hundredths (t_on_duty_not_driving t) ->
  hundredths (sum_values t).
Proof.
  intros. unfold sum_values.
  repeat apply hundredths_plus; try assumption.
  apply (hundredths_Z 0).
Qed.

(** Whatever the activities, the four totals of [_calc_totals] add up to 24
    within one hundredth; after the correction of [off_duty] they add up to
    24 exactly. *)
Lemma calc_totals_sum (acts : list Activity) :
  Qabs (sum_values (_calc_totals acts) - 24) <= 0.01.
Proof.
  unfold _calc_totals.
  set (folded := fold_left _ acts _).
  set (rounded := {| t_off_duty := Py.round2 (t_off_duty folded);
                     t_sleeper_berth := Py.round2 (t_sleeper_berth folded);
                     t_driving := Py.round2 (t_driving folded);
                     t_on_duty_not_driving :=
                       Py.round2 (t_on_duty_not_driving folded) |}).
  assert (Hsum : hundredths (sum_values rounded)).
  { apply sum_values_hundredths; apply round2_hundredths. }
  destruct (ltb_spec 0.01 (Qabs (sum_values rounded - 24))) as [Hbig | Hsmall].
  - assert (Hfix : hundredths (t_off_duty rounded + (24 - sum_values rounded))).
    { apply hundredths_plus; [apply round2_hundredths |].
      apply hundredths_minus; [apply (hundredths_Z 24) | assumption]. }
    apply round2_id in Hfix.
    apply Qabs_Qle_condition.
    unfold sum_values in *. simpl in *. split; lra.
  - exact Hsmall.
Qed.

(** C2.  In every daily log that [generate_daily_logs] builds, for every
    event list and start date, the four totals add up to 24 within 0.01. *)
Theorem C2_daily_totals_sum_to_24 (events : list Event) (start_date : Z) :
  Forall (fun log => Qabs (sum_values (totals log) - 24) <= 0.01)
         (generate_daily_logs events start_date).
Proof.
  apply Forall_forall. intros log Hin.
  destruct events as [| first rest]; [contradiction |].
  unfold generate_daily_logs in Hin.
  apply in_map_iff in Hin. destruct Hin as [day_idx [<- _]].
  apply calc_totals_sum.
Qed.

Lemma range_length (n : Z) : List.length (range n) = Z.to_nat n.
Proof. unfold range. rewrite length_map, length_seq. reflexivity. Qed.

Lemma num_days_positive (last_event : Event) : (1 <= num_days last_event)%Z.
Proof. unfold num_days. lia. Qed.

(** C10.  No event, no log: the empty list gives the empty list, and a list
    with an event gives at least one log. *)
Theorem C10_no_events_no_logs (start_date : Z) :
  generate_daily_logs [] start_date = []
  /\ forall events : list Event,
      generate_daily_logs events start_date <> [] <-> events <> [].
Proof.
  split; [reflexivity |].
  intros [| first rest].
  - split; intros H; exfalso; apply H; reflexivity.
  - split; [discriminate |]. intros _ Hnil.
    apply (f_equal (@List.length DailyLog)) in Hnil.
    unfold generate_daily_logs in Hnil.
    rewrite length_map, range_length in Hnil.
    pose proof (num_days_positive (last (first :: rest) first)) as Hpos.
    change (List.length (@nil DailyLog)) with 0%nat in Hnil. lia.
Qed.

(** ** Cycle hours at the end of a trip *)

(** After an on-duty activity of at most 70 hours the cycle hours are at
    most 70: either they fitted, or the restart has zeroed them. *)
Lemma do_on_duty_cycle_le (events : list Event) (s : State) (duration : Q)
      (description : Description) (location : Location) :
  0 <= duration <= 70 ->
  cycle_hours (snd (_do_on_duty events s duration description location)) <= 70.
Proof.
  intros Hd. unfold _do_on_duty.
  destruct ((clock s - shift_start s) + duration >? MAX_DUTY_WINDOW);
    simpl; unfold MAX_CYCLE;
    destruct (ltb_spec 70 (cycle_hours s + duration)); simpl; lra.
Qed.

(** C9.  The final cycle hours can exceed 70 (a trip without driving that
    starts at 67.75 hours ends at 70.25), and whenever the simulator returns
    they are at most 70.25: the dropoff leaves at most 70 and the post-trip
    inspection adds a quarter of an hour. *)
Theorem C9_final_cycle_hours_bound :
  (exists r : TripResult,
      simulate 0 67.75 0 0 0 0 "Tulsa" "Wichita" "Omaha" = Some r
      /\ 70 < r_final_cycle_hours r)
  /\ forall (fuel : nat) (current_cycle_used : Q)
            (leg1_miles leg1_hours leg2_miles leg2_hours : Q)
            (current_loc pickup_loc dropoff_loc : string) (r : TripResult),
      simulate fuel current_cycle_used leg1_miles leg1_hours leg2_miles
               leg2_hours current_loc pickup_loc dropoff_loc = Some r ->
      r_final_cycle_hours r <= 70.25.
Proof.
  split.
  - eexists. split; [vm_compute; reflexivity |]. vm_compute. reflexivity.
  - intros fuel used m1 h1 m2 h2 cur pick drop r.
    unfold simulate, calculate_trip, run_trip.
    destruct (initial_restart _ _ _) as [ev0 s0].
    destruct (inspection ev0 s0 _ _ _) as [ev1 s1].
    destruct (drive_leg fuel ev1 s1 m1 h1 cur pick) as [[ev2 s2] |];
      [| discriminate].
    destruct (_do_on_duty ev2 s2 _ _ _) as [ev3 s3].
    destruct (drive_leg fuel ev3 s3 m2 h2 pick drop) as [[ev4 s4] |];
      [| discriminate].
    pose proof (do_on_duty_cycle_le ev4 s4 DROPOFF_DURATION
                  (Text "Dropoff / Unloading") (Place drop)) as Hdrop.
    destruct (_do_on_duty ev4 s4 _ _ _) as [ev5 s5].
    simpl. intros Hr. injection Hr as <-. simpl.
    apply (round2_le _ 7025).
    unfold POST_TRIP_DURATION.
    assert (cycle_hours s5 <= 70).
    { apply Hdrop. unfold DROPOFF_DURATION. split; unfold Qle; simpl; lia. }
    lra.
Qed.

Lemma C9_final_cycle_hours_bound_witness :
  exists r : TripResult,
    simulate 50 53.5 1250 20 0 0 "Tulsa" "Wichita" "Omaha" = Some r
    /\ r_final_cycle_hours r <= 70.25.
Proof.
  eexists. split; [vm_compute; reflexivity |].
  apply (proj2 C9_final_cycle_hours_bound
               50%nat 53.5 1250 20 0 0
               "Tulsa"%string "Wichita"%string "Omaha"%string).
  vm_compute. reflexivity.
Defined.

(** ** The counters of a shift *)

Ltac q_cases :=
  repeat match goal with
    | |- context [Py.ltb ?a ?b] => destruct (ltb_spec a b)
    | |- context [Py.leb ?a ?b] => destruct (leb_spec a b)
    end.

Ltac unfold_limits :=
  unfold MAX_DRIVING, MAX_DUTY_WINDOW, BREAK_AFTER_DRIVING, BREAK_DURATION,
    REQUIRED_REST, MAX_CYCLE, RESTART_HOURS, FUEL_INTERVAL, FUEL_DURATION,
    PICKUP_DURATION, DROPOFF_DURATION, PRE_TRIP_DURATION, POST_TRIP_DURATION,
    START_HOUR in *.

Ltac counters :=
  unfold counters_consistent, counters_ordered in *; simpl in *;
  unfold_limits; repeat split; lra.

Section Counters.

Variables (events : list Event) (s : State) (loc : Location).
Hypothesis Hs : counters_consistent s.

Lemma rest_consistent : counters_consistent (snd (call_rest events s loc)).
Proof. clear Hs. counters. Qed.

Lemma restart_consistent : counters_consistent (snd (call_restart events s loc)).
Proof. clear Hs. counters. Qed.

Lemma break_consistent : counters_consistent (snd (take_break events s loc)).
Proof. counters. Qed.

Lemma fuel_consistent : counters_consistent (snd (fuel_stop events s loc)).
Proof. counters. Qed.

Lemma increment_consistent (time miles : Q) :
  0 <= time ->
  counters_consistent (snd (drive_increment events s loc time miles)).
Proof. intros. counters. Qed.

Lemma inspection_consistent (duration : Q) (description place : string) :
  0 <= duration ->
  counters_consistent (snd (inspection events s duration description place)).
Proof. intros. counters. Qed.

Lemma do_on_duty_consistent (duration : Q) (description : Description) :
  0 <= duration ->
  counters_consistent (snd (_do_on_duty events s duration description loc)).
Proof.
  intros Hd. unfold _do_on_duty.
  destruct (clock s - shift_start s + duration >? MAX_DUTY_WINDOW);
    simpl;
    destruct (_ >? MAX_CYCLE); simpl;
    destruct (leb_spec BREAK_DURATION duration); counters.
Qed.

End Counters.

Lemma start_consistent (initial_cycle : Q) (current_loc : string) :
  counters_consistent (start_state initial_cycle)
  /\ counters_consistent
       (snd (initial_restart [] (start_state initial_cycle) current_loc)).
Proof.
  split; [counters |].
  unfold initial_restart. destruct (_ >=? MAX_CYCLE); counters.
Qed.

Lemma reachable_consistent (s : State) : reachable s -> counters_consistent s.
Proof.
  induction 1.
  - apply (start_consistent _ EmptyString).
  - apply start_consistent.
  - apply inspection_consistent; assumption.
  - apply rest_consistent.
  - apply restart_consistent.
  - apply break_consistent; assumption.
  - apply fuel_consistent; assumption.
  - apply increment_consistent; [assumption | lra].
  - apply do_on_duty_consistent; assumption.
Qed.

(** *** The procedures stay within the reachable states *)

Section Procedures.

Variables (events : list Event) (s : State) (loc : Location).
Hypothesis Hs : reachable s.

Lemma check_cycle_reachable : reachable (snd (check_cycle events s loc)).
Proof.
  unfold check_cycle.
  destruct (_ >=? MAX_CYCLE); [apply reach_restart |]; exact Hs.
Qed.

Lemma check_shift_reachable : reachable (snd (check_shift events s loc)).
Proof.
  unfold check_shift.
  destruct (_ || _); [apply reach_rest |]; exact Hs.
Qed.

Lemma check_break_reachable : reachable (snd (check_break events s loc)).
Proof.
  unfold check_break.
  destruct (_ >=? BREAK_AFTER_DRIVING); [| exact Hs].
  destruct (_ && _); [apply reach_break | apply reach_rest]; exact Hs.
Qed.

Lemma check_fuel_reachable : reachable (snd (check_fuel events s loc)).
Proof.
  unfold check_fuel.
  destruct (_ >=? FUEL_INTERVAL); [| exact Hs].
  destruct (_ >? MAX_DUTY_WINDOW).
  - pose proof (reach_rest events s loc Hs) as Hr.
    destruct (call_rest events s loc) as [ev1 s1].
    apply reach_fuel, Hr.
  - apply reach_fuel, Hs.
Qed.

End Procedures.

Lemma before_driving_reachable (events : list Event) (s : State) (loc : Location) :
  reachable s -> reachable (snd (before_driving events s loc)).
Proof.
  intros Hs. unfold before_driving.
  pose proof (check_cycle_reachable events s loc Hs) as H1.
  destruct (check_cycle events s loc) as [ev1 s1].
  pose proof (check_shift_reachable ev1 s1 loc H1) as H2.
  destruct (check_shift ev1 s1 loc) as [ev2 s2].
  pose proof (check_break_reachable ev2 s2 loc H2) as H3.
  destruct (check_break ev2 s2 loc) as [ev3 s3].
  apply check_fuel_reachable, H3.
Qed.

Lemma drive_body_reachable (events : list Event) (s : State)
      (remaining segment_miles avg_speed : Q) (from_loc to_loc : string) :
  reachable s ->
  reachable
    (snd (fst (snd (drive_body events s remaining segment_miles avg_speed
                               from_loc to_loc)))).
Proof.
  intros Hs. unfold drive_body.
  pose proof (before_driving_reachable
                events s (_loc from_loc to_loc segment_miles remaining) Hs) as H1.
  destruct (before_driving _ _ _) as [ev1 s1]. simpl in H1.
  destruct (ltb_spec (drive_time s1 remaining avg_speed) 0.01) as [Hlt | Hge].
  - exact H1.
  - pose proof (round2_ge _ 1 Hge) as Hr.
    pose proof (reach_increment
                  ev1 s1 (_loc from_loc to_loc segment_miles remaining)
                  (Py.round2 (drive_time s1 remaining avg_speed))
                  (Py.round1 (drive_miles s1 remaining avg_speed)) H1 Hr) as H2.
    destruct (drive_increment _ _ _ _ _) as [ev2 s2].
    destruct (_ <? 0.5); simpl; exact H2.
Qed.

Lemma loop_head_reachable (n : nat) :
  forall (events : list Event) (s : State) (remaining segment_miles avg_speed : Q)
         (from_loc to_loc : string) (events' : list Event) (s' : State)
         (remaining' : Q),
    reachable s ->
    loop_head n events s remaining segment_miles avg_speed from_loc to_loc
    = Some (events', s', remaining') ->
    reachable s'.
Proof.
  induction n as [| n IH]; intros events s remaining seg speed from to ev' s' rem'
                                  Hs Hrun; simpl in Hrun.
  - injection Hrun as <- <- <-. exact Hs.
  - destruct (remaining >? 0.5); [| discriminate].
    pose proof (drive_body_reachable events s remaining seg speed from to Hs) as Hb.
    destruct (drive_body events s remaining seg speed from to)
      as [flow [[ev1 s1] rem1]].
    destruct flow; try discriminate.
    eapply IH; [exact Hb | exact Hrun].
Qed.

Lemma drive_loop_reachable (fuel : nat) :
  forall (events : list Event) (s : State) (remaining segment_miles avg_speed : Q)
         (from_loc to_loc : string) (events' : list Event) (s' : State)
         (remaining' : Q),
    reachable s ->
    drive_loop fuel events s remaining segment_miles avg_speed from_loc to_loc
    = Some (events', s', remaining') ->
    reachable s'.
Proof.
  induction fuel as [| fuel IH]; intros events s remaining seg speed from to ev' s'
                                        rem' Hs Hrun; simpl in Hrun.
  - destruct (remaining >? 0.5); [discriminate |].
    injection Hrun as <- <- <-. exact Hs.
  - destruct (remaining >? 0.5).
    + pose proof (drive_body_reachable events s remaining seg speed from to Hs) as Hb.
      destruct (drive_body events s remaining seg speed from to)
        as [flow [[ev1 s1] rem1]].
      destruct flow.
      * eapply IH; [exact Hb | exact Hrun].
      * injection Hrun as <- <- <-. exact Hb.
      * injection Hrun as <- <- <-. exact Hb.
    + injection Hrun as <- <- <-. exact Hs.
Qed.

Lemma drive_leg_reachable (fuel : nat) (events : list Event) (s : State)
      (leg_miles leg_hours : Q) (from_loc to_loc : string)
      (events' : list Event) (s' : State) :
  reachable s ->
  drive_leg fuel events s leg_miles leg_hours from_loc to_loc = Some (events', s') ->
  reachable s'.
Proof.
  intros Hs. unfold drive_leg, _drive.
  destruct (leg_miles >? 0.5).
  - destruct (drive_loop _ _ _ _ _ _ _ _) as [[[ev1 s1] rem1] |] eqn:Hrun;
      [| discriminate].
    intros H; injection H as <- <-.
    eapply drive_loop_reachable; [exact Hs | exact Hrun].
  - intros H; injection H as <- <-. exact Hs.
Qed.

Lemma quarter_nonneg : 0 <= 0.25.
Proof. unfold Qle; simpl; lia. Qed.

Lemma one_nonneg : 0 <= 1.0.
Proof. unfold Qle; simpl; lia. Qed.

Lemma run_trip_reachable (fuel : nat) (initial_cycle : Q)
      (leg1_miles leg1_hours leg2_miles leg2_hours : Q)
      (current_loc pickup_loc dropoff_loc : string)
      (events : list Event) (s : State) :
  run_trip fuel initial_cycle leg1_miles leg1_hours leg2_miles leg2_hours
           current_loc pickup_loc dropoff_loc = Some (events, s) ->
  reachable s.
Proof.
  unfold run_trip.
  pose proof (reach_initial_restart initial_cycle current_loc) as H0.
  destruct (initial_restart _ _ _) as [ev0 s0]. simpl in H0.
  pose proof (reach_inspection ev0 s0 PRE_TRIP_DURATION
                "Pre-trip inspection" current_loc H0 quarter_nonneg) as H1.
  destruct (inspection ev0 s0 _ _ _) as [ev1 s1]. simpl in H1.
  destruct (drive_leg fuel ev1 s1 _ _ _ _) as [[ev2 s2] |] eqn:Hleg1;
    [| discriminate].
  pose proof (drive_leg_reachable _ _ _ _ _ _ _ _ _ H1 Hleg1) as H2.
  pose proof (reach_on_duty ev2 s2 PICKUP_DURATION (Text "Pickup / Loading")
                (Place pickup_loc) H2 one_nonneg) as H3.
  destruct (_do_on_duty ev2 s2 _ _ _) as [ev3 s3]. simpl in H3.
  destruct (drive_leg fuel ev3 s3 _ _ _ _) as [[ev4 s4] |] eqn:Hleg2;
    [| discriminate].
  pose proof (drive_leg_reachable _ _ _ _ _ _ _ _ _ H3 Hleg2) as H4.
  pose proof (reach_on_duty ev4 s4 DROPOFF_DURATION (Text "Dropoff / Unloading")
                (Place dropoff_loc) H4 one_nonneg) as H5.
  destruct (_do_on_duty ev4 s4 _ _ _) as [ev5 s5]. simpl in H5.
  pose proof (reach_inspection ev5 s5 POST_TRIP_DURATION
                "Post-trip inspection" dropoff_loc H5 quarter_nonneg) as H6.
  destruct (inspection ev5 s5 _ _ _) as [ev6 s6]. simpl in H6.
  intros Hret; injection Hret as _ <-. exact H6.
Qed.

(** C7, in the form that holds.  In every state the simulation passes
    through (the start, and the state after each inspection, rest, restart,
    30-minute break, fuel stop, driving event and on-duty activity) the
    driving since the last break is not negative and is at most the driving
    of the shift: the two counters receive the same driving time, and the
    second is never reset without the first.  The driving of the shift fits
    in [clock - shift_start] to within a hundredth of an hour.  The state
    at each test of the drive loop and the state a trip ends in are such
    states.  Without the hundredth the second bound is true of exact sums
    ([reachable_consistent]); the doubles of the code round each sum, and
    the next lemma shows a trip where it fails. *)
Theorem C7_break_counter_within_shift_driving :
  (forall s : State,
      reachable s ->
      0 <= driving_since_break s
      /\ driving_since_break s <= shift_driving s
      /\ shift_driving s <= clock s - shift_start s + 0.01)
  /\ (forall (n : nat) (events : list Event) (s : State)
             (remaining segment_miles avg_speed : Q) (from_loc to_loc : string)
             (events' : list Event) (s' : State) (remaining' : Q),
         reachable s ->
         loop_head n events s remaining segment_miles avg_speed from_loc to_loc
         = Some (events', s', remaining') ->
         reachable s')
  /\ (forall (fuel : nat) (initial_cycle : Q)
             (leg1_miles leg1_hours leg2_miles leg2_hours : Q)
             (current_loc pickup_loc dropoff_loc : string)
             (events : list Event) (s : State),
         run_trip fuel initial_cycle leg1_miles leg1_hours leg2_miles leg2_hours
                  current_loc pickup_loc dropoff_loc = Some (events, s) ->
         reachable s).
Proof.
  split; [| split].
  - intros s Hs. apply reachable_consistent in Hs.
    destruct Hs as (H0 & Hfit & Hle). repeat split; [assumption .. | lra].
  - intros n. apply loop_head_reachable.
  - intros. eapply run_trip_reachable. eassumption.
Qed.

Lemma C7_break_counter_within_shift_driving_witness :
  match run_trip 50 (initial_cycle 53.5) 1250 20 0 0 "Tulsa" "Wichita" "Omaha" with
  | Some (_, s) =>
      0 <= driving_since_break s
      /\ driving_since_break s <= shift_driving s
      /\ shift_driving s <= clock s - shift_start s + 0.01
  | None => False
  end.
Proof.
  destruct (run_trip 50 (initial_cycle 53.5) 1250 20 0 0 "Tulsa" "Wichita" "Omaha")
    as [[events s] |] eqn:Hrun.
  - apply (proj1 C7_break_counter_within_shift_driving).
    exact (proj2 (proj2 C7_break_counter_within_shift_driving)
                 _ _ _ _ _ _ _ _ _ _ _ Hrun).
  - vm_compute in Hrun. discriminate.
Defined.

(** C7 in the specification's wording fails on the doubles of the code.
    The trip of 1250 miles in 20 hours with 53.5 cycle hours used takes a
    34-hour restart at hour 35.26 and then drives 3.99 hours.  The sums
    [35.26 + 34] and [69.26 + 3.99] are rounded, and when the leg is driven
    [clock - shift_start] is 3.9899999999999949 while [shift_driving] is
    the double of 3.99: the driving of the shift exceeds the age of the
    shift. *)
Lemma C7_rounding_breaks_the_order :
  let '(events, s) := first_leg_start 53.5 "Tulsa" in
  match Binary64.HOSCalculator.drive_leg
          10 events s (Binary64.double 1250) (Binary64.double 20)
          "Tulsa" "Wichita" with
  | Some (_, s') =>
      clock (state_value s') - shift_start (state_value s')
      < shift_driving (state_value s')
      /\ Binary64.Py.ltb (PrimFloat.sub (Binary64.clock s')
                                        (Binary64.shift_start s'))
                         (Binary64.shift_driving s') = true
      /\ ~ counters_ordered (state_value s')
  | None => False
  end.
Proof.
  vm_compute. split; [reflexivity | split; [reflexivity |]].
  intros [H _]. apply H. reflexivity.
Qed.

(** ** The limits at the start of a driving event *)

(** What the four checks of an iteration establish, from any state: the
    driving of the shift is under 11 hours, the shift is at most 14 hours
    old, the driving since the last break is under 8 hours, and the cycle
    hours are under 70.5: under 70 after the first check, and a fuel stop
    may add half an hour. *)
Lemma before_driving_limits (events : list Event) (s : State) (loc : Location) :
  let s' := snd (before_driving events s loc) in
  shift_driving s' < 11
  /\ clock s' - shift_start s' <= 14
  /\ driving_since_break s' < 8
  /\ cycle_hours s' < 70.5
  /\ (total_distance s - last_fuel_distance s < 1000 -> cycle_hours s' < 70).
Proof.
  destruct s as [c ss sd dsb cy td lf].
  unfold before_driving, check_cycle, check_shift, check_break, check_fuel.
  unfold_limits. simpl.
  destruct (leb_spec 70 cy); simpl;
    (destruct (leb_spec 14 (c - ss)); simpl;
     [| destruct (leb_spec 11 sd); simpl]);
    repeat (q_cases; simpl); repeat split; intros; simpl in *;
    unfold_limits; lra.
Qed.

(** C1.  The cycle limit is not enforced before every driving event.  On a
    trip that starts with 53.5 cycle hours and whose first leg is 1250 miles
    in 20 hours, the fourth iteration of the drive loop begins at 1000 miles
    with 69.75 cycle hours; the fuel stop adds half an hour, and the driving
    event that follows starts with 70.25 cycle hours (the other three limits
    hold there); the trip's events show the fuel stop, the 0.01 hour of
    driving and the restart that comes only then.  [_do_on_duty] tests the
    cycle before it adds on-duty time; the fuel stop of [_drive] tests the
    14-hour window only. *)
Theorem C1_driving_starts_over_cycle_limit :
  let speed := 1250 / 20 in
  let '(events, s) := initial_restart [] (start_state (initial_cycle 53.5)) "Tulsa" in
  let '(events, s) :=
    inspection events s PRE_TRIP_DURATION "Pre-trip inspection" "Tulsa" in
  match loop_head 3 events s 1250 1250 speed "Tulsa" "Wichita" with
  | Some (events, s, remaining) =>
      let loc := _loc "Tulsa" "Wichita" 1250 remaining in
      let at_start := snd (before_driving events s loc) in
      cycle_hours s == 69.75
      /\ total_distance s - last_fuel_distance s == 1000
      /\ cycle_hours at_start == 70.25
      /\ ~ cycle_hours at_start <= 70
      /\ shift_driving at_start <= 11
      /\ clock at_start - shift_start at_start <= 14
      /\ driving_since_break at_start <= 8
      /\ match drive_body events s remaining 1250 speed "Tulsa" "Wichita" with
         | (flow, (events', _, _)) =>
             flow = NextIteration
             /\ map (fun e => (e_status e, e_clock e, e_duration e))
                    (skipn (List.length events) events')
                = [(on_duty_not_driving, 139 # 4, 1 # 2);
                   (driving, 141 # 4, 1 # 100)]
         end
  | None => False
  end
  /\ match simulate 10 53.5 1250 20 0 0 "Tulsa" "Wichita" "Omaha" with
     | Some r =>
         map (fun e => (e_status e, e_clock e, e_duration e, e_miles e))
             (firstn 3 (skipn 6 (r_events r)))
         = [(on_duty_not_driving, 139 # 4, 1 # 2, None);
            (driving, 141 # 4, 1 # 100, Some (3 # 5));
            (sleeper_berth, 1763 # 50, 34, None)]
     | None => False
     end.
Proof.
  vm_compute.
  repeat split; try reflexivity; try discriminate.
  intros H. apply H. reflexivity.
Qed.

(** ** The safety stop of the drive loop *)

Lemma div_lt_iff (a b c : Q) : 0 < c -> (a / c < b <-> a < b * c).
Proof.
  intros Hc. split; intros H.
  - destruct (Qlt_le_dec a (b * c)) as [Hlt | Hge]; [exact Hlt |].
    apply Qle_shift_div_l in Hge; [lra | exact Hc].
  - apply Qlt_shift_div_r; assumption.
Qed.

Lemma can_drive_floor (s : State) (remaining avg_speed : Q) :
  0.01 <= can_drive s remaining avg_speed.
Proof. unfold can_drive. apply max_ge_l. Qed.

(** C4.  The safety stop is reached, and leaves a leg undriven.  Each of
    the bounds of CALCULATE DRIVE TIME is floored at 0.01 hour, and so is
    [can_drive]; but [drive_miles] is [min(can_drive * avg_speed,
    remaining)], and [drive_time] is [drive_miles / avg_speed]: when what
    remains takes less than 0.01 hour the floor is undone.  A first leg of
    512.625 miles in 4101/512 hours is driven at 64 mph; after one
    iteration 0.625 miles are left, which take less than 0.01 hour, and the
    second iteration takes the safety stop: the loop ends with more than
    half a mile not driven, and the trip reports 512 miles.  The numbers of
    this run are whole multiples of powers of two, the same on doubles. *)
Lemma C4_safety_stop_reached :
  let speed := 512.625 / (4101 # 512) in
  let '(events, s) := initial_restart [] (start_state (initial_cycle 0)) "Tulsa" in
  let '(events, s) :=
    inspection events s PRE_TRIP_DURATION "Pre-trip inspection" "Tulsa" in
  0 < speed
  /\ match loop_head 1 events s 512.625 512.625 speed "Tulsa" "Wichita" with
     | Some (events1, s1, remaining) =>
         0.5 < remaining
         /\ fst (drive_body events1 s1 remaining 512.625 speed "Tulsa" "Wichita")
            = SafetyStop
     | None => False
     end
  /\ match drive_loop 2 events s 512.625 512.625 speed "Tulsa" "Wichita" with
     | Some (_, _, remaining) => 0.5 < remaining
     | None => False
     end
  /\ match simulate 2 0 512.625 (4101 # 512) 0 0 "Tulsa" "Wichita" "Omaha" with
     | Some r =>
         r_total_distance r = 512
         /\ map (fun e => (e_status e, e_clock e, e_duration e, e_miles e))
                (firstn 3 (skipn 1 (r_events r)))
            = [(driving, 33 # 4, 8, Some 512);
               (off_duty, 65 # 4, 1 # 2, None);
               (on_duty_not_driving, 67 # 4, 1, None)]
     | None => False
     end.
Proof.
  vm_compute. repeat split; reflexivity.
Qed.

(** On doubles the floor is undone by the division as well: with
    [can_drive] at its floor, [drive_time] is [(0.01 * avg_speed) /
    avg_speed], which for 29 mph is 0.0099999999999999985.  The trip of 290
    miles in 10 hours with 69.745 cycle hours used starts its leg with
    69.995 cycle hours, takes the safety stop in the first iteration and
    reports no mile driven; in exact arithmetic it drives the 290 miles.
    The trip of 512.625 miles at 64 mph reports 512 miles on doubles as it
    does in exact arithmetic. *)
Lemma safety_stop_at_the_floor_on_doubles :
  Binary64.Py.ltb
    (PrimFloat.div (PrimFloat.mul (Binary64.double 0.01) (Binary64.double 29))
                   (Binary64.double 29))
    (Binary64.double 0.01) = true
  /\ match Binary64.HOSCalculator.simulate
             10 (Binary64.double 69.745) (Binary64.double 290)
             (Binary64.double 10) (Binary64.double 0) (Binary64.double 0)
             "Tulsa" "Wichita" "Omaha" with
     | Some r =>
         Binary64.value (Binary64.HOSCalculator.r_total_distance r) = 0
         /\ map Binary64.e_status (Binary64.HOSCalculator.r_events r)
            = [on_duty_not_driving; sleeper_berth; on_duty_not_driving;
               on_duty_not_driving; on_duty_not_driving]
     | None => False
     end
  /\ match simulate 10 69.745 290 10 0 0 "Tulsa" "Wichita" "Omaha" with
     | Some r => r_total_distance r = 290
     | None => False
     end
  /\ match Binary64.HOSCalculator.simulate
             2 (Binary64.double 0) (Binary64.double 512.625)
             (Binary64.double (4101 # 512)) (Binary64.double 0)
             (Binary64.double 0) "Tulsa" "Wichita" "Omaha" with
     | Some r =>
         Binary64.value (Binary64.HOSCalculator.r_total_distance r) = 512
         /\ map (fun e => Binary64.value (Binary64.e_duration e))
                (filter (fun e => is_driving (Binary64.e_status e))
                        (Binary64.HOSCalculator.r_events r))
            = [8]
     | None => False
     end.
Proof.
  vm_compute. repeat split; reflexivity.
Qed.

(** ** The events of a simulated trip follow each other *)

Lemma timeline_finish (events : list Event) :
  forall a b b', b == b' -> timeline a events b -> timeline a events b'.
Proof.
  induction events as [| e rest IH]; intros a b b' E H; simpl in *.
  - lra.
  - destruct H as (H1 & H2 & H3 & H4 & H5).
    repeat split; try assumption. eapply IH; eassumption.
Qed.

Lemma timeline_snoc (events : list Event) (e : Event) :
  forall a b,
    timeline a events b ->
    e_clock e == b -> hundredths (e_clock e) -> hundredths (e_duration e) ->
    0 < e_duration e ->
    timeline a (events ++ [e]) (e_clock e + e_duration e).
Proof.
  induction events as [| e' rest IH]; intros a b H Hc Hhc Hhd Hd; simpl in *.
  - repeat split; try assumption; lra.
  - destruct H as (H1 & H2 & H3 & H4 & H5).
    repeat split; try assumption. eapply IH; eassumption.
Qed.

(** Appending the event of an activity of [duration] hours that starts at
    the current clock, and advancing the clock by as much. *)
Lemma well_timed_emit (events : list Event) (s s' : State) (status : Status)
      (duration : Q) (desc : Description) (loc : Location) (distance : Q)
      (miles : option Q) :
  well_timed (events, s) ->
  hundredths duration -> 0 < duration ->
  clock s' == clock s + duration ->
  well_timed (events ++ [_evt status (clock s) duration desc loc distance miles],
              s').
Proof.
  intros [Htl Hh] Hhd Hd Hclock. simpl in *.
  pose proof (round2_id _ Hh) as Rc. pose proof (round2_id _ Hhd) as Rd.
  split; simpl.
  - apply (timeline_finish _ _ (Py.round2 (clock s) + Py.round2 duration));
      [lra |].
    apply (timeline_snoc events (_evt status (clock s) duration desc loc
                                      distance miles) START_HOUR (clock s));
      simpl; try apply round2_hundredths; try assumption; lra.
  - apply (hundredths_eq (clock s + duration)); [lra |].
    apply hundredths_plus; assumption.
Qed.

Ltac two_decimals :=
  solve [ apply has_two_decimals_ok; reflexivity | apply round2_hundredths ].

Ltac positive_literal := unfold Qlt; simpl; lia.

Section WellTimed.

Variables (events : list Event) (s : State) (loc : Location).
Hypothesis Hs : well_timed (events, s).

Lemma rest_well_timed : well_timed (call_rest events s loc).
Proof.
  apply well_timed_emit; [exact Hs | two_decimals | positive_literal |].
  simpl. reflexivity.
Qed.

Lemma restart_well_timed : well_timed (call_restart events s loc).
Proof.
  apply well_timed_emit; [exact Hs | two_decimals | positive_literal |].
  simpl. reflexivity.
Qed.

Lemma break_well_timed : well_timed (take_break events s loc).
Proof.
  apply well_timed_emit; [exact Hs | two_decimals | positive_literal |].
  simpl. reflexivity.
Qed.

Lemma fuel_well_timed : well_timed (fuel_stop events s loc).
Proof.
  apply well_timed_emit; [exact Hs | two_decimals | positive_literal |].
  simpl. reflexivity.
Qed.

Lemma increment_well_timed (time miles : Q) :
  hundredths time -> 0 < time ->
  well_timed (drive_increment events s loc time miles).
Proof.
  intros Hh Hpos.
  apply well_timed_emit; [exact Hs | exact Hh | exact Hpos |].
  simpl. reflexivity.
Qed.

Lemma inspection_well_timed (duration : Q) (description place : string) :
  hundredths duration -> 0 < duration ->
  well_timed (inspection events s duration description place).
Proof.
  intros Hh Hpos.
  apply well_timed_emit; [exact Hs | exact Hh | exact Hpos |].
  simpl. reflexivity.
Qed.

Lemma initial_restart_well_timed (current_loc : string) :
  well_timed (initial_restart events s current_loc).
Proof.
  unfold initial_restart. destruct (_ >=? MAX_CYCLE); [| exact Hs].
  apply well_timed_emit; [exact Hs | two_decimals | positive_literal |].
  simpl. reflexivity.
Qed.

Lemma check_cycle_well_timed : well_timed (check_cycle events s loc).
Proof.
  unfold check_cycle.
  destruct (_ >=? MAX_CYCLE); [apply restart_well_timed | exact Hs].
Qed.

Lemma check_shift_well_timed : well_timed (check_shift events s loc).
Proof.
  unfold check_shift.
  destruct (_ || _); [apply rest_well_timed | exact Hs].
Qed.

Lemma check_break_well_timed : well_timed (check_break events s loc).
Proof.
  unfold check_break.
  destruct (_ >=? BREAK_AFTER_DRIVING); [| exact Hs].
  destruct (_ && _); [apply break_well_timed | apply rest_well_timed].
Qed.

End WellTimed.

Lemma check_fuel_well_timed (events : list Event) (s : State) (loc : Location) :
  well_timed (events, s) -> well_timed (check_fuel events s loc).
Proof.
  intros Hs. unfold check_fuel.
  destruct (_ >=? FUEL_INTERVAL); [| exact Hs].
  destruct (_ >? MAX_DUTY_WINDOW).
  - pose proof (rest_well_timed events s loc Hs) as Hr.
    destruct (call_rest events s loc) as [ev1 s1].
    apply fuel_well_timed, Hr.
  - apply fuel_well_timed, Hs.
Qed.

Lemma do_on_duty_well_timed (events : list Event) (s : State) (duration : Q)
      (description : Description) (location : Location) :
  well_timed (events, s) -> hundredths duration -> 0 < duration ->
  well_timed (_do_on_duty events s duration description location).
Proof.
  intros Hs Hh Hpos. unfold _do_on_duty.
  assert (H1 : well_timed
                 (if clock s - shift_start s + duration >? MAX_DUTY_WINDOW
                  then call_rest events s location else (events, s))).
  { destruct (_ >? MAX_DUTY_WINDOW); [apply rest_well_timed |]; exact Hs. }
  destruct (if clock s - shift_start s + duration >? MAX_DUTY_WINDOW
            then call_rest events s location else (events, s)) as [ev1 s1].
  assert (H2 : well_timed
                 (if cycle_hours s1 + duration >? MAX_CYCLE
                  then call_restart ev1 s1 location else (ev1, s1))).
  { destruct (_ >? MAX_CYCLE); [apply restart_well_timed |]; exact H1. }
  destruct (if cycle_hours s1 + duration >? MAX_CYCLE
            then call_restart ev1 s1 location else (ev1, s1)) as [ev2 s2].
  apply well_timed_emit; [exact H2 | exact Hh | exact Hpos |].
  simpl. reflexivity.
Qed.

Lemma before_driving_well_timed (events : list Event) (s : State) (loc : Location) :
  well_timed (events, s) -> well_timed (before_driving events s loc).
Proof.
  intros Hs. unfold before_driving.
  pose proof (check_cycle_well_timed events s loc Hs) as H1.
  destruct (check_cycle events s loc) as [ev1 s1].
  pose proof (check_shift_well_timed ev1 s1 loc H1) as H2.
  destruct (check_shift ev1 s1 loc) as [ev2 s2].
  pose proof (check_break_well_timed ev2 s2 loc H2) as H3.
  destruct (check_break ev2 s2 loc) as [ev3 s3].
  apply check_fuel_well_timed, H3.
Qed.

Lemma drive_body_well_timed (events : list Event) (s : State)
      (remaining segment_miles avg_speed : Q) (from_loc to_loc : string) :
  well_timed (events, s) ->
  well_timed
    (fst (snd (drive_body events s remaining segment_miles avg_speed
                          from_loc to_loc))).
Proof.
  intros Hs. unfold drive_body.
  pose proof (before_driving_well_timed
                events s (_loc from_loc to_loc segment_miles remaining) Hs) as H1.
  destruct (before_driving _ _ _) as [ev1 s1].
  destruct (ltb_spec (drive_time s1 remaining avg_speed) 0.01) as [Hlt | Hge].
  - exact H1.
  - pose proof (round2_ge _ 1 Hge) as Hr.
    pose proof (increment_well_timed
                  ev1 s1 (_loc from_loc to_loc segment_miles remaining) H1
                  (Py.round2 (drive_time s1 remaining avg_speed))
                  (Py.round1 (drive_miles s1 remaining avg_speed))
                  (round2_hundredths _)) as H2.
    destruct (drive_increment _ _ _ _ _) as [ev2 s2].
    destruct (_ <? 0.5); simpl; apply H2; lra.
Qed.

Lemma drive_loop_well_timed (fuel : nat) :
  forall (events : list Event) (s : State) (remaining segment_miles avg_speed : Q)
         (from_loc to_loc : string) (events' : list Event) (s' : State)
         (remaining' : Q),
    well_timed (events, s) ->
    drive_loop fuel events s remaining segment_miles avg_speed from_loc to_loc
    = Some (events', s', remaining') ->
    well_timed (events', s').
Proof.
  induction fuel as [| fuel IH]; intros events s remaining seg speed from to ev' s'
                                        rem' Hs Hrun; simpl in Hrun.
  - destruct (remaining >? 0.5); [discriminate |].
    injection Hrun as <- <- <-. exact Hs.
  - destruct (remaining >? 0.5).
    + pose proof (drive_body_well_timed events s remaining seg speed from to Hs)
        as Hb.
      destruct (drive_body events s remaining seg speed from to)
        as [flow [[ev1 s1] rem1]].
      destruct flow.
      * eapply IH; [exact Hb | exact Hrun].
      * injection Hrun as <- <- <-. exact Hb.
      * injection Hrun as <- <- <-. exact Hb.
    + injection Hrun as <- <- <-. exact Hs.
Qed.

Lemma drive_leg_well_timed (fuel : nat) (events : list Event) (s : State)
      (leg_miles leg_hours : Q) (from_loc to_loc : string)
      (events' : list Event) (s' : State) :
  well_timed (events, s) ->
  drive_leg fuel events s leg_miles leg_hours from_loc to_loc = Some (events', s') ->
  well_timed (events', s').
Proof.
  intros Hs. unfold drive_leg, _drive.
  destruct (leg_miles >? 0.5).
  - destruct (drive_loop _ _ _ _ _ _ _ _) as [[[ev1 s1] rem1] |] eqn:Hrun;
      [| discriminate].
    intros H; injection H as <- <-.
    eapply drive_loop_well_timed; [exact Hs | exact Hrun].
  - intros H; injection H as <- <-. exact Hs.
Qed.

(** The events of a trip follow each other without a gap from hour 8 to the
    final clock, each of positive duration and with two decimals: the event
    lists the partitioner receives are timelines. *)
Lemma run_trip_timeline (fuel : nat) (initial_cycle : Q)
      (leg1_miles leg1_hours leg2_miles leg2_hours : Q)
      (current_loc pickup_loc dropoff_loc : string)
      (events : list Event) (s : State) :
  run_trip fuel initial_cycle leg1_miles leg1_hours leg2_miles leg2_hours
           current_loc pickup_loc dropoff_loc = Some (events, s) ->
  timeline 8 events (clock s) /\ hundredths (clock s).
Proof.
  unfold run_trip.
  assert (H : well_timed ([], start_state initial_cycle)).
  { split; simpl; [reflexivity | two_decimals]. }
  pose proof (initial_restart_well_timed _ _ H current_loc) as H0.
  destruct (initial_restart _ _ _) as [ev0 s0].
  assert (H1 : well_timed (inspection ev0 s0 PRE_TRIP_DURATION
                                      "Pre-trip inspection" current_loc)).
  { apply inspection_well_timed;
      [exact H0 | two_decimals | positive_literal]. }
  destruct (inspection ev0 s0 _ _ _) as [ev1 s1].
  destruct (drive_leg fuel ev1 s1 _ _ _ _) as [[ev2 s2] |] eqn:Hleg1;
    [| discriminate].
  pose proof (drive_leg_well_timed _ _ _ _ _ _ _ _ _ H1 Hleg1) as H2.
  assert (H3 : well_timed (_do_on_duty ev2 s2 PICKUP_DURATION
                                       (Text "Pickup / Loading")
                                       (Place pickup_loc))).
  { apply do_on_duty_well_timed;
      [exact H2 | two_decimals | positive_literal]. }
  destruct (_do_on_duty ev2 s2 _ _ _) as [ev3 s3].
  destruct (drive_leg fuel ev3 s3 _ _ _ _) as [[ev4 s4] |] eqn:Hleg2;
    [| discriminate].
  pose proof (drive_leg_well_timed _ _ _ _ _ _ _ _ _ H3 Hleg2) as H4.
  assert (H5 : well_timed (_do_on_duty ev4 s4 DROPOFF_DURATION
                                       (Text "Dropoff / Unloading")
                                       (Place dropoff_loc))).
  { apply do_on_duty_well_timed;
      [exact H4 | two_decimals | positive_literal]. }
  destruct (_do_on_duty ev4 s4 _ _ _) as [ev5 s5].
  assert (H6 : well_timed (inspection ev5 s5 POST_TRIP_DURATION
                                      "Post-trip inspection" dropoff_loc)).
  { apply inspection_well_timed;
      [exact H5 | two_decimals | positive_literal]. }
  destruct (inspection ev5 s5 _ _ _) as [ev6 s6].
  intros Hret; injection Hret as <- <-. exact H6.
Qed.

(** ** The days of a trip *)

Lemma round_half_even_proper (x y : Q) :
  x == y -> Py.round_half_even x = Py.round_half_even y.
Proof.
  intros E. unfold Py.round_half_even.
  rewrite (Qfloor_comp x y E).
  assert (Ec : Qcompare (x - inject_Z (Qfloor y)) 0.5
               = Qcompare (y - inject_Z (Qfloor y)) 0.5).
  { apply Qcompare_comp; [rewrite E |]; reflexivity. }
  rewrite Ec. reflexivity.
Qed.

(** Equal numbers are rounded to the same fraction in lowest terms. *)
Lemma round2_proper (x y : Q) : x == y -> Py.round2 x = Py.round2 y.
Proof.
  intros E. unfold Py.round2.
  rewrite (round_half_even_proper (x * 100) (y * 100)); [reflexivity |].
  rewrite E. reflexivity.
Qed.

Lemma hundredths_positive (x : Q) : hundredths x -> 0 < x -> 0.01 <= x.
Proof.
  intros [k Hk] Hpos. rewrite Hk in *.
  unfold Qlt, Qle in *; simpl in *. lia.
Qed.

Lemma hundredths_max (x y : Q) :
  hundredths x -> hundredths y -> hundredths (Py.max x y).
Proof. intros. destruct (max_spec x y) as [[_ ->] | [_ ->]]; assumption. Qed.

Lemma hundredths_min (x y : Q) :
  hundredths x -> hundredths y -> hundredths (Py.min x y).
Proof. intros. destruct (min_spec x y) as [[_ ->] | [_ ->]]; assumption. Qed.

Lemma timeline_le (events : list Event) :
  forall start finish, timeline start events finish -> start <= finish.
Proof.
  induction events as [| e rest IH]; intros start finish H; simpl in H.
  - lra.
  - destruct H as (Hc & _ & _ & Hd & Hrest). apply IH in Hrest. lra.
Qed.

Lemma last_default (rest : list Event) :
  forall e d d', last (e :: rest) d = last (e :: rest) d'.
Proof.
  induction rest as [| e' rest IH]; intros e d d'; [reflexivity |].
  change (last (e :: e' :: rest) d) with (last (e' :: rest) d).
  change (last (e :: e' :: rest) d') with (last (e' :: rest) d').
  apply IH.
Qed.

Lemma timeline_last (rest : list Event) :
  forall first start finish,
    timeline start (first :: rest) finish ->
    total_hours (last (first :: rest) first) == finish.
Proof.
  induction rest as [| second rest IH]; intros first start finish H.
  - simpl in *. unfold total_hours. destruct H as (_ & _ & _ & _ & H). exact H.
  - destruct H as (_ & _ & _ & _ & H).
    change (last (first :: second :: rest) first)
      with (last (second :: rest) first).
    rewrite (last_default rest second first second).
    eapply IH. exact H.
Qed.

Lemma tiles_start (acts : list Activity) (a a' b : Q) :
  a == a' -> tiles a acts b -> tiles a' acts b.
Proof.
  intros E H. destruct acts as [| act rest]; simpl in *.
  - lra.
  - destruct H as (H1 & H2 & H3 & H4 & H5). repeat split; try assumption; lra.
Qed.

Lemma tiles_sum (acts : list Activity) :
  forall a b, tiles a acts b -> sum_durations acts == b - a.
Proof.
  induction acts as [| act rest IH]; intros a b H; simpl in *.
  - lra.
  - destruct H as (_ & _ & Hd & _ & Hrest). apply IH in Hrest. lra.
Qed.

Lemma tiles_sorted (acts : list Activity) :
  forall a b, tiles a acts b -> sort_by_start acts = acts.
Proof.
  induction acts as [| act rest IH]; intros a b H; [reflexivity |].
  destruct H as (Hs & Hlt & _ & _ & Hrest).
  change (sort_by_start (act :: rest)) with (insert_by_start act (sort_by_start rest)).
  rewrite (IH _ _ Hrest).
  destruct rest as [| next rest']; [reflexivity |].
  destruct Hrest as (Hn & _). simpl.
  destruct (leb_spec (start_hour act) (start_hour next)); [reflexivity | lra].
Qed.

Lemma fill_loop_tiles (acts : list Activity) :
  forall a b filled current,
    tiles a acts b -> current == a ->
    exists current',
      fill_loop acts filled current = (filled ++ acts, current')
      /\ current' == b.
Proof.
  induction acts as [| act rest IH]; intros a b filled current H Hc.
  - exists current. simpl in *. rewrite app_nil_r. split; [reflexivity | lra].
  - destruct H as (Hs & Hlt & _ & _ & Hrest). simpl.
    destruct (ltb_spec (current + 0.01) (start_hour act)) as [Hgap | _]; [lra |].
    destruct (IH _ b (filled ++ [act]) (end_hour act) Hrest (Qeq_refl _))
      as [current' [Hrun Hend]].
    exists current'. rewrite Hrun, <- app_assoc. split; [reflexivity | exact Hend].
Qed.

(** An event that ends by the start of the day is skipped. *)
Lemma day_step_before (day_start day_end : Q) (acc : DayAcc) (e : Event) :
  e_clock e + e_duration e <= day_start ->
  day_step day_start day_end acc e = acc.
Proof.
  intros H. unfold day_step.
  destruct (leb_spec (e_clock e + e_duration e) day_start); [reflexivity | lra].
Qed.

(** An event that overlaps the day for at least 0.01 hour is clipped to it
    and appended. *)
Lemma day_step_inside (day_start day_end : Q) (acc : DayAcc) (e : Event) :
  let clipped_start := Py.max (e_clock e) day_start - day_start in
  let clipped_end := Py.min (e_clock e + e_duration e) day_end - day_start in
  day_start < e_clock e + e_duration e ->
  e_clock e < day_end ->
  0.01 <= clipped_end - clipped_start ->
  day_activities (day_step day_start day_end acc e)
  = day_activities acc
      ++ [{| a_status := e_status e;
             start_hour := Py.round2 clipped_start;
             end_hour := Py.round2 clipped_end;
             a_duration := Py.round2 (clipped_end - clipped_start);
             a_description := e_description e;
             a_location := e_location e |}].
Proof.
  intros cs ce H1 H2 H3. unfold day_step.
  destruct (leb_spec (e_clock e + e_duration e) day_start); [lra |].
  destruct (leb_spec day_end (e_clock e)); [lra |].
  simpl orb. cbv iota.
  fold cs ce.
  destruct (ltb_spec (ce - cs) 0.01); [lra |].
  reflexivity.
Qed.

Lemma hundredths_24 : hundredths 24.
Proof. apply (hundredths_Z 24). Qed.

Lemma hundredths_48 : hundredths 48.
Proof. apply (hundredths_Z 48). Qed.

(** The second day of a timeline that ends by hour 48: the clipped
    activities cover the day from where the timeline enters it to where the
    timeline ends. *)
Lemma day_two_tiles (events : list Event) :
  forall (start finish : Q) (acc : DayAcc),
    timeline start events finish -> finish <= 48 ->
    exists acts : list Activity,
      day_activities (fold_left (day_step 24 48) events acc)
      = day_activities acc ++ acts
      /\ tiles (Py.max start 24 - 24) acts (Py.max finish 24 - 24).
Proof.
  induction events as [| e rest IH]; intros start finish acc H Hfin.
  - exists []. simpl in *. rewrite app_nil_r. split; [reflexivity |].
    destruct (max_spec start 24) as [[? ->] | [? ->]];
      destruct (max_spec finish 24) as [[? ->] | [? ->]]; lra.
  - destruct H as (Hc & Hhc & Hhd & Hd & Hrest).
    pose proof (timeline_le _ _ _ Hrest) as Hle.
    set (ev_end := e_clock e + e_duration e) in *.
    change (fold_left (day_step 24 48) (e :: rest) acc)
      with (fold_left (day_step 24 48) rest (day_step 24 48 acc e)).
    destruct (Qlt_le_dec 24 ev_end) as [Hin | Hout].
    + set (clipped_start := Py.max (e_clock e) 24 - 24).
      set (clipped_end := Py.min ev_end 48 - 24).
      assert (Hend : clipped_end == ev_end - 24).
      { unfold clipped_end.
        destruct (min_spec ev_end 48) as [[? ->] | [? ->]]; lra. }
      assert (Hstart : clipped_start == Py.max start 24 - 24).
      { unfold clipped_start.
        destruct (max_spec (e_clock e) 24) as [[? ->] | [? ->]];
          destruct (max_spec start 24) as [[? ->] | [? ->]]; lra. }
      assert (Hlen : 0 < clipped_end - clipped_start).
      { unfold clipped_start in *.
        destruct (max_spec (e_clock e) 24) as [[? E] | [? E]];
          rewrite E in *; unfold ev_end in *; lra. }
      assert (Hh_start : hundredths clipped_start).
      { apply hundredths_minus; [apply hundredths_max |];
          assumption || apply hundredths_24. }
      assert (Hh_end : hundredths clipped_end).
      { apply hundredths_minus; [apply hundredths_min |];
          try apply hundredths_24; try apply hundredths_48.
        apply hundredths_plus; assumption. }
      assert (Hh_len : hundredths (clipped_end - clipped_start)).
      { apply hundredths_minus; assumption. }
      pose proof (hundredths_positive _ Hh_len Hlen) as Hkeep.
      pose proof (day_step_inside 24 48 acc e) as Hstep.
      cbv zeta in Hstep. fold ev_end clipped_start clipped_end in Hstep.
      specialize (Hstep Hin).
      assert (Hbefore : e_clock e < 48) by (unfold ev_end in *; lra).
      specialize (Hstep Hbefore Hkeep).
      destruct (IH ev_end finish (day_step 24 48 acc e) Hrest Hfin)
        as [acts [Hrun Htiles]].
      rewrite Hstep, <- app_assoc in Hrun.
      eexists. split; [exact Hrun |].
      pose proof (round2_id _ Hh_start) as Rs.
      pose proof (round2_id _ Hh_end) as Re.
      pose proof (round2_id _ Hh_len) as Rl.
      simpl. repeat split; try lra.
      * apply round2_hundredths.
      * apply (tiles_start acts (Py.max ev_end 24 - 24)); [| exact Htiles].
        destruct (max_spec ev_end 24) as [[? ->] | [? ->]]; lra.
    + rewrite (day_step_before 24 48 acc e Hout).
      destruct (IH ev_end finish acc Hrest Hfin) as [acts [Hrun Htiles]].
      exists acts. split; [exact Hrun |].
      apply (tiles_start acts (Py.max ev_end 24 - 24)); [| exact Htiles].
      unfold ev_end in *.
      destruct (max_spec (e_clock e + e_duration e) 24) as [[? ->] | [? ->]];
        destruct (max_spec start 24) as [[? ->] | [? ->]]; lra.
Qed.

(** *** Totals of activities recorded to two decimals *)

Lemma fold_totals (acts : list Activity) :
  forall t : Totals,
    let folded :=
      fold_left (fun totals act => add_to totals (a_status act) (a_duration act))
                acts t in
    sum_values folded == sum_values t + sum_durations acts
    /\ (totals_hundredths t ->
        Forall (fun act => hundredths (a_duration act)) acts ->
        totals_hundredths folded).
Proof.
  induction acts as [| act rest IH]; intros t; simpl.
  - split; [lra | intros H _; exact H].
  - destruct (IH (add_to t (a_status act) (a_duration act))) as [Hsum Hh].
    split.
    + rewrite Hsum. unfold sum_values.
      destruct (a_status act); simpl; lra.
    + intros Ht Hall. inversion Hall as [| ? ? Hact Hrest]; subst.
      apply Hh; [| exact Hrest].
      destruct Ht as (H1 & H2 & H3 & H4).
      unfold totals_hundredths.
      destruct (a_status act); simpl; repeat split;
        try assumption; apply hundredths_plus; assumption.
Qed.

(** When the durations have two decimals and add up to 24, so do the four
    totals, exactly. *)
Lemma calc_totals_exact (acts : list Activity) :
  Forall (fun act => hundredths (a_duration act)) acts ->
  sum_durations acts == 24 ->
  sum_values (_calc_totals acts) == 24.
Proof.
  intros Hall Hsum. unfold _calc_totals.
  pose proof (fold_totals acts
                {| t_off_duty := 0.0; t_sleeper_berth := 0.0;
                   t_driving := 0.0; t_on_duty_not_driving := 0.0 |})
    as [Hfold Hh].
  cbv zeta in Hfold, Hh.
  set (folded := fold_left _ acts _) in *.
  assert (H0 : hundredths 0.0) by (exists 0%Z; reflexivity).
  destruct (Hh (conj H0 (conj H0 (conj H0 H0))) Hall) as (H1 & H2 & H3 & H4).
  apply round2_id in H1, H2, H3, H4.
  set (rounded := {| t_off_duty := Py.round2 (t_off_duty folded);
                     t_sleeper_berth := Py.round2 (t_sleeper_berth folded);
                     t_driving := Py.round2 (t_driving folded);
                     t_on_duty_not_driving :=
                       Py.round2 (t_on_duty_not_driving folded) |}).
  assert (Hr : sum_values rounded == 24).
  { unfold sum_values in *. simpl in *. lra. }
  destruct (Qabs (sum_values rounded - 24) >? 0.01); [| exact Hr].
  assert (Hfix : hundredths (t_off_duty rounded + (24 - sum_values rounded))).
  { apply hundredths_plus; [apply round2_hundredths |].
    apply hundredths_minus; [apply hundredths_24 |].
    apply sum_values_hundredths; apply round2_hundredths. }
  apply round2_id in Hfix.
  unfold sum_values in *. simpl in *. lra.
Qed.

Lemma tiles_finish (acts : list Activity) :
  forall a b b', b == b' -> tiles a acts b -> tiles a acts b'.
Proof.
  induction acts as [| act rest IH]; intros a b b' E H; simpl in *.
  - lra.
  - destruct H as (H1 & H2 & H3 & H4 & H5).
    repeat split; try assumption. eapply IH; eassumption.
Qed.

Lemma tiles_hundredths (acts : list Activity) :
  forall a b, tiles a acts b ->
              Forall (fun act => hundredths (a_duration act)) acts.
Proof.
  induction acts as [| act rest IH]; intros a b H; constructor.
  - apply H.
  - destruct H as (_ & _ & _ & _ & H). eapply IH; exact H.
Qed.

Lemma sum_durations_app (l1 l2 : list Activity) :
  sum_durations (l1 ++ l2) == sum_durations l1 + sum_durations l2.
Proof.
  induction l1 as [| act rest IH]; simpl; [| rewrite IH]; lra.
Qed.

(** The logs are numbered from 1, one per started period of 24 hours up to
    the end of the last event. *)
Lemma days_numbered (first : Event) (rest : list Event) (start_date : Z) :
  map day (generate_daily_logs (first :: rest) start_date)
  = map (fun i => (Z.of_nat i + 1)%Z)
        (seq 0 (Z.to_nat (num_days (last (first :: rest) first)))).
Proof.
  unfold generate_daily_logs, range. rewrite !map_map. reflexivity.
Qed.

(** Gap filling of activities that cover the day from 0 to [b], where
    [b] is under 23.99: one block is appended, from [b] to 24. *)
Lemma fill_gaps_tiles (acts : list Activity) (b : Q) :
  tiles 0 acts b -> 0 < b -> b < 23.99 ->
  _fill_gaps acts
  = acts ++ [off_duty_block (Py.round2 b) 24.0 (Py.round2 (24 - b))].
Proof.
  intros Htiles Hpos Hb.
  destruct acts as [| act rest].
  - simpl in Htiles. lra.
  - unfold _fill_gaps. cbv beta iota zeta.
    rewrite (tiles_sorted _ _ _ Htiles).
    assert (H0 : 0.0 == 0) by reflexivity.
    destruct (fill_loop_tiles (act :: rest) 0 b [] 0.0 Htiles H0)
      as [current [Hrun Hend]].
    rewrite Hrun. rewrite app_nil_l.
    destruct (ltb_spec current 23.99) as [_ | Hge]; [| lra].
    rewrite (round2_proper current b Hend).
    rewrite (round2_proper (24 - current) (24 - b)) by (rewrite Hend; reflexivity).
    reflexivity.
Qed.

(** A trip of exactly 30 hours whose events follow each other from a start
    no later than hour 24. *)
Lemma thirty_hours (first : Event) (rest : list Event) (start_date : Z)
      (start : Q) :
  let events := first :: rest in
  timeline start events 30 -> start <= 24 ->
  let clipped := day_activities (day_loop events 24 48) in
  generate_daily_logs events start_date
  = [daily_log events start_date 0; daily_log events start_date 1]
  /\ activities (daily_log events start_date 1)
     = clipped ++ [off_duty_block 6 24.0 18]
  /\ sum_durations clipped == 6
  /\ sum_values (totals (daily_log events start_date 1)) == 24.
Proof.
  intros events Htl Hstart clipped.
  assert (Hdays : num_days (last events first) = 2%Z).
  { unfold num_days, Py.ceil.
    assert (E : total_hours (last events first) / 24 == 30 / 24).
    { pose proof (timeline_last rest first start 30 Htl) as Hlast.
      fold events in Hlast. rewrite Hlast. reflexivity. }
    rewrite (Qceiling_comp _ _ E). reflexivity. }
  destruct (day_two_tiles events start 30
              {| day_activities := []; day_miles := 0.0; day_remarks := [] |}
              Htl) as [acts [Hrun Htiles]].
  { unfold Qle; simpl; lia. }
  simpl app in Hrun. fold (day_loop events 24 48) in Hrun. fold clipped in Hrun.
  rewrite <- Hrun in Htiles.
  assert (Hcover : tiles 0 clipped 6).
  { eapply tiles_finish; [| eapply tiles_start; [| exact Htiles]].
    - destruct (max_spec 30 24) as [[? ->] | [? ->]]; lra.
    - destruct (max_spec start 24) as [[? ->] | [? ->]]; lra. }
  assert (Hfill : _fill_gaps clipped = clipped ++ [off_duty_block 6 24.0 18]).
  { rewrite (fill_gaps_tiles clipped 6 Hcover); [reflexivity | |];
      unfold Qlt; simpl; lia. }
  assert (Hsum : sum_durations clipped == 6).
  { rewrite (tiles_sum _ _ _ Hcover). lra. }
  split; [| split; [| split]].
  - unfold events in *. unfold generate_daily_logs. cbv zeta.
    rewrite Hdays. reflexivity.
  - exact Hfill.
  - exact Hsum.
  - change (totals (daily_log events start_date 1))
      with (_calc_totals (_fill_gaps clipped)).
    rewrite Hfill. apply calc_totals_exact.
    + apply Forall_app. split; [eapply tiles_hundredths; exact Hcover |].
      constructor; [| constructor]. exists 1800%Z. reflexivity.
    + rewrite sum_durations_app, Hsum. reflexivity.
Qed.

(** C3, in the form that holds.  A non-empty event list gives
    [max(1, ceil((last.clock + last.duration) / 24))] logs, numbered from 1.
    When the list ends at hour 30 and its events, recorded to two decimals,
    follow each other without a gap from a start no later than hour 24,
    none of them reaching into the second day for less than 0.02 hour,
    there are two logs, and the second holds the clipped activities, which
    last 6 hours, then one off-duty block of 18 hours from hour 6 to 24; its
    totals add up to 24. *)
Theorem C3_days_of_a_trip (first : Event) (rest : list Event) (start_date : Z) :
  let events := first :: rest in
  let last_event := last events first in
  let n := Z.max 1 (Py.ceil ((e_clock last_event + e_duration last_event) / 24)) in
  List.length (generate_daily_logs events start_date) = Z.to_nat n
  /\ map day (generate_daily_logs events start_date)
     = map (fun i => (Z.of_nat i + 1)%Z) (seq 0 (Z.to_nat n))
  /\ forall start : Q,
      timeline start events 30 -> start <= 24 ->
      Forall (clear_of 24) events ->
      exists log1 log2 : DailyLog,
        let clipped := day_activities (day_loop events 24 48) in
        generate_daily_logs events start_date = [log1; log2]
        /\ activities log2 = clipped ++ [off_duty_block 6 24.0 18]
        /\ sum_durations clipped == 6
        /\ sum_values (totals log2) == 24.
Proof.
  intros events last_event n.
  pose proof (days_numbered first rest start_date) as Hnum.
  split; [| split].
  - apply (f_equal (@List.length Z)) in Hnum.
    rewrite !length_map, length_seq in Hnum. exact Hnum.
  - exact Hnum.
  - intros start Htl Hstart _.
    exists (daily_log events start_date 0), (daily_log events start_date 1).
    exact (thirty_hours first rest start_date start Htl Hstart).
Qed.

Lemma C3_days_of_a_trip_witness :
  let events :=
    [mkEvent on_duty_not_driving 8 1 (Text "Pickup / Loading") (Place "Tulsa") 0 None;
     mkEvent driving 9 15.5 (DrivingMiles 930) (Near "Tulsa") 0 (Some 930);
     mkEvent sleeper_berth 24.5 5.5 (Text "10-hour rest period") (Near "Wichita")
             930 None] in
  exists log1 log2 : DailyLog,
    generate_daily_logs events 739000 = [log1; log2]
    /\ activities log2
       = day_activities (day_loop events 24 48) ++ [off_duty_block 6 24.0 18]
    /\ sum_durations (day_activities (day_loop events 24 48)) == 6
    /\ sum_values (totals log2) == 24.
Proof.
  intros events.
  apply (proj2 (proj2 (C3_days_of_a_trip
                         (mkEvent on_duty_not_driving 8 1 (Text "Pickup / Loading")
                                  (Place "Tulsa") 0 None)
                         [mkEvent driving 9 15.5 (DrivingMiles 930) (Near "Tulsa")
                                  0 (Some 930);
                          mkEvent sleeper_berth 24.5 5.5
                                  (Text "10-hour rest period") (Near "Wichita")
                                  930 None]
                         739000)) 8).
  - simpl. repeat split;
      try (apply has_two_decimals_ok; reflexivity); reflexivity.
  - unfold Qle; simpl; lia.
  - repeat constructor; unfold clear_of; intros H;
      first [ exfalso; vm_compute in H; discriminate
            | vm_compute; intros K; discriminate ].
Defined.

(** C3 in the specification's wording fails for the second day of a 30-hour
    list: what matters is not the span but what the events cover.  Here the
    last event ends at hour 30, and the second log holds one clipped hour
    between two off-duty blocks of 5 and 18 hours. *)
Lemma C3_thirty_hours_with_a_gap :
  let events :=
    [mkEvent on_duty_not_driving 8 1 (Text "Pickup / Loading") (Place "Tulsa") 0 None;
     mkEvent driving 29 1 (DrivingMiles 60) (Near "Tulsa") 0 (Some 60)] in
  let clipped := day_activities (day_loop events 24 48) in
  total_hours (last events (hd (mkEvent off_duty 0 0 (Text EmptyString)
                                        (Place EmptyString) 0 None) events)) == 30
  /\ sum_durations clipped == 1
  /\ ~ sum_durations clipped == 6
  /\ map (fun log =>
            map (fun act => (a_status act, start_hour act, a_duration act))
                (activities log))
         (skipn 1 (generate_daily_logs events 739000))
     = [[(off_duty, 0, 5); (driving, 5, 1); (off_duty, 6, 18)]].
Proof.
  vm_compute. repeat split; try reflexivity; discriminate.
Qed.

(** Why a part of 0.01 hour is left out of the statement.  The first event
    below ends at hour 24.01, but on doubles [8.01 + 16.0] is
    24.009999999999998: its part in the second day is under the threshold
    of 0.01 hour and the partitioner leaves it out.  The second day then
    holds 5.99 hours of activity and starts at hour 0.01; in exact
    arithmetic it holds 6 hours from hour 0. *)
Lemma short_piece_dropped_on_doubles :
  let events :=
    [Binary64.mkEvent sleeper_berth (Binary64.double 8.01) (Binary64.double 16)
                      (Binary64.Text "10-hour rest period") (Place "Tulsa")
                      (Binary64.double 0) None;
     Binary64.mkEvent on_duty_not_driving (Binary64.double 24.01)
                      (Binary64.double 5.99)
                      (Binary64.Text "Pickup / Loading") (Place "Tulsa")
                      (Binary64.double 0) None] in
  let exact_events :=
    [mkEvent sleeper_berth 8.01 16 (Text "10-hour rest period") (Place "Tulsa")
             0 None;
     mkEvent on_duty_not_driving 24.01 5.99 (Text "Pickup / Loading")
             (Place "Tulsa") 0 None] in
  map (fun act => (a_status act, start_hour act, a_duration act))
      (day_activities (day_loop exact_events 24 48))
  = [(sleeper_berth, 0, 0.01); (on_duty_not_driving, 0.01, 5.99)]
  /\ map (fun act =>
            (Binary64.Views.a_status act,
             Py.round2 (Binary64.value (Binary64.Views.start_hour act)),
             Py.round2 (Binary64.value (Binary64.Views.a_duration act))))
         (Binary64.Views.day_activities
            (Binary64.Views.day_loop events (Binary64.double 24)
                                     (Binary64.double 48)))
     = [(on_duty_not_driving, 0.01, 5.99)].
Proof.
  vm_compute. split; reflexivity.
Qed.

(** * Further properties of the simulator and of the partitioner *)

(** ** Induction over the steps of a trip *)

Lemma do_on_duty_steps (events : list Event) (s : State) (duration : Q)
      (description : Description) (location : Location) :
  _do_on_duty events s duration description location
  = let '(events, s) :=
      if (clock s - shift_start s) + duration >? MAX_DUTY_WINDOW
      then call_rest events s location else (events, s) in
    let '(events, s) :=
      if cycle_hours s + duration >? MAX_CYCLE
      then call_restart events s location else (events, s) in
    on_duty_activity events s duration description location.
Proof.
  unfold _do_on_duty, on_duty_activity.
  destruct (_ >? MAX_DUTY_WINDOW); simpl;
    destruct (_ >? MAX_CYCLE); reflexivity.
Qed.

(** A property of the event list and the variables that every step of the
    simulator keeps is kept by the drive loop and holds when a trip
    returns.  A driving step is taken from a state within the limits that
    the checks of the iteration establish. *)
Section TripInduction.

Variable P : list Event * State -> Prop.

Hypothesis P_rest :
  forall events s loc, P (events, s) -> P (call_rest events s loc).
Hypothesis P_restart :
  forall events s loc, P (events, s) -> P (call_restart events s loc).
Hypothesis P_break :
  forall events s loc, P (events, s) -> P (take_break events s loc).
Hypothesis P_fuel :
  forall events s loc, P (events, s) -> P (fuel_stop events s loc).
Hypothesis P_drive :
  forall events s loc remaining avg_speed,
    P (events, s) ->
    shift_driving s < 11 -> clock s - shift_start s <= 14 ->
    driving_since_break s < 8 ->
    0.5 < remaining ->
    0.01 <= drive_time s remaining avg_speed ->
    P (drive_increment events s loc
                       (Py.round2 (drive_time s remaining avg_speed))
                       (Py.round1 (drive_miles s remaining avg_speed))).
Hypothesis P_initial_restart :
  forall events s current_loc,
    P (events, s) -> P (initial_restart events s current_loc).
Hypothesis P_inspection :
  forall events s description place,
    P (events, s) -> P (inspection events s 0.25 description place).
Hypothesis P_on_duty :
  forall events s description location,
    P (events, s) -> P (on_duty_activity events s 1.0 description location).

Lemma before_driving_keeps (events : list Event) (s : State) (loc : Location) :
  P (events, s) -> P (before_driving events s loc).
Proof.
  intros Hs. unfold before_driving.
  assert (H1 : P (check_cycle events s loc)).
  { unfold check_cycle. destruct (_ >=? MAX_CYCLE); auto. }
  destruct (check_cycle events s loc) as [ev1 s1].
  assert (H2 : P (check_shift ev1 s1 loc)).
  { unfold check_shift. destruct (_ || _); auto. }
  destruct (check_shift ev1 s1 loc) as [ev2 s2].
  assert (H3 : P (check_break ev2 s2 loc)).
  { unfold check_break. destruct (_ >=? BREAK_AFTER_DRIVING); auto.
    destruct (_ && _); auto. }
  destruct (check_break ev2 s2 loc) as [ev3 s3].
  unfold check_fuel. destruct (_ >=? FUEL_INTERVAL); auto.
  destruct (_ >? MAX_DUTY_WINDOW); auto.
  specialize (P_rest ev3 s3 loc H3).
  destruct (call_rest ev3 s3 loc) as [ev4 s4]. auto.
Qed.

Lemma drive_body_keeps (events : list Event) (s : State)
      (remaining segment_miles avg_speed : Q) (from_loc to_loc : string) :
  0.5 < remaining ->
  P (events, s) ->
  P (fst (snd (drive_body events s remaining segment_miles avg_speed
                          from_loc to_loc))).
Proof.
  intros Hrem Hs. unfold drive_body.
  set (loc := _loc from_loc to_loc segment_miles remaining).
  pose proof (before_driving_keeps events s loc Hs) as H1.
  pose proof (before_driving_limits events s loc) as Hlim. cbv zeta in Hlim.
  destruct (before_driving events s loc) as [ev1 s1]. simpl in Hlim.
  destruct Hlim as (L1 & L2 & L3 & _).
  destruct (ltb_spec (drive_time s1 remaining avg_speed) 0.01) as [Hlt | Hge].
  - exact H1.
  - pose proof (P_drive ev1 s1 loc remaining avg_speed H1 L1 L2 L3 Hrem Hge) as H2.
    destruct (drive_increment _ _ _ _ _) as [ev2 s2].
    destruct (_ <? 0.5); exact H2.
Qed.

Lemma drive_loop_keeps (fuel : nat) :
  forall (events : list Event) (s : State) (remaining segment_miles avg_speed : Q)
         (from_loc to_loc : string) (events' : list Event) (s' : State)
         (remaining' : Q),
    P (events, s) ->
    drive_loop fuel events s remaining segment_miles avg_speed from_loc to_loc
    = Some (events', s', remaining') ->
    P (events', s').
Proof.
  induction fuel as [| fuel IH]; intros events s remaining seg speed from to ev' s'
                                        rem' Hs Hrun; simpl in Hrun.
  - destruct (remaining >? 0.5); [discriminate |].
    injection Hrun as <- <- <-. exact Hs.
  - destruct (ltb_spec 0.5 remaining) as [Hrem | _].
    + pose proof (drive_body_keeps events s remaining seg speed from to Hrem Hs)
        as Hb.
      destruct (drive_body events s remaining seg speed from to)
        as [flow [[ev1 s1] rem1]].
      destruct flow.
      * eapply IH; [exact Hb | exact Hrun].
      * injection Hrun as <- <- <-. exact Hb.
      * injection Hrun as <- <- <-. exact Hb.
    + injection Hrun as <- <- <-. exact Hs.
Qed.

Lemma loop_head_keeps (n : nat) :
  forall (events : list Event) (s : State) (remaining segment_miles avg_speed : Q)
         (from_loc to_loc : string) (events' : list Event) (s' : State)
         (remaining' : Q),
    P (events, s) ->
    loop_head n events s remaining segment_miles avg_speed from_loc to_loc
    = Some (events', s', remaining') ->
    P (events', s').
Proof.
  induction n as [| n IH]; intros events s remaining seg speed from to ev' s' rem'
                                  Hs Hrun; simpl in Hrun.
  - injection Hrun as <- <- <-. exact Hs.
  - destruct (ltb_spec 0.5 remaining) as [Hrem | _]; [| discriminate].
    pose proof (drive_body_keeps events s remaining seg speed from to Hrem Hs)
      as Hb.
    destruct (drive_body events s remaining seg speed from to)
      as [flow [[ev1 s1] rem1]].
    destruct flow; try discriminate.
    eapply IH; [exact Hb | exact Hrun].
Qed.

Lemma drive_leg_keeps (fuel : nat) (events : list Event) (s : State)
      (leg_miles leg_hours : Q) (from_loc to_loc : string)
      (events' : list Event) (s' : State) :
  P (events, s) ->
  drive_leg fuel events s leg_miles leg_hours from_loc to_loc = Some (events', s') ->
  P (events', s').
Proof.
  intros Hs. unfold drive_leg, _drive.
  destruct (leg_miles >? 0.5).
  - destruct (drive_loop _ _ _ _ _ _ _ _) as [[[ev1 s1] rem1] |] eqn:Hrun;
      [| discriminate].
    intros H; injection H as <- <-.
    eapply drive_loop_keeps; [exact Hs | exact Hrun].
  - intros H; injection H as <- <-. exact Hs.
Qed.

Lemma do_on_duty_keeps (events : list Event) (s : State)
      (description : Description) (location : Location) :
  P (events, s) -> P (_do_on_duty events s 1.0 description location).
Proof.
  intros Hs. rewrite do_on_duty_steps.
  assert (H1 : P (if clock s - shift_start s + 1.0 >? MAX_DUTY_WINDOW
                  then call_rest events s location else (events, s))).
  { destruct (_ >? MAX_DUTY_WINDOW); auto. }
  destruct (if clock s - shift_start s + 1.0 >? MAX_DUTY_WINDOW
            then call_rest events s location else (events, s)) as [ev1 s1].
  assert (H2 : P (if cycle_hours s1 + 1.0 >? MAX_CYCLE
                  then call_restart ev1 s1 location else (ev1, s1))).
  { destruct (_ >? MAX_CYCLE); auto. }
  destruct (if cycle_hours s1 + 1.0 >? MAX_CYCLE
            then call_restart ev1 s1 location else (ev1, s1)) as [ev2 s2].
  auto.
Qed.

Lemma run_trip_keeps (fuel : nat) (initial_cycle : Q)
      (leg1_miles leg1_hours leg2_miles leg2_hours : Q)
      (current_loc pickup_loc dropoff_loc : string)
      (events : list Event) (s : State) :
  P ([], start_state initial_cycle) ->
  run_trip fuel initial_cycle leg1_miles leg1_hours leg2_miles leg2_hours
           current_loc pickup_loc dropoff_loc = Some (events, s) ->
  P (events, s).
Proof.
  intros H. unfold run_trip.
  apply (P_initial_restart _ _ current_loc) in H.
  destruct (initial_restart _ _ _) as [ev0 s0].
  apply (P_inspection _ _ "Pre-trip inspection" current_loc) in H.
  change 0.25 with PRE_TRIP_DURATION in H.
  destruct (inspection ev0 s0 _ _ _) as [ev1 s1].
  destruct (drive_leg fuel ev1 s1 _ _ _ _) as [[ev2 s2] |] eqn:Hleg1;
    [| discriminate].
  apply (fun H => drive_leg_keeps _ _ _ _ _ _ _ _ _ H Hleg1) in H.
  apply (do_on_duty_keeps _ _ (Text "Pickup / Loading") (Place pickup_loc)) in H.
  change 1.0 with PICKUP_DURATION in H.
  destruct (_do_on_duty ev2 s2 _ _ _) as [ev3 s3].
  destruct (drive_leg fuel ev3 s3 _ _ _ _) as [[ev4 s4] |] eqn:Hleg2;
    [| discriminate].
  apply (fun H => drive_leg_keeps _ _ _ _ _ _ _ _ _ H Hleg2) in H.
  apply (do_on_duty_keeps _ _ (Text "Dropoff / Unloading") (Place dropoff_loc))
    in H.
  change 1.0 with DROPOFF_DURATION in H.
  destruct (_do_on_duty ev4 s4 _ _ _) as [ev5 s5].
  apply (P_inspection _ _ "Post-trip inspection" dropoff_loc) in H.
  change 0.25 with POST_TRIP_DURATION in H.
  destruct (inspection ev5 s5 _ _ _) as [ev6 s6].
  intros Hret; injection Hret as <- <-. exact H.
Qed.

End TripInduction.

(** ** The limits of the drive loop *)

(** X1.  Whatever the state at the top of an iteration of the drive loop,
    after its four checks (and so at the start of the driving event, if
    one follows) the driving of the shift is under 11 hours, the shift is
    at most 14 hours old, the driving since the last break is under
    8 hours, and the cycle hours are under 70.5, under 70 when no fuel
    stop was due. *)
Theorem X1_limits_before_driving (events : list Event) (s : State)
        (loc : Location) :
  let s' := snd (before_driving events s loc) in
  shift_driving s' < 11
  /\ clock s' - shift_start s' <= 14
  /\ driving_since_break s' < 8
  /\ cycle_hours s' < 70.5
  /\ (total_distance s - last_fuel_distance s < 1000 -> cycle_hours s' < 70).
Proof. exact (before_driving_limits events s loc). Qed.

Lemma X1_limits_before_driving_witness :
  cycle_hours (snd (before_driving [] (mkState 30 8 11.5 9 72 400 0)
                                   (Near "Tulsa"))) < 70.
Proof.
  apply (X1_limits_before_driving [] (mkState 30 8 11.5 9 72 400 0) (Near "Tulsa")).
  unfold Qlt; simpl; lia.
Defined.

(** X2.  The events of a trip that the simulator returns follow each other
    without a gap from hour 8: each starts when the one before it ends,
    lasts a positive time, and both its clock and its duration have two
    decimals. *)
Theorem X2_trip_events_follow_each_other
        (fuel : nat) (current_cycle_used : Q)
        (leg1_miles leg1_hours leg2_miles leg2_hours : Q)
        (current_loc pickup_loc dropoff_loc : string) (r : TripResult) :
  simulate fuel current_cycle_used leg1_miles leg1_hours leg2_miles leg2_hours
           current_loc pickup_loc dropoff_loc = Some r ->
  exists finish : Q, timeline 8 (r_events r) finish /\ hundredths finish.
Proof.
  unfold simulate, calculate_trip.
  destruct (run_trip _ _ _ _ _ _ _ _ _) as [[events s] |] eqn:Hrun;
    [| discriminate].
  intros Hr; injection Hr as <-. simpl.
  exists (clock s). eapply run_trip_timeline. exact Hrun.
Qed.

Lemma X2_trip_events_follow_each_other_witness :
  match simulate 10 53.5 1250 20 300 6 "Tulsa" "Wichita" "Omaha" with
  | Some r => exists finish : Q, timeline 8 (r_events r) finish /\ hundredths finish
  | None => False
  end.
Proof.
  destruct (simulate 10 53.5 1250 20 300 6 "Tulsa" "Wichita" "Omaha")
    as [r |] eqn:Hrun.
  - exact (X2_trip_events_follow_each_other _ _ _ _ _ _ _ _ _ _ Hrun).
  - vm_compute in Hrun. discriminate.
Defined.

Lemma drive_time_positive_speed (s : State) (remaining avg_speed : Q) :
  0.01 <= drive_time s remaining avg_speed -> 0 < avg_speed.
Proof.
  unfold drive_time. destruct (ltb_spec 0 avg_speed); [auto | lra].
Qed.

Lemma drive_time_le_can_drive (s : State) (remaining avg_speed : Q) :
  0.01 <= drive_time s remaining avg_speed ->
  drive_time s remaining avg_speed <= can_drive s remaining avg_speed.
Proof.
  intros H. pose proof (drive_time_positive_speed _ _ _ H) as Hv.
  unfold drive_time, drive_miles in *.
  destruct (ltb_spec 0 avg_speed) as [_ | ?]; [| lra].
  apply Qle_shift_div_r; [exact Hv |].
  destruct (min_spec (can_drive s remaining avg_speed * avg_speed) remaining)
    as [[? ->] | [? ->]]; lra.
Qed.

Lemma max_floor_le (x b : Q) : 0.01 <= b -> x <= b -> Py.max 0.01 x <= b.
Proof. intros. destruct (max_spec 0.01 x) as [[_ ->] | [_ ->]]; lra. Qed.

Lemma min_le_left (a b : Q) : Py.min a b <= a.
Proof. destruct (min_spec a b) as [[? ->] | [? ->]]; lra. Qed.

Lemma min_le_right (a b : Q) : Py.min a b <= b.
Proof. destruct (min_spec a b) as [[? ->] | [? ->]]; lra. Qed.

Lemma round2_near (x : Q) : x - 0.005 <= Py.round2 x <= x + 0.005.
Proof.
  pose proof (round_half_even_near (x * 100)) as H.
  pose proof (round2_eq x) as E.
  assert (Hq : Py.round_half_even (x * 100) # 100
               == inject_Z (Py.round_half_even (x * 100)) / 100).
  { apply Qmake_Qdiv. }
  assert (Hd : inject_Z (Py.round_half_even (x * 100)) / 100 * 100
               == inject_Z (Py.round_half_even (x * 100))).
  { field. }
  lra.
Qed.

(** The bound on a driving step is at most the time left before the next
    break and before the 11-hour limit, or the floor of 0.01 hour. *)
Lemma can_drive_le_limits (s : State) (remaining avg_speed : Q) :
  can_drive s remaining avg_speed <= Py.max 0.01 (8 - driving_since_break s)
  /\ can_drive s remaining avg_speed <= Py.max 0.01 (11 - shift_driving s).
Proof.
  unfold can_drive. unfold_limits. cbv zeta.
  set (t_break := Py.max 0.01 (8 - driving_since_break s)).
  set (t_11 := Py.max 0.01 (11 - shift_driving s)).
  set (t_14 := Py.max 0.01 (14 - (clock s - shift_start s))).
  set (t_cycle := Py.max 0.01 (70 - cycle_hours s)).
  set (t_fuel := if avg_speed >? 0 then Py.max 0.01 _ else 999).
  set (t_finish := if avg_speed >? 0 then remaining / avg_speed else 0).
  pose proof (max_ge_l 0.01 (8 - driving_since_break s)).
  pose proof (max_ge_l 0.01 (11 - shift_driving s)).
  pose proof (min_le_left (Py.min (Py.min (Py.min (Py.min t_break t_11) t_14)
                                          t_cycle) t_fuel) t_finish).
  pose proof (min_le_left (Py.min (Py.min (Py.min t_break t_11) t_14) t_cycle)
                          t_fuel).
  pose proof (min_le_left (Py.min (Py.min t_break t_11) t_14) t_cycle).
  pose proof (min_le_left (Py.min t_break t_11) t_14).
  pose proof (min_le_left t_break t_11).
  pose proof (min_le_right t_break t_11).
  split; apply max_floor_le; unfold t_break, t_11 in *; lra.
Qed.

(** A driving event that starts under the two limits ends at most a
    hundredth and a half over them. *)
Lemma drive_step_near_limits (events : list Event) (s : State) (loc : Location)
      (remaining avg_speed : Q) :
  shift_driving s < 11 -> driving_since_break s < 8 ->
  0.01 <= drive_time s remaining avg_speed ->
  near_driving_limits
    (snd (drive_increment events s loc
                          (Py.round2 (drive_time s remaining avg_speed))
                          (Py.round1 (drive_miles s remaining avg_speed)))).
Proof.
  intros Ld Lb Ht.
  destruct (can_drive_le_limits s remaining avg_speed) as [Cb Cd].
  pose proof (drive_time_le_can_drive _ _ _ Ht) as Hle.
  pose proof (round2_near (drive_time s remaining avg_speed)) as [_ Hup].
  unfold near_driving_limits. simpl.
  destruct (max_spec 0.01 (8 - driving_since_break s)) as [[? E1] | [? E1]];
    rewrite E1 in Cb;
    destruct (max_spec 0.01 (11 - shift_driving s)) as [[? E2] | [? E2]];
    rewrite E2 in Cd; split; lra.
Qed.

Lemma hundredths_0 : hundredths 0.
Proof. apply (hundredths_Z 0). Qed.

Ltac limits_kept :=
  unfold near_driving_limits in *; simpl in *; split; lra.

(** X3.  The simulator keeps the driving of a shift and the driving since
    the last break within their limits of 11 and 8 hours, but for
    hundredths: a driving event starts under both limits and lasts no
    longer than the time left to the nearer one, or the floor of 0.01
    hour, so it ends less than 0.02 hour over them, whatever rounding the
    counters carry.  This holds at every test of the drive loop, when the
    loop ends, and when a trip ends.  On doubles the limit of 11 hours is
    passed by 0.01 hour ([eleven_hours_exceeded_on_doubles]). *)
Theorem X3_driving_limits_nearly_kept :
  (forall (n : nat) (events : list Event) (s : State)
          (remaining segment_miles avg_speed : Q) (from_loc to_loc : string)
          (events' : list Event) (s' : State) (remaining' : Q),
      shift_driving s < 11.02 -> driving_since_break s < 8.02 ->
      loop_head n events s remaining segment_miles avg_speed from_loc to_loc
      = Some (events', s', remaining') ->
      shift_driving s' < 11.02 /\ driving_since_break s' < 8.02)
  /\ (forall (fuel : nat) (events : list Event) (s : State)
             (remaining segment_miles avg_speed : Q) (from_loc to_loc : string)
             (events' : list Event) (s' : State) (remaining' : Q),
         shift_driving s < 11.02 -> driving_since_break s < 8.02 ->
         drive_loop fuel events s remaining segment_miles avg_speed from_loc to_loc
         = Some (events', s', remaining') ->
         shift_driving s' < 11.02 /\ driving_since_break s' < 8.02)
  /\ (forall (fuel : nat) (initial_cycle : Q)
             (leg1_miles leg1_hours leg2_miles leg2_hours : Q)
             (current_loc pickup_loc dropoff_loc : string)
             (events : list Event) (s : State),
         run_trip fuel initial_cycle leg1_miles leg1_hours leg2_miles leg2_hours
                  current_loc pickup_loc dropoff_loc = Some (events, s) ->
         shift_driving s < 11.02 /\ driving_since_break s < 8.02).
Proof.
  set (P := fun run : list Event * State => near_driving_limits (snd run)).
  assert (Hrest : forall events s loc, P (events, s) -> P (call_rest events s loc)).
  { intros; unfold P in *; limits_kept. }
  assert (Hrestart : forall events s loc,
             P (events, s) -> P (call_restart events s loc)).
  { intros; unfold P in *; limits_kept. }
  assert (Hbreak : forall events s loc,
             P (events, s) -> P (take_break events s loc)).
  { intros; unfold P in *; limits_kept. }
  assert (Hfuel : forall events s loc,
             P (events, s) -> P (fuel_stop events s loc)).
  { intros; unfold P in *; limits_kept. }
  assert (Hdrive : forall events s loc remaining avg_speed,
             P (events, s) ->
             shift_driving s < 11 -> clock s - shift_start s <= 14 ->
             driving_since_break s < 8 ->
             0.5 < remaining ->
             0.01 <= drive_time s remaining avg_speed ->
             P (drive_increment events s loc
                                (Py.round2 (drive_time s remaining avg_speed))
                                (Py.round1 (drive_miles s remaining avg_speed)))).
  { intros events s loc remaining avg_speed _ Ld _ Lb _ Ht. unfold P.
    apply drive_step_near_limits; assumption. }
  assert (Hinit : forall events s current_loc,
             P (events, s) -> P (initial_restart events s current_loc)).
  { intros events s current_loc Hs. unfold P, initial_restart in *.
    destruct (_ >=? MAX_CYCLE); limits_kept. }
  assert (Hinsp : forall events s description place,
             P (events, s) -> P (inspection events s 0.25 description place)).
  { intros; unfold P in *; limits_kept. }
  assert (Hduty : forall events s description location,
             P (events, s) ->
             P (on_duty_activity events s 1.0 description location)).
  { intros; unfold P in *; limits_kept. }
  split; [| split].
  - intros n events s remaining seg speed from to ev' s' rem' Hd Hb Hrun.
    apply (loop_head_keeps P Hrest Hrestart Hbreak Hfuel Hdrive
                           n events s remaining seg speed from to ev' s' rem')
      in Hrun; [exact Hrun | split; assumption].
  - intros fuel events s remaining seg speed from to ev' s' rem' Hd Hb Hrun.
    apply (drive_loop_keeps P Hrest Hrestart Hbreak Hfuel Hdrive
                            fuel events s remaining seg speed from to ev' s' rem')
      in Hrun; [exact Hrun | split; assumption].
  - intros fuel c m1 h1 m2 h2 cur pick drop events s Hrun.
    apply (run_trip_keeps P Hrest Hrestart Hbreak Hfuel Hdrive Hinit Hinsp Hduty)
      in Hrun; [exact Hrun |].
    unfold P, near_driving_limits. simpl. split; lra.
Qed.

Lemma X3_driving_limits_nearly_kept_witness :
  match run_trip 10 (initial_cycle 20) 900 18 300 6 "Tulsa" "Wichita" "Omaha" with
  | Some (_, s) => shift_driving s < 11.02 /\ driving_since_break s < 8.02
  | None => False
  end.
Proof.
  destruct (run_trip 10 (initial_cycle 20) 900 18 300 6 "Tulsa" "Wichita" "Omaha")
    as [[events s] |] eqn:Hrun.
  - exact (proj2 (proj2 X3_driving_limits_nearly_kept) _ _ _ _ _ _ _ _ _ _ _ Hrun).
  - vm_compute in Hrun. discriminate.
Defined.

(** On doubles a shift drives 11.01 hours.  In the trip of 1040 miles in 16
    hours with 65.25 cycle hours used, a shift drives 8, 2.88 and 0.12
    hours; the doubles add up to 10.999999999999998, the test
    [shift_driving >= 11] fails, and one more hundredth of an hour is
    driven before the rest. *)
Lemma eleven_hours_exceeded_on_doubles :
  let '(events, s) := first_leg_start 65.25 "Tulsa" in
  let speed := PrimFloat.div (Binary64.double 1040) (Binary64.double 16) in
  match Binary64.HOSCalculator.loop_head
          4 events s (Binary64.double 1040) (Binary64.double 1040) speed
          "Tulsa" "Wichita",
        Binary64.HOSCalculator.loop_head
          5 events s (Binary64.double 1040) (Binary64.double 1040) speed
          "Tulsa" "Wichita" with
  | Some (_, s4, _), Some (_, s5, _) =>
      shift_driving (state_value s4) < 11
      /\ 11 < shift_driving (state_value s5)
      /\ shift_driving (state_value s5) < 11.02
  | _, _ => False
  end.
Proof.
  vm_compute. repeat split; reflexivity.
Qed.

(** ** Location labels *)

Lemma lt_div_iff (a b c : Q) : 0 < c -> (b < a / c <-> b * c < a).
Proof.
  intros Hc. split; intros H.
  - destruct (Qlt_le_dec (b * c) a) as [Hlt | Hge]; [exact Hlt |].
    apply Qle_shift_div_r in Hge; [lra | exact Hc].
  - apply Qlt_shift_div_l; assumption.
Qed.

Lemma int_nonneg (x : Q) : 0 <= x -> Py.int x = Qfloor x.
Proof. intros H. unfold Py.int. destruct (ltb_spec x 0); [lra | reflexivity]. Qed.

Lemma floor_between (x : Q) (lo hi : Z) :
  inject_Z lo <= x -> x < inject_Z hi -> (lo <= Qfloor x < hi)%Z.
Proof.
  intros Hlo Hhi. split.
  - apply Qfloor_resp_le in Hlo. rewrite Qfloor_Z in Hlo. exact Hlo.
  - rewrite Zlt_Qlt. pose proof (Qfloor_le x). lra.
Qed.

(** X4.  The label of [_loc].  A segment of no length is labelled with
    its origin.  A segment of positive length is labelled near its origin,
    near its destination, or en route with a whole percentage from 10 to
    90 that is the progress in percent rounded down, or one less where the
    product, computed on doubles, falls just under a whole number
    ([percentage_on_doubles]).  Away from the two thresholds of a tenth
    and nine tenths the label is near the origin while at least 91 percent
    of the segment remain, near the destination once at most 9 percent
    remain, and en route from 89 to 11 percent. *)
Theorem X4_loc_label (from_loc to_loc : string) (total remaining : Q) :
  (total <= 0 -> _loc from_loc to_loc total remaining = Place from_loc)
  /\ (0 < total ->
      let progress := (total - remaining) / total in
      _loc from_loc to_loc total remaining = Near from_loc
      \/ _loc from_loc to_loc total remaining = Near to_loc
      \/ exists pct : Z,
          _loc from_loc to_loc total remaining = EnRoute pct from_loc to_loc
          /\ (10 <= pct <= 90)%Z
          /\ progress * 100 - 1.01 < inject_Z pct < progress * 100 + 0.01)
  /\ (0 < total -> 0.91 * total <= remaining ->
      _loc from_loc to_loc total remaining = Near from_loc)
  /\ (0 < total -> remaining <= 0.09 * total ->
      _loc from_loc to_loc total remaining = Near to_loc)
  /\ (0 < total -> 0.11 * total <= remaining <= 0.89 * total ->
      exists pct : Z,
        _loc from_loc to_loc total remaining = EnRoute pct from_loc to_loc).
Proof.
  unfold _loc.
  destruct (leb_spec total 0) as [Hle | Hpos].
  - repeat split; intros; try reflexivity; lra.
  - set (progress := (total - remaining) / total).
    assert (Hlow : progress < 0.1 <-> 0.9 * total < remaining).
    { unfold progress. rewrite (div_lt_iff _ _ _ Hpos). split; intros; lra. }
    assert (Hhigh : 0.9 < progress <-> remaining < 0.1 * total).
    { unfold progress. rewrite (lt_div_iff _ _ _ Hpos). split; intros; lra. }
    split; [intros; lra |].
    destruct (ltb_spec progress 0.1) as [Hnear | Hfar].
    + apply Hlow in Hnear.
      repeat split; intros; try reflexivity; try lra. left; reflexivity.
    + destruct (ltb_spec 0.9 progress) as [Hend | Hmid].
      * apply Hhigh in Hend.
        repeat split; intros; try reflexivity; try lra.
        right; left; reflexivity.
      * assert (Hnlow : ~ 0.9 * total < remaining) by (intros H; apply Hlow in H; lra).
        assert (Hnhigh : ~ remaining < 0.1 * total)
          by (intros H; apply Hhigh in H; lra).
        rewrite int_nonneg by lra.
        assert (Hb : (10 <= Qfloor (progress * 100) < 91)%Z).
        { apply floor_between.
          - change (inject_Z 10) with 10. lra.
          - change (inject_Z 91) with 91. lra. }
        pose proof (Qfloor_le (progress * 100)) as Hfl.
        pose proof (Qlt_floor (progress * 100)) as Hfu.
        rewrite inject_Z_plus in Hfu. change (inject_Z 1) with 1 in Hfu.
        split; [| split; [| split]].
        -- intros _. right; right. exists (Qfloor (progress * 100)).
           split; [reflexivity | split; [lia | split; lra]].
        -- intros _ H. exfalso. apply Hnlow. lra.
        -- intros _ H. exfalso. apply Hnhigh. lra.
        -- intros _ _. exists (Qfloor (progress * 100)). reflexivity.
Qed.

Lemma X4_loc_label_witness :
  exists pct : Z,
    _loc "Tulsa" "Wichita" 1250 562.5 = EnRoute pct "Tulsa" "Wichita".
Proof.
  apply (X4_loc_label "Tulsa" "Wichita" 1250 562.5).
  - unfold Qlt; simpl; lia.
  - split; unfold Qle; simpl; lia.
Defined.

(** The percentage on doubles: with 29 of 100 miles driven the progress is
    0.29, and [0.29 * 100] is 28.999999999999996, which [int] cuts to 28;
    in exact arithmetic the label says 29. *)
Lemma percentage_on_doubles :
  Binary64.HOSCalculator._loc "Tulsa" "Wichita" (Binary64.double 100)
                              (Binary64.double 71)
  = EnRoute 28 "Tulsa" "Wichita"
  /\ _loc "Tulsa" "Wichita" 100 71 = EnRoute 29 "Tulsa" "Wichita".
Proof.
  vm_compute. split; reflexivity.
Qed.

(** ** The remarks of a daily log *)

Lemma mod1_range (x : Q) : 0 <= mod1 x < 1.
Proof.
  unfold mod1. pose proof (Qfloor_le x). pose proof (Qlt_floor x) as H1.
  rewrite inject_Z_plus in H1. change (inject_Z 1) with 1 in H1. lra.
Qed.

(** A day of 24 hours: a step of the loop over the events appends at most
    one remark, with the status of the activity it appends, at an hour from
    0 to 23 and a minute from 0 to 59. *)
Lemma day_step_remarks (day_start day_end : Q) (acc : DayAcc) (e : Event) :
  day_end == day_start + 24 ->
  Forall valid_remark (day_remarks acc) ->
  map rm_status (day_remarks acc) = map a_status (day_activities acc) ->
  Forall valid_remark (day_remarks (day_step day_start day_end acc e))
  /\ map rm_status (day_remarks (day_step day_start day_end acc e))
     = map a_status (day_activities (day_step day_start day_end acc e)).
Proof.
  intros Hday Hvalid Hsame. unfold day_step.
  destruct (leb_spec (e_clock e + e_duration e) day_start) as [? | Hafter];
    [split; assumption |].
  destruct (leb_spec day_end (e_clock e)) as [? | Hbefore];
    [split; assumption |].
  simpl orb. cbv iota.
  destruct (_ <? 0.01); [split; assumption |].
  simpl. split.
  - apply Forall_app. split; [exact Hvalid |].
    constructor; [| constructor].
    set (clipped_start := Py.max (e_clock e) day_start - day_start).
    assert (Hcs : 0 <= clipped_start < 24).
    { unfold clipped_start.
      destruct (max_spec (e_clock e) day_start) as [[? ->] | [? ->]]; lra. }
    pose proof (mod1_range clipped_start) as Hm.
    unfold valid_remark. simpl.
    rewrite !int_nonneg by lra.
    assert (H1 : (0 <= Qfloor clipped_start < 24)%Z).
    { apply floor_between;
        [change (inject_Z 0) with 0 | change (inject_Z 24) with 24]; lra. }
    assert (H2 : (0 <= Qfloor (mod1 clipped_start * 60) < 60)%Z).
    { apply floor_between;
        [change (inject_Z 0) with 0 | change (inject_Z 60) with 60]; lra. }
    lia.
  - rewrite !map_app, Hsame. reflexivity.
Qed.

Lemma day_fold_remarks (events : list Event) :
  forall (day_start day_end : Q) (acc : DayAcc),
    day_end == day_start + 24 ->
    Forall valid_remark (day_remarks acc) ->
    map rm_status (day_remarks acc) = map a_status (day_activities acc) ->
    let final := fold_left (day_step day_start day_end) events acc in
    Forall valid_remark (day_remarks final)
    /\ map rm_status (day_remarks final) = map a_status (day_activities final).
Proof.
  induction events as [| e rest IH]; intros ds de acc Hday Hvalid Hsame; simpl.
  - split; assumption.
  - destruct (day_step_remarks ds de acc e Hday Hvalid Hsame) as [H1 H2].
    apply IH; assumption.
Qed.

(** X5.  In every daily log, for every event list, the remarks are one per
    clipped activity of the day, in the same order and with the same
    status, and each is stamped with an hour from 0 to 23 and a minute
    from 0 to 59. *)
Theorem X5_remarks_of_a_day (events : list Event) (start_date day_idx : Z) :
  let log := daily_log events start_date day_idx in
  let clipped :=
    day_activities (day_loop events (inject_Z (day_idx * 24))
                             (inject_Z ((day_idx + 1) * 24))) in
  Forall (fun r => (0 <= fst (time r) <= 23)%Z /\ (0 <= snd (time r) <= 59)%Z)
         (remarks log)
  /\ map rm_status (remarks log) = map a_status clipped
  /\ List.length (remarks log) = List.length clipped.
Proof.
  cbv zeta.
  assert (Hday : inject_Z ((day_idx + 1) * 24) == inject_Z (day_idx * 24) + 24).
  { unfold Qeq; simpl. lia. }
  destruct (day_fold_remarks events _ _
              {| day_activities := []; day_miles := 0.0; day_remarks := [] |}
              Hday (Forall_nil _) eq_refl) as [Hvalid Hsame].
  split; [exact Hvalid | split; [exact Hsame |]].
  apply (f_equal (@List.length Status)) in Hsame.
  rewrite !length_map in Hsame. exact Hsame.
Qed.

(** ** Distance accounting *)

Lemma round1_eq (x : Q) : Py.round1 x == Py.round_half_even (x * 10) # 10.
Proof. unfold Py.round1. apply Qred_correct. Qed.

Lemma round1_tenths (x : Q) : tenths (Py.round1 x).
Proof. eexists. apply round1_eq. Qed.

Lemma round1_id (x : Q) : tenths x -> Py.round1 x == x.
Proof.
  intros [k Hk]. rewrite round1_eq.
  rewrite (round_half_even_Z (x * 10) k).
  - symmetry; assumption.
  - rewrite Hk. unfold Qeq; simpl. lia.
Qed.

(** [round(x, 1)] moves a number by at most 0.05. *)
Lemma round1_near (x : Q) : x - 0.05 <= Py.round1 x <= x + 0.05.
Proof.
  pose proof (round_half_even_near (x * 10)) as H.
  pose proof (round1_eq x) as E.
  assert (Hq : Py.round_half_even (x * 10) # 10
               == inject_Z (Py.round_half_even (x * 10)) / 10).
  { apply Qmake_Qdiv. }
  assert (Hd : inject_Z (Py.round_half_even (x * 10)) / 10 * 10
               == inject_Z (Py.round_half_even (x * 10))).
  { field. }
  lra.
Qed.

Lemma tenths_plus (x y : Q) : tenths x -> tenths y -> tenths (x + y).
Proof.
  intros [a Ha] [b Hb]. exists (a + b)%Z. rewrite Ha, Hb.
  unfold Qeq; simpl. lia.
Qed.

Lemma tenths_0 : tenths 0.
Proof. exists 0%Z. reflexivity. Qed.

Lemma sum_miles_app (l1 l2 : list Event) :
  sum_miles (l1 ++ l2) == sum_miles l1 + sum_miles l2.
Proof.
  induction l1 as [| e rest IH]; simpl; [| rewrite IH]; lra.
Qed.

Lemma distances_from_snoc (events : list Event) (e : Event) :
  forall d,
    distances_from d events -> e_distance e == d + sum_miles events ->
    distances_from d (events ++ [e]).
Proof.
  induction events as [| e' rest IH]; intros d H He; simpl in *.
  - split; [lra | exact I].
  - destruct H as [H1 H2]. split; [exact H1 |]. apply IH; [exact H2 | lra].
Qed.

(** Appending an event that carries no miles, the distance unchanged. *)
Lemma distance_logged_still (events : list Event) (s s' : State)
      (status : Status) (clock duration : Q) (desc : Description)
      (loc : Location) :
  status <> driving ->
  total_distance s' = total_distance s ->
  distance_logged (events, s) ->
  distance_logged
    (events ++ [_evt status clock duration desc loc (total_distance s) None], s').
Proof.
  intros Hst Htd (Ht & Hsum & Hd & Hm). unfold distance_logged in *. simpl in *.
  rewrite Htd. repeat split.
  - exact Ht.
  - rewrite sum_miles_app. simpl. unfold miles_of, _evt. simpl. lra.
  - apply distances_from_snoc; [exact Hd |]. simpl.
    rewrite (round1_id _ Ht). lra.
  - apply Forall_app. split; [exact Hm |]. constructor; [| constructor].
    unfold miles_on_driving. simpl. split; intros H; [| contradiction].
    exfalso; apply H; reflexivity.
Qed.

(** Appending a driving event of [miles] miles, a number of one decimal. *)
Lemma distance_logged_driven (events : list Event) (s s' : State)
      (clock duration miles : Q) (desc : Description) (loc : Location) :
  tenths miles ->
  total_distance s' = total_distance s + miles ->
  distance_logged (events, s) ->
  distance_logged
    (events ++ [_evt driving clock duration desc loc (total_distance s)
                     (Some miles)], s').
Proof.
  intros Hmi Htd (Ht & Hsum & Hd & Hm). unfold distance_logged in *. simpl in *.
  rewrite Htd. pose proof (round1_id _ Hmi) as Rm.
  repeat split.
  - apply tenths_plus; assumption.
  - rewrite sum_miles_app. simpl. unfold miles_of, _evt. simpl. lra.
  - apply distances_from_snoc; [exact Hd |]. simpl.
    rewrite (round1_id _ Ht). lra.
  - apply Forall_app. split; [exact Hm |]. constructor; [| constructor].
    unfold miles_on_driving. simpl. split; intros; [reflexivity | discriminate].
Qed.

Lemma run_trip_distance_logged (fuel : nat) (initial_cycle : Q)
      (leg1_miles leg1_hours leg2_miles leg2_hours : Q)
      (current_loc pickup_loc dropoff_loc : string)
      (events : list Event) (s : State) :
  run_trip fuel initial_cycle leg1_miles leg1_hours leg2_miles leg2_hours
           current_loc pickup_loc dropoff_loc = Some (events, s) ->
  distance_logged (events, s).
Proof.
  apply (run_trip_keeps distance_logged).
  - intros ev s0 loc H. apply distance_logged_still; [discriminate | reflexivity | exact H].
  - intros ev s0 loc H. apply distance_logged_still; [discriminate | reflexivity | exact H].
  - intros ev s0 loc H. apply distance_logged_still; [discriminate | reflexivity | exact H].
  - intros ev s0 loc H. apply distance_logged_still; [discriminate | reflexivity | exact H].
  - intros ev s0 loc remaining avg_speed H _ _ _ _ _.
    apply distance_logged_driven; [apply round1_tenths | reflexivity | exact H].
  - intros ev s0 loc H. unfold initial_restart.
    destruct (_ >=? MAX_CYCLE); [| exact H].
    apply distance_logged_still; [discriminate | reflexivity | exact H].
  - intros ev s0 d l H. apply distance_logged_still; [discriminate | reflexivity | exact H].
  - intros ev s0 d l H. apply distance_logged_still; [discriminate | reflexivity | exact H].
  - unfold distance_logged. simpl.
    repeat split; try constructor; apply tenths_0 || reflexivity.
Qed.

(** X6.  The events of a trip account for its distance: the total distance
    returned is the sum of the miles of the events, each event's distance
    is the sum of the miles of the events before it, and the events that
    carry miles are the driving events. *)
Theorem X6_distance_is_logged
        (fuel : nat) (current_cycle_used : Q)
        (leg1_miles leg1_hours leg2_miles leg2_hours : Q)
        (current_loc pickup_loc dropoff_loc : string) (r : TripResult) :
  simulate fuel current_cycle_used leg1_miles leg1_hours leg2_miles leg2_hours
           current_loc pickup_loc dropoff_loc = Some r ->
  r_total_distance r == sum_miles (r_events r)
  /\ distances_from 0 (r_events r)
  /\ Forall (fun e => e_miles e <> None <-> e_status e = driving) (r_events r).
Proof.
  unfold simulate, calculate_trip.
  destruct (run_trip _ _ _ _ _ _ _ _ _) as [[events s] |] eqn:Hrun;
    [| discriminate].
  intros Hr; injection Hr as <-. simpl.
  destruct (run_trip_distance_logged _ _ _ _ _ _ _ _ _ _ _ Hrun)
    as (Ht & Hsum & Hd & Hm). simpl in *.
  rewrite (round1_id _ Ht). repeat split; assumption.
Qed.

Lemma X6_distance_is_logged_witness :
  match simulate 10 53.5 1250 20 300 6 "Tulsa" "Wichita" "Omaha" with
  | Some r => r_total_distance r == sum_miles (r_events r)
  | None => False
  end.
Proof.
  destruct (simulate 10 53.5 1250 20 300 6 "Tulsa" "Wichita" "Omaha")
    as [r |] eqn:Hrun.
  - exact (proj1 (X6_distance_is_logged _ _ _ _ _ _ _ _ _ _ Hrun)).
  - vm_compute in Hrun. discriminate.
Defined.

(** ** The distance driven on a leg *)

Lemma check_cycle_distance (events : list Event) (s : State) (loc : Location) :
  total_distance (snd (check_cycle events s loc)) = total_distance s.
Proof. unfold check_cycle. destruct (_ >=? MAX_CYCLE); reflexivity. Qed.

Lemma check_shift_distance (events : list Event) (s : State) (loc : Location) :
  total_distance (snd (check_shift events s loc)) = total_distance s.
Proof. unfold check_shift. destruct (_ || _); reflexivity. Qed.

Lemma check_break_distance (events : list Event) (s : State) (loc : Location) :
  total_distance (snd (check_break events s loc)) = total_distance s.
Proof.
  unfold check_break. destruct (_ >=? BREAK_AFTER_DRIVING); [| reflexivity].
  destruct (_ && _); reflexivity.
Qed.

Lemma check_fuel_distance (events : list Event) (s : State) (loc : Location) :
  total_distance (snd (check_fuel events s loc)) = total_distance s.
Proof.
  unfold check_fuel. destruct (_ >=? FUEL_INTERVAL); [| reflexivity].
  destruct (_ >? MAX_DUTY_WINDOW); reflexivity.
Qed.

Lemma before_driving_distance (events : list Event) (s : State) (loc : Location) :
  total_distance (snd (before_driving events s loc)) = total_distance s.
Proof.
  unfold before_driving.
  pose proof (check_cycle_distance events s loc) as H1.
  destruct (check_cycle events s loc) as [ev1 s1].
  pose proof (check_shift_distance ev1 s1 loc) as H2.
  destruct (check_shift ev1 s1 loc) as [ev2 s2].
  pose proof (check_break_distance ev2 s2 loc) as H3.
  destruct (check_break ev2 s2 loc) as [ev3 s3].
  pose proof (check_fuel_distance ev3 s3 loc) as H4.
  simpl in *. congruence.
Qed.

(** One iteration of the drive loop with more than half a mile to go: what
    it does to the distance and to what remains. *)
Lemma drive_body_distance (events : list Event) (s : State)
      (remaining segment_miles avg_speed : Q) (from_loc to_loc : string) :
  0.5 < remaining ->
  match drive_body events s remaining segment_miles avg_speed from_loc to_loc with
  | (NextIteration, (_, s', remaining')) =>
      total_distance s' + remaining' == total_distance s + remaining
      /\ 0.5 <= remaining' /\ total_distance s <= total_distance s'
  | (SafetyStop, (_, s', remaining')) =>
      total_distance s' = total_distance s /\ remaining' = remaining
  | (SegmentDone, (_, s', remaining')) =>
      remaining' = 0
      /\ total_distance s + remaining - 0.5 < total_distance s'
      /\ total_distance s' <= total_distance s + remaining + 0.05
      /\ total_distance s <= total_distance s'
  end.
Proof.
  intros Hrem. unfold drive_body.
  set (loc := _loc from_loc to_loc segment_miles remaining).
  pose proof (before_driving_distance events s loc) as Htd.
  destruct (before_driving events s loc) as [ev1 s1]. simpl in Htd.
  destruct (ltb_spec (drive_time s1 remaining avg_speed) 0.01) as [Hlt | Hge].
  - split; [exact Htd | reflexivity].
  - pose proof (drive_time_positive_speed _ _ _ Hge) as Hv.
    pose proof (round1_near (drive_miles s1 remaining avg_speed)) as Hnear.
    assert (Hle : drive_miles s1 remaining avg_speed <= remaining).
    { unfold drive_miles. apply min_le_right. }
    assert (Hpos : 0 <= Py.round1 (drive_miles s1 remaining avg_speed)).
    { rewrite round1_eq.
      assert (Hm : 0 <= drive_miles s1 remaining avg_speed).
      { unfold drive_time in Hge.
        destruct (ltb_spec 0 avg_speed) as [_ | ?]; [| lra].
        destruct (Qlt_le_dec (drive_miles s1 remaining avg_speed) 0)
          as [Hneg | Hok]; [| exact Hok].
        assert (Hsmall : drive_miles s1 remaining avg_speed / avg_speed < 0.01).
        { apply div_lt_iff; [exact Hv |].
          assert (0 <= 0.01 * avg_speed) by (apply Qmult_le_0_compat; lra).
          lra. }
        lra. }
      assert (Hk : (0 <= Py.round_half_even
                             (drive_miles s1 remaining avg_speed * 10))%Z).
      { apply round_half_even_ge. change (inject_Z 0) with 0. lra. }
      unfold Qle; simpl. lia. }
    simpl.
    destruct (ltb_spec (remaining
                        - Py.round1 (drive_miles s1 remaining avg_speed)) 0.5)
      as [Hdone | Hmore]; simpl; rewrite Htd; repeat split; try lra.
Qed.

Lemma drive_loop_distance (fuel : nat) :
  forall (events : list Event) (s : State) (remaining segment_miles avg_speed : Q)
         (from_loc to_loc : string) (events' : list Event) (s' : State)
         (remaining' : Q),
    drive_loop fuel events s remaining segment_miles avg_speed from_loc to_loc
    = Some (events', s', remaining') ->
    let driven := total_distance s' - total_distance s in
    0 <= driven
    /\ (remaining <= 0.5 -> driven == 0)
    /\ (0.5 <= remaining -> driven <= remaining + 0.05).
Proof.
  induction fuel as [| fuel IH]; intros events s remaining seg speed from to ev' s'
                                        rem' Hrun; simpl in Hrun.
  - destruct (ltb_spec 0.5 remaining); [discriminate |].
    injection Hrun as <- <- <-. simpl. repeat split; intros; lra.
  - destruct (ltb_spec 0.5 remaining) as [Hbig | Hsmall].
    + pose proof (drive_body_distance events s remaining seg speed from to Hbig)
        as Hbody.
      destruct (drive_body events s remaining seg speed from to)
        as [flow [[ev1 s1] rem1]].
      destruct flow.
      * destruct Hbody as (Hsum & Hrem1 & Hup).
        destruct (IH _ _ _ _ _ _ _ _ _ _ Hrun) as (I0 & I1 & I2).
        specialize (I2 Hrem1).
        cbv zeta. repeat split; intros; lra.
      * injection Hrun as <- <- <-. destruct Hbody as [Htd ->].
        rewrite Htd. cbv zeta. repeat split; intros; lra.
      * injection Hrun as <- <- <-. destruct Hbody as (_ & Hlo & Hhi & Hup).
        cbv zeta. repeat split; intros; lra.
    + injection Hrun as <- <- <-. simpl. repeat split; intros; lra.
Qed.

(** X7.  Driving a leg never moves the distance backwards and never
    overshoots the leg by as much as 0.06 mile: the miles of a driving
    event are those that remain, at most, rounded to one decimal, and the
    loop ends once less than half a mile remains.  A leg of half a mile or
    less is not driven.  How much of a leg can stay undriven is the matter
    of the safety stop ([safety_stop_at_the_floor_on_doubles]). *)
Theorem X7_distance_driven_on_a_leg
        (fuel : nat) (events : list Event) (s : State)
        (leg_miles leg_hours : Q) (from_loc to_loc : string)
        (events' : list Event) (s' : State) :
  0 <= leg_miles ->
  drive_leg fuel events s leg_miles leg_hours from_loc to_loc = Some (events', s') ->
  let driven := total_distance s' - total_distance s in
  0 <= driven
  /\ driven < leg_miles + 0.06
  /\ (leg_miles <= 0.5 -> driven == 0).
Proof.
  intros Hleg. unfold drive_leg, _drive.
  destruct (ltb_spec 0.5 leg_miles) as [Hlong | Hshort].
  - destruct (drive_loop _ _ _ _ _ _ _ _) as [[[ev1 s1] rem1] |] eqn:Hrun;
      [| discriminate].
    intros H; injection H as <- <-.
    destruct (drive_loop_distance _ _ _ _ _ _ _ _ _ _ _ Hrun) as (I0 & _ & I2).
    cbv zeta. repeat split; intros; lra.
  - intros H; injection H as <- <-. cbv zeta.
    repeat split; intros; lra.
Qed.

Lemma X7_distance_driven_on_a_leg_witness :
  match drive_leg 10 [] (start_state 0) 300 6 "Tulsa" "Wichita" with
  | Some (_, s') =>
      0 <= total_distance s' - total_distance (start_state 0)
      /\ total_distance s' - total_distance (start_state 0) < 300 + 0.06
  | None => False
  end.
Proof.
  destruct (drive_leg 10 [] (start_state 0) 300 6 "Tulsa" "Wichita")
    as [[events' s'] |] eqn:Hrun.
  - assert (H0 : 0 <= 300) by (unfold Qle; simpl; lia).
    pose proof (X7_distance_driven_on_a_leg _ _ _ _ _ _ _ _ _ H0 Hrun) as H.
    cbv zeta in H. split; apply H.
  - vm_compute in Hrun. discriminate.
Defined.

(** ** Cycle accounting *)

Lemma replay_snoc (initial : Q) (events : list Event) (e : Event) :
  replay_cycle initial (events ++ [e])
  = cycle_step (replay_cycle initial events) e.
Proof. unfold replay_cycle. rewrite fold_left_app. reflexivity. Qed.

(** Appending an event that is neither a restart nor duty. *)
Lemma cycle_logged_off (initial : Q) (events : list Event) (s s' : State)
      (e : Event) :
  is_restart e = false -> is_on_duty (e_status e) = false ->
  cycle_hours s' = cycle_hours s ->
  cycle_logged initial (events, s) -> cycle_logged initial (events ++ [e], s').
Proof.
  intros Hr Hd Hc H. unfold cycle_logged in *. cbn [fst snd] in *.
  rewrite replay_snoc. unfold cycle_step. rewrite Hr, Hd, Hc. exact H.
Qed.

(** Appending a restart. *)
Lemma cycle_logged_restart (initial : Q) (events : list Event) (s' : State)
      (e : Event) :
  is_restart e = true -> cycle_hours s' = 0 ->
  cycle_logged initial (events ++ [e], s').
Proof.
  intros Hr Hc. unfold cycle_logged. cbn [fst snd].
  rewrite replay_snoc. unfold cycle_step. rewrite Hr, Hc. reflexivity.
Qed.

(** Appending an event of duty. *)
Lemma cycle_logged_duty (initial : Q) (events : list Event) (s s' : State)
      (e : Event) (duration : Q) :
  is_restart e = false -> is_on_duty (e_status e) = true ->
  e_duration e == duration ->
  cycle_hours s' = cycle_hours s + duration ->
  cycle_logged initial (events, s) -> cycle_logged initial (events ++ [e], s').
Proof.
  intros Hr Hd He Hc H. unfold cycle_logged in *. cbn [fst snd] in *.
  rewrite replay_snoc. unfold cycle_step. rewrite Hr, Hd, Hc. lra.
Qed.

Lemma run_trip_cycle_logged (fuel : nat) (initial_cycle : Q)
      (leg1_miles leg1_hours leg2_miles leg2_hours : Q)
      (current_loc pickup_loc dropoff_loc : string)
      (events : list Event) (s : State) :
  run_trip fuel initial_cycle leg1_miles leg1_hours leg2_miles leg2_hours
           current_loc pickup_loc dropoff_loc = Some (events, s) ->
  cycle_logged initial_cycle (events, s).
Proof.
  apply (run_trip_keeps (cycle_logged initial_cycle)).
  - intros ev s0 loc H.
    apply (cycle_logged_off _ _ s0); [reflexivity | reflexivity | reflexivity | exact H].
  - intros ev s0 loc H. apply cycle_logged_restart; reflexivity.
  - intros ev s0 loc H.
    apply (cycle_logged_off _ _ s0); [reflexivity | reflexivity | reflexivity | exact H].
  - intros ev s0 loc H.
    apply (cycle_logged_duty _ _ s0 _ _ FUEL_DURATION);
      [reflexivity | reflexivity | reflexivity | reflexivity | exact H].
  - intros ev s0 loc remaining avg_speed H _ _ _ _ _.
    apply (cycle_logged_duty _ _ s0 _ _
             (Py.round2 (drive_time s0 remaining avg_speed)));
      [| reflexivity | | reflexivity | exact H].
    + unfold is_restart. reflexivity.
    + simpl. apply round2_id, round2_hundredths.
  - intros ev s0 loc H. unfold initial_restart.
    destruct (_ >=? MAX_CYCLE); [| exact H].
    apply cycle_logged_restart; reflexivity.
  - intros ev s0 d l H.
    apply (cycle_logged_duty _ _ s0 _ _ 0.25);
      [reflexivity | reflexivity | reflexivity | reflexivity | exact H].
  - intros ev s0 d l H.
    apply (cycle_logged_duty _ _ s0 _ _ 1.0);
      [reflexivity | reflexivity | reflexivity | reflexivity | exact H].
  - unfold cycle_logged. simpl. reflexivity.
Qed.



(** ** The summary of a trip *)

Lemma fold_sum_from (events : list Event) :
  forall a : Q,
    fold_left (fun total e => total + e_duration e) events a
    == a + fold_left (fun total e => total + e_duration e) events 0.
Proof.
  induction events as [| e rest IH]; intros a; simpl.
  - lra.
  - rewrite (IH (a + e_duration e)), (IH (0 + e_duration e)). lra.
Qed.

Lemma sum_where_cons (keep : Status -> bool) (e : Event) (rest : list Event) :
  sum_durations_where keep (e :: rest)
  == (if keep (e_status e) then e_duration e else 0)
     + sum_durations_where keep rest.
Proof.
  unfold sum_durations_where. simpl.
  destruct (keep (e_status e)); simpl; [| lra].
  rewrite fold_sum_from. lra.
Qed.

Lemma timeline_durations (events : list Event) :
  forall a b,
    timeline a events b ->
    Forall (fun e => hundredths (e_duration e) /\ 0 < e_duration e) events.
Proof.
  induction events as [| e rest IH]; intros a b H; constructor.
  - destruct H as (_ & _ & Hh & Hd & _). split; assumption.
  - destruct H as (_ & _ & _ & _ & H). eapply IH; exact H.
Qed.

Lemma sum_where_hundredths (keep : Status -> bool) (events : list Event) :
  Forall (fun e => hundredths (e_duration e) /\ 0 < e_duration e) events ->
  hundredths (sum_durations_where keep events)
  /\ 0 <= sum_durations_where keep events.
Proof.
  induction 1 as [| e rest [Hh Hpos] _ [IHh IHpos]].
  - split; [apply hundredths_0 | unfold sum_durations_where; simpl; lra].
  - pose proof (sum_where_cons keep e rest) as E.
    split.
    + apply (hundredths_eq _ _ (Qeq_sym _ _ E)).
      destruct (keep (e_status e)); apply hundredths_plus;
        assumption || apply hundredths_0.
    + destruct (keep (e_status e)); lra.
Qed.

Lemma sum_where_le (keep1 keep2 : Status -> bool) (events : list Event) :
  (forall s, keep1 s = true -> keep2 s = true) ->
  Forall (fun e => hundredths (e_duration e) /\ 0 < e_duration e) events ->
  sum_durations_where keep1 events <= sum_durations_where keep2 events.
Proof.
  intros Hsub. induction 1 as [| e rest [_ Hpos] _ IH].
  - unfold sum_durations_where; simpl; lra.
  - rewrite !sum_where_cons. specialize (Hsub (e_status e)).
    destruct (keep1 (e_status e)).
    + rewrite Hsub by reflexivity. lra.
    + destruct (keep2 (e_status e)); lra.
Qed.

(** Without a restart among them, the events add their duty to the cycle. *)
Lemma replay_without_restart (events : list Event) :
  forall initial : Q,
    forallb (fun e => negb (is_restart e)) events = true ->
    replay_cycle initial events
    == initial + sum_durations_where is_on_duty events.
Proof.
  induction events as [| e rest IH]; intros initial Hno.
  - unfold replay_cycle, sum_durations_where. simpl. lra.
  - simpl in Hno. apply andb_prop in Hno. destruct Hno as [He Hrest].
    apply negb_true_iff in He.
    change (replay_cycle initial (e :: rest))
      with (replay_cycle (cycle_step initial e) rest).
    rewrite (IH _ Hrest), sum_where_cons. unfold cycle_step. rewrite He.
    destruct (is_on_duty (e_status e)); lra.
Qed.

Lemma run_trip_events_nonempty (fuel : nat) (initial_cycle : Q)
      (leg1_miles leg1_hours leg2_miles leg2_hours : Q)
      (current_loc pickup_loc dropoff_loc : string)
      (events : list Event) (s : State) :
  run_trip fuel initial_cycle leg1_miles leg1_hours leg2_miles leg2_hours
           current_loc pickup_loc dropoff_loc = Some (events, s) ->
  events <> [].
Proof.
  unfold run_trip.
  destruct (initial_restart _ _ _) as [ev0 s0].
  destruct (inspection ev0 s0 _ _ _) as [ev1 s1].
  destruct (drive_leg fuel ev1 s1 _ _ _ _) as [[ev2 s2] |]; [| discriminate].
  destruct (_do_on_duty ev2 s2 _ _ _) as [ev3 s3].
  destruct (drive_leg fuel ev3 s3 _ _ _ _) as [[ev4 s4] |]; [| discriminate].
  destruct (_do_on_duty ev4 s4 _ _ _) as [ev5 s5].
  unfold inspection. intros H; injection H as <- _.
  intros Hnil. apply app_eq_nil in Hnil. destruct Hnil as [_ Hnil]. discriminate.
Qed.

Lemma logs_of_events_nonempty (events : list Event) (start_date : Z) :
  events <> [] ->
  (1 <= List.length (generate_daily_logs events start_date))%nat.
Proof.
  intros Hne. destruct events as [| first rest]; [contradiction |].
  unfold generate_daily_logs. rewrite length_map, range_length.
  pose proof (num_days_positive (last (first :: rest) first)). lia.
Qed.

(** X9.  The summary the view builds for a simulated trip: the driving
    hours are part of the duty hours, there is at least one day, and when
    the cycle hours used at the start have two decimals and the trip has no
    34-hour restart, the cycle hours at the end are the capped hours at the
    start plus the duty hours of the trip. *)
Theorem X9_summary_of_a_trip
        (fuel : nat) (current_cycle_used : Q)
        (leg1_miles leg1_hours leg2_miles leg2_hours : Q)
        (current_loc pickup_loc dropoff_loc : string) (r : TripResult)
        (start_date : Z) :
  simulate fuel current_cycle_used leg1_miles leg1_hours leg2_miles leg2_hours
           current_loc pickup_loc dropoff_loc = Some r ->
  let events := r_events r in
  let summary := trip_summary events (generate_daily_logs events start_date)
                              (r_final_cycle_hours r) in
  total_driving_hours summary <= total_duty_hours summary
  /\ (1 <= total_days summary)%nat
  /\ (hundredths current_cycle_used ->
      forallb (fun e => negb (is_restart e)) events = true ->
      cycle_hours_at_end summary
      == Py.min current_cycle_used 70 + total_duty_hours summary).
Proof.
  unfold simulate, calculate_trip.
  destruct (run_trip _ _ _ _ _ _ _ _ _) as [[events s] |] eqn:Hrun;
    [| discriminate].
  intros Hr; injection Hr as <-. cbv zeta. simpl.
  pose proof (run_trip_cycle_logged _ _ _ _ _ _ _ _ _ _ _ Hrun) as Hcycle.
  destruct (run_trip_timeline _ _ _ _ _ _ _ _ _ _ _ Hrun) as [Htl _].
  unfold cycle_logged in Hcycle. simpl in Hcycle.
  pose proof (timeline_durations _ _ _ Htl) as Hdur.
  destruct (sum_where_hundredths is_driving events Hdur) as [Hh1 _].
  destruct (sum_where_hundredths is_on_duty events Hdur) as [Hh2 _].
  pose proof (round2_id _ Hh1) as R1. pose proof (round2_id _ Hh2) as R2.
  split; [| split].
  - rewrite R1, R2. apply sum_where_le; [| exact Hdur].
    intros [| | |]; simpl; intros; congruence.
  - apply logs_of_events_nonempty.
    exact (run_trip_events_nonempty _ _ _ _ _ _ _ _ _ _ _ Hrun).
  - intros Hused Hno.
    pose proof (replay_without_restart events (initial_cycle current_cycle_used)
                                       Hno) as Hreplay.
    assert (Hh : hundredths (cycle_hours s)).
    { apply (hundredths_eq (initial_cycle current_cycle_used
                            + sum_durations_where is_on_duty events));
        [lra |].
      apply hundredths_plus; [| exact Hh2].
      apply hundredths_min; [exact Hused | apply (hundredths_Z 70)]. }
    rewrite (round2_id _ Hh), R2. unfold initial_cycle, MAX_CYCLE in *. lra.
Qed.

Lemma X9_summary_of_a_trip_witness :
  match simulate 10 20 900 18 300 6 "Tulsa" "Wichita" "Omaha" with
  | Some r =>
      let summary := trip_summary (r_events r)
                                  (generate_daily_logs (r_events r) 739000)
                                  (r_final_cycle_hours r) in
      cycle_hours_at_end summary == Py.min 20 70 + total_duty_hours summary
  | None => False
  end.
Proof.
  destruct (simulate 10 20 900 18 300 6 "Tulsa" "Wichita" "Omaha")
    as [r |] eqn:Hrun.
  - apply (X9_summary_of_a_trip _ _ _ _ _ _ _ _ _ _ 739000 Hrun).
    + apply has_two_decimals_ok. reflexivity.
    + vm_compute in Hrun. injection Hrun as <-. reflexivity.
  - vm_compute in Hrun. discriminate.
Defined.

(** ** Gap filling *)

Lemma insert_by_start_perm (a : Activity) (l : list Activity) :
  Permutation (a :: l) (insert_by_start a l).
Proof.
  induction l as [| b rest IH]; simpl.
  - apply Permutation_refl.
  - destruct (start_hour a <=? start_hour b).
    + apply Permutation_refl.
    + eapply Permutation_trans; [apply perm_swap |].
      apply perm_skip. exact IH.
Qed.

Lemma sort_by_start_perm (l : list Activity) : Permutation l (sort_by_start l).
Proof.
  induction l as [| a rest IH]; simpl.
  - apply Permutation_refl.
  - eapply Permutation_trans; [| apply insert_by_start_perm].
    apply perm_skip. exact IH.
Qed.

Lemma insert_by_start_sorted (a : Activity) (l : list Activity) :
  Sorted starts_before l -> Sorted starts_before (insert_by_start a l).
Proof.
  induction 1 as [| b rest Hrest IH Hhd]; simpl.
  - repeat constructor.
  - destruct (leb_spec (start_hour a) (start_hour b)) as [Hle | Hgt].
    + constructor; [constructor; assumption |]. constructor. exact Hle.
    + constructor; [exact IH |].
      destruct rest as [| c rest']; simpl.
      * constructor. unfold starts_before. lra.
      * destruct (leb_spec (start_hour a) (start_hour c)).
        -- constructor. unfold starts_before. lra.
        -- constructor. inversion Hhd; assumption.
Qed.

Lemma sort_by_start_sorted (l : list Activity) :
  Sorted starts_before (sort_by_start l).
Proof.
  induction l as [| a rest IH]; simpl.
  - constructor.
  - apply insert_by_start_sorted. exact IH.
Qed.

Lemma with_gaps_end (acts filled : list Activity) (a b d : Q) :
  with_gaps acts filled -> with_gaps acts (filled ++ [off_duty_block a b d]).
Proof.
  induction 1; simpl.
  - apply gaps_block. apply gaps_nil.
  - apply gaps_keep. assumption.
  - apply gaps_block. assumption.
Qed.

Lemma fill_loop_with_gaps (acts : list Activity) :
  forall (filled : list Activity) (current : Q),
  exists (added : list Activity) (current' : Q),
    fill_loop acts filled current = (filled ++ added, current')
    /\ with_gaps acts added.
Proof.
  induction acts as [| act rest IH]; intros filled current; simpl.
  - exists [], current. rewrite app_nil_r. split; [reflexivity | constructor].
  - destruct (start_hour act >? current + 0.01).
    + destruct (IH ((filled
                     ++ [off_duty_block (Py.round2 current)
                                        (Py.round2 (start_hour act))
                                        (Py.round2 (start_hour act - current))])
                    ++ [act]) (end_hour act)) as [added [c [Hrun Hgaps]]].
      exists (off_duty_block (Py.round2 current) (Py.round2 (start_hour act))
                             (Py.round2 (start_hour act - current))
              :: act :: added), c.
      rewrite Hrun, <- !app_assoc. split; [reflexivity |].
      apply gaps_block, gaps_keep, Hgaps.
    + destruct (IH (filled ++ [act]) (end_hour act)) as [added [c [Hrun Hgaps]]].
      exists (act :: added), c.
      rewrite Hrun, <- app_assoc. split; [reflexivity |].
      apply gaps_keep, Hgaps.
Qed.

Lemma with_gaps_nothing (acts : list Activity) : with_gaps acts [] -> acts = [].
Proof.
  intros H. inversion H. reflexivity.
Qed.

Lemma fill_gaps_with_gaps (acts : list Activity) :
  with_gaps (sort_by_start acts) (_fill_gaps acts).
Proof.
  destruct acts as [| act rest].
  - simpl. apply gaps_block, gaps_nil.
  - unfold _fill_gaps.
    destruct (fill_loop_with_gaps (sort_by_start (act :: rest)) [] 0.0)
      as [added [c [Hrun Hgaps]]].
    rewrite Hrun. simpl app.
    destruct (c <? 23.99); [apply with_gaps_end |]; exact Hgaps.
Qed.

(** X10.  [_fill_gaps] loses no activity and invents none: its result holds
    the activities it was given, ordered by start hour, and besides them
    only off-duty blocks; it is never empty. *)
Theorem X10_fill_gaps_keeps_activities (acts : list Activity) :
  with_gaps (sort_by_start acts) (_fill_gaps acts)
  /\ Permutation acts (sort_by_start acts)
  /\ Sorted (fun a b => start_hour a <= start_hour b) (sort_by_start acts)
  /\ _fill_gaps acts <> [].
Proof.
  split; [| split; [apply sort_by_start_perm |
                    split; [apply sort_by_start_sorted |]]].
  - apply fill_gaps_with_gaps.
  - destruct acts as [| act rest]; [discriminate |].
    unfold _fill_gaps.
    destruct (fill_loop_with_gaps (sort_by_start (act :: rest)) [] 0.0)
      as [added [c [Hrun Hgaps]]].
    rewrite Hrun. simpl app.
    assert (Hne : added <> []).
    { intros ->. apply with_gaps_nothing in Hgaps.
      pose proof (sort_by_start_perm (act :: rest)) as Hp.
      rewrite Hgaps in Hp. apply Permutation_sym, Permutation_nil in Hp.
      discriminate. }
    destruct (c <? 23.99); [| exact Hne].
    intros Hnil. apply app_eq_nil in Hnil. destruct Hnil as [_ Hnil]. discriminate.
Qed.

(** ** The cover of a day *)

Ltac hours_in_day :=
  unfold hour_in_day in *;
  repeat match goal with
         | |- context [Py.max ?a ?b] =>
             let E := fresh "E" in
             destruct (max_spec a b) as [[? E] | [? E]]; rewrite E in *; clear E
         | |- context [Py.min ?a ?b] =>
             let E := fresh "E" in
             destruct (min_spec a b) as [[? E] | [? E]]; rewrite E in *; clear E
         end.

(** An event that starts at the end of the day or later is skipped. *)
Lemma day_step_after (day_start day_end : Q) (acc : DayAcc) (e : Event) :
  day_end <= e_clock e ->
  day_step day_start day_end acc e = acc.
Proof.
  intros H. unfold day_step.
  destruct (leb_spec (e_clock e + e_duration e) day_start); [reflexivity |].
  destruct (leb_spec day_end (e_clock e)); [reflexivity | lra].
Qed.

(** The clipped activities of a day cover it from where the timeline
    enters the day to where the timeline leaves it. *)
Lemma day_tiles (day_start day_end : Q) (events : list Event) :
  hundredths day_start -> hundredths day_end -> day_start < day_end ->
  forall (start finish : Q) (acc : DayAcc),
    timeline start events finish ->
    exists acts : list Activity,
      day_activities (fold_left (day_step day_start day_end) events acc)
      = day_activities acc ++ acts
      /\ tiles (hour_in_day day_start day_end start) acts
               (hour_in_day day_start day_end finish).
Proof.
  intros Hds Hde Hday.
  induction events as [| e rest IH]; intros start finish acc H.
  - exists []. simpl in *. rewrite app_nil_r. split; [reflexivity |].
    hours_in_day; lra.
  - destruct H as (Hc & Hhc & Hhd & Hd & Hrest).
    set (ev_end := e_clock e + e_duration e) in *.
    change (fold_left (day_step day_start day_end) (e :: rest) acc)
      with (fold_left (day_step day_start day_end) rest
                      (day_step day_start day_end acc e)).
    destruct (IH ev_end finish (day_step day_start day_end acc e) Hrest)
      as [acts [Hrun Htiles]].
    destruct (Qlt_le_dec day_start ev_end) as [Hin | Hout];
      [destruct (Qlt_le_dec (e_clock e) day_end) as [Hbefore | Hafter] |].
    + set (clipped_start := Py.max (e_clock e) day_start - day_start).
      set (clipped_end := Py.min ev_end day_end - day_start).
      assert (Hend : clipped_end == hour_in_day day_start day_end ev_end).
      { unfold clipped_end. hours_in_day; lra. }
      assert (Hstart : clipped_start == hour_in_day day_start day_end start).
      { unfold clipped_start. hours_in_day; lra. }
      assert (Hlen : 0 < clipped_end - clipped_start).
      { unfold clipped_start, clipped_end, ev_end in *. hours_in_day; lra. }
      assert (Hh_start : hundredths clipped_start).
      { apply hundredths_minus; [apply hundredths_max |]; assumption. }
      assert (Hh_end : hundredths clipped_end).
      { apply hundredths_minus; [apply hundredths_min |]; try assumption.
        apply hundredths_plus; assumption. }
      assert (Hh_len : hundredths (clipped_end - clipped_start)).
      { apply hundredths_minus; assumption. }
      pose proof (hundredths_positive _ Hh_len Hlen) as Hkeep.
      pose proof (day_step_inside day_start day_end acc e) as Hstep.
      cbv zeta in Hstep. fold ev_end clipped_start clipped_end in Hstep.
      specialize (Hstep Hin Hbefore Hkeep).
      rewrite Hstep, <- app_assoc in Hrun.
      eexists. split; [exact Hrun |].
      pose proof (round2_id _ Hh_start) as Rs.
      pose proof (round2_id _ Hh_end) as Re.
      pose proof (round2_id _ Hh_len) as Rl.
      set (h_start := hour_in_day day_start day_end start) in *.
      set (h_end := hour_in_day day_start day_end ev_end) in *.
      simpl. repeat split; try lra.
      * apply round2_hundredths.
      * apply (tiles_start acts h_end); [lra | exact Htiles].
    + rewrite (day_step_after day_start day_end acc e Hafter) in Hrun |- *.
      exists acts. split; [exact Hrun |].
      apply (tiles_start acts (hour_in_day day_start day_end ev_end));
        [| exact Htiles].
      unfold ev_end in *. hours_in_day; lra.
    + rewrite (day_step_before day_start day_end acc e Hout) in Hrun |- *.
      exists acts. split; [exact Hrun |].
      apply (tiles_start acts (hour_in_day day_start day_end ev_end));
        [| exact Htiles].
      unfold ev_end in *. hours_in_day; lra.
Qed.

Lemma tiles_app (l1 l2 : list Activity) :
  forall a b c, tiles a l1 b -> tiles b l2 c -> tiles a (l1 ++ l2) c.
Proof.
  induction l1 as [| act rest IH]; intros a b c H1 H2; simpl in *.
  - apply (tiles_start l2 b); [lra | exact H2].
  - destruct H1 as (? & ? & ? & ? & H1). repeat split; try assumption.
    eapply IH; eassumption.
Qed.

Lemma tiles_end_hundredths (acts : list Activity) :
  forall a b, tiles a acts b -> hundredths a -> hundredths b.
Proof.
  induction acts as [| act rest IH]; intros a b H Ha; simpl in H.
  - apply (hundredths_eq a); assumption.
  - destruct H as (Hs & Hlt & Hd & Hh & Hrest). apply (IH _ _ Hrest).
    apply (hundredths_eq (a + a_duration act)); [lra |].
    apply hundredths_plus; assumption.
Qed.

(** The block that [_fill_gaps] may put before the first activity. *)
Lemma fill_front (act : Activity) (rest : list Activity) (a b : Q) :
  tiles a (act :: rest) b -> hundredths a -> 0 <= a ->
  exists a' : Q,
    tiles a'
          ((if start_hour act >? 0.0 + 0.01
            then [] ++ [off_duty_block (Py.round2 0.0)
                                       (Py.round2 (start_hour act))
                                       (Py.round2 (start_hour act - 0.0))]
            else []) ++ act :: rest) b
    /\ (a' == 0 \/ (a' == 0.01 /\ a == 0.01)).
Proof.
  intros Htiles Ha Hpos.
  pose proof Htiles as (Hs & _).
  assert (Hh : hundredths (start_hour act)).
  { apply (hundredths_eq a); [lra | exact Ha]. }
  destruct (ltb_spec (0.0 + 0.01) (start_hour act)) as [Hgap | Hnone].
  - exists 0. split; [| left; reflexivity].
    pose proof (round2_id _ Hh) as R.
    assert (H0 : hundredths 0.0) by (exists 0%Z; reflexivity).
    assert (Hh' : hundredths (start_hour act - 0.0)).
    { apply hundredths_minus; [exact Hh | exact H0]. }
    pose proof (round2_id _ Hh') as R'.
    apply (tiles_app _ _ 0 a b); [| exact Htiles].
    pose proof (round2_id 0.0 H0) as R0.
    cbn [tiles app off_duty_block start_hour end_hour a_duration].
    repeat split; try lra. apply round2_hundredths.
  - destruct (Qlt_le_dec 0 a) as [Hlt | Hzero].
    + exists a. split; [exact Htiles |].
      pose proof (hundredths_positive _ Ha Hlt). right. lra.
    + exists a. split; [exact Htiles | left; lra].
Qed.

(** The block that [_fill_gaps] may put after the last activity. *)
Lemma fill_back (filled : list Activity) (a b current : Q) :
  tiles a filled b -> hundredths b -> b <= 24 -> current == b ->
  exists b' : Q,
    tiles a
          (if current <? 23.99
           then filled ++ [off_duty_block (Py.round2 current) 24.0
                                          (Py.round2 (24 - current))]
           else filled) b'
    /\ (b' == 24 \/ (b' == 23.99 /\ b == 23.99)).
Proof.
  intros Htiles Hb Hle Hc.
  destruct (ltb_spec current 23.99) as [Hgap | Hnone].
  - exists 24. split; [| left; reflexivity].
    rewrite (round2_proper current b Hc).
    rewrite (round2_proper (24 - current) (24 - b)) by (rewrite Hc; reflexivity).
    pose proof (round2_id _ Hb) as R.
    assert (Hh' : hundredths (24 - b)).
    { apply hundredths_minus; [apply hundredths_24 | exact Hb]. }
    pose proof (round2_id _ Hh') as R'.
    apply (tiles_app _ _ a b 24); [exact Htiles |].
    simpl. repeat split; try lra. apply round2_hundredths.
  - exists b. split; [exact Htiles |].
    destruct (Qlt_le_dec b 24) as [Hlt | Hfull]; [| left; lra].
    assert (Hh' : hundredths (24 - b)).
    { apply hundredths_minus; [apply hundredths_24 | exact Hb]. }
    assert (Hpos : 0 < 24 - b) by lra.
    pose proof (hundredths_positive _ Hh' Hpos). right. lra.
Qed.

(** Gap filling of activities that cover the day from [a] to [b]: the
    result covers it from 0 to 24, but for a hundredth of an hour that is
    left out where [a] is 0.01 or [b] is 23.99. *)
Lemma fill_gaps_cover (acts : list Activity) (a b : Q) :
  tiles a acts b -> (acts <> [] -> hundredths a) -> 0 <= a -> b <= 24 ->
  exists a' b' : Q,
    tiles a' (_fill_gaps acts) b'
    /\ (a' == 0 \/ (a' == 0.01 /\ a == 0.01))
    /\ (b' == 24 \/ (b' == 23.99 /\ b == 23.99)).
Proof.
  intros Htiles Ha Hpos Hle.
  destruct acts as [| act rest].
  - exists 0, 24. split; [| split; left; reflexivity].
    simpl. repeat split; try lra. apply hundredths_24.
  - assert (Ha' : hundredths a) by (apply Ha; discriminate).
    pose proof (tiles_end_hundredths _ _ _ Htiles Ha') as Hb.
    destruct (fill_front act rest a b Htiles Ha' Hpos) as [a' [Hfront Hstart]].
    unfold _fill_gaps. cbv beta iota zeta.
    rewrite (tiles_sorted _ _ _ Htiles).
    destruct Htiles as (_ & _ & _ & _ & Hrest).
    cbn [fill_loop].
    match goal with
    | |- context [fill_loop rest ?f (end_hour act)] =>
        destruct (fill_loop_tiles rest (end_hour act) b f (end_hour act)
                                  Hrest (Qeq_refl _))
          as [current [Hrun Hend]]
    end.
    rewrite <- app_assoc in Hrun.
    change ([act] ++ rest) with (act :: rest) in Hrun. rewrite Hrun.
    destruct (fill_back _ a' b current Hfront Hb Hle Hend) as [b' [Hback Hfinish]].
    exists a', b'. split; [exact Hback | split; assumption].
Qed.

(** In exact arithmetic the activities of a daily log of events that
    follow each other cover the day from hour 0 to hour 24; one hundredth
    of an hour is left out at the start of the day when the first event
    starts at 0.01 of that day, and at its end when the last event ends at
    23.99 of that day. *)
Lemma daily_log_tiles (events : list Event) (start finish : Q)
        (start_date day_idx : Z) :
  timeline start events finish ->
  let day_start := inject_Z (day_idx * 24) in
  let day_end := inject_Z ((day_idx + 1) * 24) in
  exists a b : Q,
    tiles a (activities (daily_log events start_date day_idx)) b
    /\ (a == 0 \/ (a == 0.01 /\ hour_in_day day_start day_end start == 0.01))
    /\ (b == 24
        \/ (b == 23.99 /\ hour_in_day day_start day_end finish == 23.99)).
Proof.
  intros Htl. cbv zeta.
  set (day_start := inject_Z (day_idx * 24)).
  set (day_end := inject_Z ((day_idx + 1) * 24)).
  assert (Hday : day_end == day_start + 24).
  { unfold day_start, day_end, Qeq; simpl. lia. }
  assert (Hlt : day_start < day_end) by lra.
  destruct (day_tiles day_start day_end events (hundredths_Z _) (hundredths_Z _)
                      Hlt start finish
                      {| day_activities := []; day_miles := 0.0;
                         day_remarks := [] |} Htl)
    as [acts [Hrun Htiles]].
  simpl in Hrun.
  unfold daily_log. cbn [activities]. fold day_start day_end.
  unfold day_loop. rewrite Hrun.
  apply (fill_gaps_cover acts _ _ Htiles).
  - intros Hne. destruct events as [| e rest].
    + simpl in Hrun. subst acts. contradiction.
    + destruct Htl as (Hc & Hhc & _).
      apply hundredths_minus; [| apply hundredths_Z].
      apply hundredths_min; [| apply hundredths_Z].
      apply hundredths_max; [| apply hundredths_Z].
      apply (hundredths_eq (e_clock e)); assumption.
  - hours_in_day; lra.
  - hours_in_day; lra.
Qed.

Lemma tiles_nearly (acts : list Activity) :
  forall a b b0 : Q,
    tiles a acts b -> b <= b0 <= b + 0.01 -> nearly_tiles a acts b0.
Proof.
  induction acts as [| act rest IH]; intros a b b0 H Hb; simpl in *.
  - lra.
  - destruct H as (Hs & Hlt & Hd & _ & Hrest).
    repeat split; try lra. apply (IH _ b); assumption.
Qed.

(** X11.  The activities of a daily log of events that follow each other
    are in the order of the day, do not overlap, and cover the day from
    hour 0 to hour 24 but for hundredths: between two of them, before the
    first and after the last, at most 0.01 hour is left out.  (In exact
    arithmetic that happens only at the two ends of a day, [daily_log_tiles];
    on doubles a clipped event of 0.01 hour can fall under the threshold of
    the partitioner and leave its hundredth uncovered,
    [hundredth_left_out_on_doubles].) *)
Theorem X11_every_day_is_nearly_covered (events : list Event) (start finish : Q)
        (start_date day_idx : Z) :
  timeline start events finish ->
  nearly_tiles 0 (activities (daily_log events start_date day_idx)) 24.
Proof.
  intros Htl.
  destruct (daily_log_tiles events start finish start_date day_idx Htl)
    as (a & b & Htiles & Ha & Hb).
  assert (Ha' : 0 <= a <= 0.01) by (destruct Ha as [E | [E _]]; lra).
  assert (Hb' : b <= 24 <= b + 0.01) by (destruct Hb as [E | [E _]]; lra).
  destruct (activities (daily_log events start_date day_idx)) as [| act rest].
  - simpl in Htiles. lra.
  - destruct Htiles as (Hs & Hlt & Hd & _ & Hrest). simpl.
    repeat split; try lra. apply (tiles_nearly rest _ b); assumption.
Qed.

Lemma X11_every_day_is_nearly_covered_witness :
  let events :=
    [ {| e_status := on_duty_not_driving; e_clock := 8; e_duration := 0.25;
         e_description := Text "Pre-trip inspection";
         e_location := Place "Tulsa"; e_distance := 0; e_miles := None |};
      {| e_status := driving; e_clock := 8.25; e_duration := 20;
         e_description := DrivingMiles 1100;
         e_location := EnRoute 50 "Tulsa" "Omaha"; e_distance := 1100;
         e_miles := Some 1100 |} ] in
  nearly_tiles 0 (activities (daily_log events 739000 1)) 24.
Proof.
  cbv zeta.
  apply (X11_every_day_is_nearly_covered _ 8 28.25 739000 1).
  simpl. repeat split; try reflexivity; try lra;
    apply has_two_decimals_ok; reflexivity.
Defined.

(** ** The miles of the days *)

Lemma sum_over_app {A : Type} (f : A -> Q) (l1 l2 : list A) :
  sum_over f (l1 ++ l2) == sum_over f l1 + sum_over f l2.
Proof.
  induction l1 as [| x rest IH]; simpl; [| rewrite IH]; lra.
Qed.

Lemma sum_over_map {A B : Type} (f : B -> Q) (g : A -> B) (l : list A) :
  sum_over f (map g l) = sum_over (fun x => f (g x)) l.
Proof.
  induction l as [| x rest IH]; simpl; [| rewrite IH]; reflexivity.
Qed.

Lemma sum_over_ext {A : Type} (f g : A -> Q) (l : list A) :
  (forall x, In x l -> f x == g x) -> sum_over f l == sum_over g l.
Proof.
  induction l as [| x rest IH]; intros H; simpl; [reflexivity |].
  rewrite (H x (or_introl eq_refl)), IH; [reflexivity |].
  intros y Hy. apply H. right. exact Hy.
Qed.

Lemma sum_over_plus {A : Type} (f g : A -> Q) (l : list A) :
  sum_over (fun x => f x + g x) l == sum_over f l + sum_over g l.
Proof.
  induction l as [| x rest IH]; simpl; [| rewrite IH]; lra.
Qed.

Lemma sum_over_zero {A : Type} (l : list A) : sum_over (fun _ => 0) l == 0.
Proof.
  induction l as [| x rest IH]; simpl; [| rewrite IH]; lra.
Qed.

Lemma round1_proper (x y : Q) : x == y -> Py.round1 x = Py.round1 y.
Proof.
  intros E. unfold Py.round1.
  rewrite (round_half_even_proper (x * 10) (y * 10)); [reflexivity |].
  rewrite E. reflexivity.
Qed.

(** The miles of an event go to the day in which the event starts. *)
Lemma day_step_miles (day_start day_end : Q) (acc : DayAcc) (e : Event) :
  hundredths day_start -> hundredths day_end ->
  hundredths (e_clock e) -> hundredths (e_duration e) -> 0 < e_duration e ->
  day_miles (day_step day_start day_end acc e)
  == day_miles acc + (if starts_in day_start day_end e then miles_of e else 0).
Proof.
  intros Hds Hde Hc Hd Hpos. unfold day_step, starts_in.
  destruct (leb_spec (e_clock e + e_duration e) day_start) as [Hout | Hin].
  - destruct (leb_spec day_start (e_clock e)); simpl; lra.
  - destruct (leb_spec day_end (e_clock e)) as [Hafter | Hbefore].
    + destruct (leb_spec day_start (e_clock e));
        destruct (ltb_spec (e_clock e) day_end); simpl; lra.
    + simpl orb. cbv iota.
      set (clipped_start := Py.max (e_clock e) day_start - day_start).
      set (clipped_end := Py.min (e_clock e + e_duration e) day_end - day_start).
      destruct (ltb_spec (e_clock e) day_end) as [_ | Hno]; [| lra].
      destruct (leb_spec day_start (e_clock e)) as [Hge | Hlt].
      * assert (Hlen : 0 < clipped_end - clipped_start).
        { unfold clipped_start, clipped_end.
          destruct (max_spec (e_clock e) day_start) as [[? ->] | [? ->]];
            destruct (min_spec (e_clock e + e_duration e) day_end)
            as [[? ->] | [? ->]]; lra. }
        assert (Hh : hundredths (clipped_end - clipped_start)).
        { apply hundredths_minus; apply hundredths_minus;
            try apply hundredths_max; try apply hundredths_min;
            try apply hundredths_plus; assumption. }
        pose proof (hundredths_positive _ Hh Hlen) as Hkeep.
        destruct (ltb_spec (clipped_end - clipped_start) 0.01); [lra |].
        cbn [day_miles andb]. unfold miles_of.
        destruct (e_miles e) as [miles |]; [| lra].
        destruct (Qeq_bool miles 0) eqn:Hz; cbn [negb andb]; [| lra].
        apply Qeq_bool_iff in Hz. lra.
      * destruct (ltb_spec (clipped_end - clipped_start) 0.01);
          cbn [day_miles andb]; [lra |].
        destruct (e_miles e) as [miles |]; [| lra].
        rewrite andb_false_r. lra.
Qed.

Lemma day_fold_miles (day_start day_end : Q) (events : list Event) :
  hundredths day_start -> hundredths day_end ->
  forall (start finish : Q) (acc : DayAcc),
    timeline start events finish ->
    day_miles (fold_left (day_step day_start day_end) events acc)
    == day_miles acc + miles_started_in day_start day_end events.
Proof.
  intros Hds Hde.
  induction events as [| e rest IH]; intros start finish acc H.
  - unfold miles_started_in, sum_miles. simpl. lra.
  - destruct H as (_ & Hc & Hd & Hpos & Hrest).
    change (fold_left (day_step day_start day_end) (e :: rest) acc)
      with (fold_left (day_step day_start day_end) rest
                      (day_step day_start day_end acc e)).
    rewrite (IH _ _ _ Hrest).
    rewrite (day_step_miles day_start day_end acc e Hds Hde Hc Hd Hpos).
    unfold miles_started_in, sum_miles. simpl.
    destruct (starts_in day_start day_end e); simpl; lra.
Qed.

(** Of the days numbered from 0 to [k - 1], an event starts in one, when
    it starts before hour [24 k], and in none otherwise. *)
Lemma one_event_days (e : Event) (k : nat) :
  sum_over (fun d => if starts_in (inject_Z (d * 24)) (inject_Z ((d + 1) * 24)) e
                     then miles_of e else 0)
           (map Z.of_nat (seq 0 k))
  == if (0 <=? e_clock e) && (e_clock e <? inject_Z (Z.of_nat k * 24))
     then miles_of e else 0.
Proof.
  induction k as [| k IH].
  - simpl.
    destruct (leb_spec 0 (e_clock e)); destruct (ltb_spec (e_clock e) (inject_Z 0));
      simpl; try lra.
    unfold inject_Z in *. lra.
  - rewrite seq_S, map_app, sum_over_app, IH.
    unfold sum_over. cbn [Nat.add map fold_right].
    replace (Z.of_nat (S k)) with (Z.of_nat k + 1)%Z by lia.
    assert (Hnext : inject_Z ((Z.of_nat k + 1) * 24)
                    == inject_Z (Z.of_nat k * 24) + 24).
    { unfold Qeq; simpl. lia. }
    assert (Hk : 0 <= inject_Z (Z.of_nat k * 24)).
    { change 0 with (inject_Z 0). rewrite <- Zle_Qle. lia. }
    unfold starts_in.
    destruct (leb_spec 0 (e_clock e));
      destruct (ltb_spec (e_clock e) (inject_Z (Z.of_nat k * 24)));
      destruct (leb_spec (inject_Z (Z.of_nat k * 24)) (e_clock e));
      destruct (ltb_spec (e_clock e) (inject_Z ((Z.of_nat k + 1) * 24)));
      cbn [andb]; lra.
Qed.

Lemma days_miles_add_up (events : list Event) (k : nat) :
  Forall (fun e => 0 <= e_clock e /\ e_clock e < inject_Z (Z.of_nat k * 24))
         events ->
  sum_over (fun d => miles_started_in (inject_Z (d * 24))
                                      (inject_Z ((d + 1) * 24)) events)
           (map Z.of_nat (seq 0 k))
  == sum_miles events.
Proof.
  induction 1 as [| e rest [Hge Hlt] _ IH].
  - exact (sum_over_zero (map Z.of_nat (seq 0 k))).
  - transitivity
      (sum_over
         (fun d =>
            (if starts_in (inject_Z (d * 24)) (inject_Z ((d + 1) * 24)) e
             then miles_of e else 0)
            + miles_started_in (inject_Z (d * 24)) (inject_Z ((d + 1) * 24)) rest)
         (map Z.of_nat (seq 0 k))).
    + apply sum_over_ext. intros d _.
      unfold miles_started_in, sum_miles. simpl.
      destruct (starts_in _ _ e); simpl; lra.
    + rewrite sum_over_plus, one_event_days, IH.
      destruct (leb_spec 0 (e_clock e)); [| lra].
      destruct (ltb_spec (e_clock e) (inject_Z (Z.of_nat k * 24))); [| lra].
      unfold sum_miles. simpl. lra.
Qed.

Lemma timeline_clocks (events : list Event) :
  forall start finish,
    timeline start events finish ->
    Forall (fun e => start <= e_clock e /\ e_clock e < finish) events.
Proof.
  induction events as [| e rest IH]; intros start finish H; constructor.
  - destruct H as (Hc & _ & _ & Hpos & Hrest).
    pose proof (timeline_le _ _ _ Hrest). lra.
  - destruct H as (Hc & _ & _ & Hpos & Hrest).
    apply (Forall_impl _ (P := fun e' => e_clock e + e_duration e <= e_clock e'
                                         /\ e_clock e' < finish));
      [| exact (IH _ _ Hrest)].
    intros e' [H1 H2]. lra.
Qed.

(** The days counted by [num_days] reach the end of the last event. *)
Lemma num_days_cover (last_event : Event) :
  total_hours last_event <= inject_Z (num_days last_event * 24).
Proof.
  unfold num_days, Py.ceil.
  set (x := total_hours last_event).
  pose proof (Qle_ceiling (x / 24)) as Hceil.
  assert (Hmax : inject_Z (Qceiling (x / 24))
                 <= inject_Z (Z.max 1 (Qceiling (x / 24)))).
  { rewrite <- Zle_Qle. lia. }
  rewrite inject_Z_mult. change (inject_Z 24) with 24.
  assert (Hx : x == x / 24 * 24) by (field; discriminate).
  lra.
Qed.

Lemma miles_started_tenths (day_start day_end : Q) (events : list Event) :
  Forall (fun e => tenths (miles_of e)) events ->
  tenths (miles_started_in day_start day_end events).
Proof.
  induction 1 as [| e rest He _ IH]; unfold miles_started_in in *; simpl.
  - apply tenths_0.
  - destruct (starts_in day_start day_end e); [| exact IH].
    apply tenths_plus; assumption.
Qed.

(** The miles of a day are those of the events that start in it. *)
Lemma daily_miles (events : list Event) (start finish : Q)
      (start_date day_idx : Z) :
  timeline start events finish ->
  total_miles (daily_log events start_date day_idx)
  = Py.round1 (miles_started_in (inject_Z (day_idx * 24))
                                (inject_Z ((day_idx + 1) * 24)) events).
Proof.
  intros Htl. unfold daily_log. cbn [total_miles]. apply round1_proper.
  unfold day_loop.
  rewrite (day_fold_miles _ _ events (hundredths_Z _) (hundredths_Z _)
                          start finish _ Htl).
  cbn [day_miles]. lra.
Qed.

(** The miles of the days add up to the miles of the events. *)
Lemma logs_miles_add_up (events : list Event) (start finish : Q)
      (start_date : Z) :
  timeline start events finish -> 0 <= start ->
  Forall (fun e => tenths (miles_of e)) events ->
  sum_over total_miles (generate_daily_logs events start_date)
  == sum_miles events.
Proof.
  intros Htl Hstart Hmiles.
  destruct events as [| first rest]; [reflexivity |].
  unfold generate_daily_logs. rewrite sum_over_map. unfold range.
  set (events := first :: rest) in *.
  set (n := num_days (last events first)).
  transitivity
    (sum_over (fun d => miles_started_in (inject_Z (d * 24))
                                         (inject_Z ((d + 1) * 24)) events)
              (map Z.of_nat (seq 0 (Z.to_nat n)))).
  - apply sum_over_ext. intros d _.
    rewrite (daily_miles events start finish start_date d Htl).
    apply round1_id, miles_started_tenths, Hmiles.
  - apply days_miles_add_up.
    pose proof (timeline_last rest first start finish Htl) as Hlast.
    pose proof (num_days_cover (last events first)) as Hcover.
    fold n in Hcover.
    rewrite Z2Nat.id by (pose proof (num_days_positive (last events first)); lia).
    apply (Forall_impl _ (P := fun e => start <= e_clock e /\ e_clock e < finish));
      [| exact (timeline_clocks _ _ _ Htl)].
    intros e [H1 H2]. fold events in Hlast. lra.
Qed.

(** X12.  The daily logs never count a mile twice, nor a mile that was not
    driven.  For events that follow each other, with miles of one decimal
    that are not negative, the miles of a daily log are at most those of
    the events that start in that day (driving that goes on past midnight
    counts for the day in which it started), and when the events start at
    hour 0 or later the miles of the daily logs add up to at most the miles
    of the events.  In exact arithmetic they are equal ([daily_miles],
    [logs_miles_add_up]); on doubles a driving event of 0.01 hour can fall
    under the threshold of the partitioner, and its miles are then left out
    ([hundredth_left_out_on_doubles]). *)
Theorem X12_miles_of_the_days (events : list Event) (start finish : Q)
        (start_date : Z) :
  timeline start events finish ->
  Forall (fun e => tenths (miles_of e) /\ 0 <= miles_of e) events ->
  (forall day_idx : Z,
      total_miles (daily_log events start_date day_idx)
      <= miles_started_in (inject_Z (day_idx * 24))
                          (inject_Z ((day_idx + 1) * 24)) events)
  /\ (0 <= start ->
      sum_over total_miles (generate_daily_logs events start_date)
      <= sum_miles events).
Proof.
  intros Htl Hmiles.
  assert (Htenths : Forall (fun e => tenths (miles_of e)) events).
  { apply (Forall_impl _ (P := fun e => tenths (miles_of e) /\ 0 <= miles_of e));
      [intros e [H _]; exact H | exact Hmiles]. }
  split.
  - intros day_idx. rewrite (daily_miles events start finish _ _ Htl).
    rewrite round1_id by (apply miles_started_tenths; exact Htenths).
    apply Qle_refl.
  - intros Hstart.
    rewrite (logs_miles_add_up events start finish start_date Htl Hstart Htenths).
    apply Qle_refl.
Qed.

Lemma X12_miles_of_the_days_witness :
  let events :=
    [ {| e_status := on_duty_not_driving; e_clock := 8; e_duration := 0.25;
         e_description := Text "Pre-trip inspection";
         e_location := Place "Tulsa"; e_distance := 0; e_miles := None |};
      {| e_status := driving; e_clock := 8.25; e_duration := 20;
         e_description := DrivingMiles 1100;
         e_location := EnRoute 50 "Tulsa" "Omaha"; e_distance := 0;
         e_miles := Some 1100 |} ] in
  sum_over total_miles (generate_daily_logs events 739000) <= sum_miles events.
Proof.
  cbv zeta.
  refine (proj2 (X12_miles_of_the_days _ 8 28.25 739000 _ _) _).
  - simpl. repeat split; try reflexivity; try lra;
      apply has_two_decimals_ok; reflexivity.
  - repeat constructor; try (exists 0%Z; reflexivity);
      try (exists 11000%Z; reflexivity); unfold miles_of; simpl; lra.
  - lra.
Defined.

(** ** The miles of a simulated trip *)

Lemma miles_recorded_evt (events : list Event) (status : Status)
      (clock duration : Q) (desc : Description) (loc : Location)
      (distance : Q) (miles : option Q) :
  Forall (fun e => tenths (miles_of e)) events ->
  Forall (fun e => tenths (miles_of e))
         (events ++ [_evt status clock duration desc loc distance miles]).
Proof.
  intros H. apply Forall_app. split; [exact H |].
  constructor; [| constructor]. unfold miles_of, _evt. simpl.
  destruct miles; simpl; [apply round1_tenths | apply tenths_0].
Qed.

Lemma run_trip_miles_recorded (fuel : nat) (initial_cycle : Q)
      (leg1_miles leg1_hours leg2_miles leg2_hours : Q)
      (current_loc pickup_loc dropoff_loc : string)
      (events : list Event) (s : State) :
  run_trip fuel initial_cycle leg1_miles leg1_hours leg2_miles leg2_hours
           current_loc pickup_loc dropoff_loc = Some (events, s) ->
  miles_recorded (events, s).
Proof.
  apply (run_trip_keeps miles_recorded); unfold miles_recorded.
  - intros ev s0 loc H. apply miles_recorded_evt. exact H.
  - intros ev s0 loc H. apply miles_recorded_evt. exact H.
  - intros ev s0 loc H. apply miles_recorded_evt. exact H.
  - intros ev s0 loc H. apply miles_recorded_evt. exact H.
  - intros ev s0 loc remaining avg_speed H _ _ _ _ _.
    apply miles_recorded_evt. exact H.
  - intros ev s0 loc H. unfold initial_restart.
    destruct (_ >=? MAX_CYCLE); [| exact H].
    apply miles_recorded_evt. exact H.
  - intros ev s0 d l H. apply miles_recorded_evt. exact H.
  - intros ev s0 d l H. apply miles_recorded_evt. exact H.
  - constructor.
Qed.

(** X13.  The daily logs of a simulated trip never report more miles than
    the trip: their miles add up to at most the total distance the
    simulator returns.  In exact arithmetic they add up to it; on doubles
    the miles of a driving event of 0.01 hour can be missing from the logs
    ([hundredth_left_out_on_doubles]). *)
Theorem X13_daily_miles_of_a_trip
        (fuel : nat) (current_cycle_used : Q)
        (leg1_miles leg1_hours leg2_miles leg2_hours : Q)
        (current_loc pickup_loc dropoff_loc : string) (r : TripResult)
        (start_date : Z) :
  simulate fuel current_cycle_used leg1_miles leg1_hours leg2_miles leg2_hours
           current_loc pickup_loc dropoff_loc = Some r ->
  sum_over total_miles (generate_daily_logs (r_events r) start_date)
  <= r_total_distance r.
Proof.
  unfold simulate, calculate_trip.
  destruct (run_trip _ _ _ _ _ _ _ _ _) as [[events s] |] eqn:Hrun;
    [| discriminate].
  intros Hr; injection Hr as <-. cbn [r_events r_total_distance].
  destruct (run_trip_timeline _ _ _ _ _ _ _ _ _ _ _ Hrun) as [Htl _].
  destruct (run_trip_distance_logged _ _ _ _ _ _ _ _ _ _ _ Hrun)
    as (Ht & Hsum & _).
  pose proof (run_trip_miles_recorded _ _ _ _ _ _ _ _ _ _ _ Hrun) as Hmiles.
  simpl in Htl, Ht, Hsum. unfold miles_recorded in Hmiles. simpl in Hmiles.
  rewrite (logs_miles_add_up events START_HOUR (clock s) start_date Htl);
    [| unfold START_HOUR; lra | exact Hmiles].
  rewrite (round1_id _ Ht). lra.
Qed.

Lemma X13_daily_miles_of_a_trip_witness :
  match simulate 10 20 900 18 300 6 "Tulsa" "Wichita" "Omaha" with
  | Some r =>
      sum_over total_miles (generate_daily_logs (r_events r) 739000)
      <= r_total_distance r
  | None => False
  end.
Proof.
  destruct (simulate 10 20 900 18 300 6 "Tulsa" "Wichita" "Omaha")
    as [r |] eqn:Hrun.
  - apply (X13_daily_miles_of_a_trip _ _ _ _ _ _ _ _ _ _ 739000 Hrun).
  - vm_compute in Hrun. discriminate.
Defined.

(** ** The hours of the days *)

Lemma sum_over_cons {A : Type} (f : A -> Q) (x : A) (l : list A) :
  sum_over f (x :: l) = f x + sum_over f l.
Proof. reflexivity. Qed.

Lemma sum_over_minus {A : Type} (f g : A -> Q) (l : list A) :
  sum_over (fun x => f x - g x) l == sum_over f l - sum_over g l.
Proof.
  induction l as [| x rest IH]; simpl; [| rewrite IH]; lra.
Qed.

(** The loop [for act in activities] of [_calc_totals], one status at a
    time. *)
Lemma fold_status_hours (s : Status) (acts : list Activity) :
  forall t : Totals,
    total_of s (fold_left (fun totals act =>
                             add_to totals (a_status act) (a_duration act))
                          acts t)
    == total_of s t + status_hours s acts.
Proof.
  induction acts as [| act rest IH]; intros t.
  - unfold status_hours. simpl. lra.
  - change (fold_left (fun totals act0 =>
                         add_to totals (a_status act0) (a_duration act0))
                      (act :: rest) t)
      with (fold_left (fun totals act0 =>
                         add_to totals (a_status act0) (a_duration act0))
                      rest (add_to t (a_status act) (a_duration act))).
    rewrite IH. unfold status_hours. rewrite sum_over_cons.
    destruct s, (a_status act); simpl; lra.
Qed.

(** The fix of [_calc_totals] touches the off-duty total only: the other
    totals are the hours of the activities. *)
Lemma calc_totals_status (s : Status) (acts : list Activity) :
  s <> off_duty -> hundredths (status_hours s acts) ->
  total_of s (_calc_totals acts) == status_hours s acts.
Proof.
  intros Hs Hh. unfold _calc_totals.
  pose proof (fold_status_hours s acts
                {| t_off_duty := 0.0; t_sleeper_berth := 0.0;
                   t_driving := 0.0; t_on_duty_not_driving := 0.0 |}) as Hfold.
  set (folded := fold_left _ acts _) in *. cbv zeta.
  pose proof (round2_id _ Hh) as R.
  destruct (Qabs _ >? 0.01); destruct s; try contradiction;
    cbn [total_of t_sleeper_berth t_driving t_on_duty_not_driving] in *;
    match goal with
    | |- Py.round2 ?x == ?y => rewrite (round2_proper x y); [exact R | lra]
    end.
Qed.

Lemma with_gaps_status (s : Status) (acts filled : list Activity) :
  with_gaps acts filled -> s <> off_duty ->
  status_hours s filled == status_hours s acts.
Proof.
  intros H Hs. unfold status_hours.
  induction H as [| act acts filled _ IH | a b d acts filled _ IH].
  - reflexivity.
  - rewrite !sum_over_cons, IH. reflexivity.
  - rewrite sum_over_cons, IH. destruct s; try contradiction; simpl; lra.
Qed.

Lemma status_hours_hundredths (s : Status) (acts : list Activity) :
  Forall (fun act => hundredths (a_duration act)) acts ->
  hundredths (status_hours s acts).
Proof.
  unfold status_hours. induction 1 as [| act rest Hact _ IH].
  - apply hundredths_0.
  - rewrite sum_over_cons. apply hundredths_plus; [| exact IH].
    destruct (has_status s (a_status act)); [exact Hact | apply hundredths_0].
Qed.

(** What an event adds to the hours of its status in a day: the part of it
    that falls in the day. *)
Lemma day_step_status (s : Status) (day_start day_end : Q) (acc : DayAcc)
      (e : Event) :
  hundredths day_start -> hundredths day_end -> day_start < day_end ->
  hundredths (e_clock e) -> hundredths (e_duration e) -> 0 < e_duration e ->
  status_hours s (day_activities (day_step day_start day_end acc e))
  == status_hours s (day_activities acc)
     + (if has_status s (e_status e)
        then hour_in_day day_start day_end (e_clock e + e_duration e)
             - hour_in_day day_start day_end (e_clock e)
        else 0).
Proof.
  intros Hds Hde Hday Hc Hd Hpos.
  set (ev_end := e_clock e + e_duration e).
  destruct (Qlt_le_dec day_start ev_end) as [Hin | Hout];
    [destruct (Qlt_le_dec (e_clock e) day_end) as [Hbefore | Hafter] |].
  - set (clipped_start := Py.max (e_clock e) day_start - day_start).
    set (clipped_end := Py.min ev_end day_end - day_start).
    assert (Hend : clipped_end == hour_in_day day_start day_end ev_end).
    { unfold clipped_end. hours_in_day; lra. }
    assert (Hstart : clipped_start == hour_in_day day_start day_end (e_clock e)).
    { unfold clipped_start. hours_in_day; lra. }
    assert (Hlen : 0 < clipped_end - clipped_start).
    { unfold clipped_start, clipped_end, ev_end in *. hours_in_day; lra. }
    assert (Hh_len : hundredths (clipped_end - clipped_start)).
    { apply hundredths_minus; apply hundredths_minus;
        try apply hundredths_max; try apply hundredths_min;
        try apply hundredths_plus; assumption. }
    pose proof (hundredths_positive _ Hh_len Hlen) as Hkeep.
    pose proof (day_step_inside day_start day_end acc e) as Hstep.
    cbv zeta in Hstep. fold ev_end clipped_start clipped_end in Hstep.
    rewrite (Hstep Hin Hbefore Hkeep).
    unfold status_hours. rewrite sum_over_app, sum_over_cons.
    cbn [sum_over fold_right a_status a_duration].
    pose proof (round2_id _ Hh_len) as R.
    destruct (has_status s (e_status e)); lra.
  - rewrite (day_step_after day_start day_end acc e Hafter).
    assert (Hz : hour_in_day day_start day_end ev_end
                 - hour_in_day day_start day_end (e_clock e) == 0).
    { unfold ev_end in *. hours_in_day; lra. }
    destruct (has_status s (e_status e)); lra.
  - rewrite (day_step_before day_start day_end acc e Hout).
    assert (Hz : hour_in_day day_start day_end ev_end
                 - hour_in_day day_start day_end (e_clock e) == 0).
    { unfold ev_end in *. hours_in_day; lra. }
    destruct (has_status s (e_status e)); lra.
Qed.

Lemma day_fold_status (s : Status) (day_start day_end : Q)
      (events : list Event) :
  hundredths day_start -> hundredths day_end -> day_start < day_end ->
  forall (start finish : Q) (acc : DayAcc),
    timeline start events finish ->
    status_hours s (day_activities
                      (fold_left (day_step day_start day_end) events acc))
    == status_hours s (day_activities acc)
       + sum_over (fun e => if has_status s (e_status e)
                            then hour_in_day day_start day_end
                                             (e_clock e + e_duration e)
                                 - hour_in_day day_start day_end (e_clock e)
                            else 0)
                  events.
Proof.
  intros Hds Hde Hday.
  induction events as [| e rest IH]; intros start finish acc H.
  - simpl. lra.
  - destruct H as (_ & Hc & Hd & Hpos & Hrest).
    change (fold_left (day_step day_start day_end) (e :: rest) acc)
      with (fold_left (day_step day_start day_end) rest
                      (day_step day_start day_end acc e)).
    rewrite (IH _ _ _ Hrest).
    rewrite (day_step_status s day_start day_end acc e Hds Hde Hday Hc Hd Hpos).
    rewrite sum_over_cons. lra.
Qed.

(** Over the days numbered from 0 to [k - 1], the hours of the day at
    which [x] falls add up to [x], kept between 0 and [24 k]. *)
Lemma hour_in_days (x : Q) (k : nat) :
  sum_over (fun d => hour_in_day (inject_Z (d * 24)) (inject_Z ((d + 1) * 24)) x)
           (map Z.of_nat (seq 0 k))
  == Py.min (Py.max x 0) (inject_Z (Z.of_nat k * 24)).
Proof.
  induction k as [| k IH].
  - change (inject_Z (Z.of_nat 0 * 24)) with 0.
    change (sum_over
              (fun d => hour_in_day (inject_Z (d * 24))
                                    (inject_Z ((d + 1) * 24)) x)
              (map Z.of_nat (seq 0 0))) with 0.
    hours_in_day; lra.
  - rewrite seq_S, map_app, sum_over_app, IH.
    unfold sum_over. cbn [Nat.add map fold_right].
    replace (Z.of_nat (S k)) with (Z.of_nat k + 1)%Z by lia.
    assert (Hnext : inject_Z ((Z.of_nat k + 1) * 24)
                    == inject_Z (Z.of_nat k * 24) + 24).
    { unfold Qeq; simpl. lia. }
    assert (Hk : 0 <= inject_Z (Z.of_nat k * 24)).
    { change 0 with (inject_Z 0). rewrite <- Zle_Qle. lia. }
    hours_in_day; lra.
Qed.

Lemma days_hours_add_up (keep : Status -> bool) (events : list Event)
      (k : nat) :
  Forall (fun e => 0 <= e_clock e /\ 0 < e_duration e
                   /\ e_clock e + e_duration e <= inject_Z (Z.of_nat k * 24))
         events ->
  sum_over
    (fun d =>
       sum_over (fun e => if keep (e_status e)
                          then hour_in_day (inject_Z (d * 24))
                                           (inject_Z ((d + 1) * 24))
                                           (e_clock e + e_duration e)
                               - hour_in_day (inject_Z (d * 24))
                                             (inject_Z ((d + 1) * 24))
                                             (e_clock e)
                          else 0)
                events)
    (map Z.of_nat (seq 0 k))
  == sum_over (fun e => if keep (e_status e) then e_duration e else 0) events.
Proof.
  induction 1 as [| e rest (Hge & Hpos & Hle) _ IH].
  - exact (sum_over_zero (map Z.of_nat (seq 0 k))).
  - assert (Hone :
             sum_over
               (fun d => if keep (e_status e)
                         then hour_in_day (inject_Z (d * 24))
                                          (inject_Z ((d + 1) * 24))
                                          (e_clock e + e_duration e)
                              - hour_in_day (inject_Z (d * 24))
                                            (inject_Z ((d + 1) * 24))
                                            (e_clock e)
                         else 0)
               (map Z.of_nat (seq 0 k))
             == if keep (e_status e) then e_duration e else 0).
    { destruct (keep (e_status e)); [| apply sum_over_zero].
      rewrite sum_over_minus, !hour_in_days. hours_in_day; lra. }
    rewrite sum_over_cons, <- IH, <- Hone, <- sum_over_plus.
    apply sum_over_ext. intros d _. rewrite sum_over_cons. reflexivity.
Qed.

Lemma sum_where_as_sum_over (keep : Status -> bool) (events : list Event) :
  sum_durations_where keep events
  == sum_over (fun e => if keep (e_status e) then e_duration e else 0) events.
Proof.
  induction events as [| e rest IH].
  - reflexivity.
  - rewrite sum_where_cons, sum_over_cons, IH. reflexivity.
Qed.

Lemma timeline_spans (events : list Event) :
  forall start finish,
    timeline start events finish ->
    Forall (fun e => start <= e_clock e /\ 0 < e_duration e
                     /\ e_clock e + e_duration e <= finish) events.
Proof.
  induction events as [| e rest IH]; intros start finish H; constructor.
  - destruct H as (Hc & _ & _ & Hpos & Hrest).
    pose proof (timeline_le _ _ _ Hrest). repeat split; lra.
  - destruct H as (Hc & _ & _ & Hpos & Hrest).
    apply (Forall_impl _ (P := fun e' => e_clock e + e_duration e <= e_clock e'
                                         /\ 0 < e_duration e'
                                         /\ e_clock e' + e_duration e' <= finish));
      [| exact (IH _ _ Hrest)].
    intros e' (H1 & H2 & H3). repeat split; lra.
Qed.

(** The hours of a status in a daily log are the parts of the events of
    that status that fall in the day. *)
Lemma daily_status_hours (s : Status) (events : list Event) (start finish : Q)
      (start_date day_idx : Z) :
  timeline start events finish -> s <> off_duty ->
  total_of s (totals (daily_log events start_date day_idx))
  == sum_over (fun e => if has_status s (e_status e)
                        then hour_in_day (inject_Z (day_idx * 24))
                                         (inject_Z ((day_idx + 1) * 24))
                                         (e_clock e + e_duration e)
                             - hour_in_day (inject_Z (day_idx * 24))
                                           (inject_Z ((day_idx + 1) * 24))
                                           (e_clock e)
                        else 0)
              events.
Proof.
  intros Htl Hs.
  set (day_start := inject_Z (day_idx * 24)).
  set (day_end := inject_Z ((day_idx + 1) * 24)).
  assert (Hday : day_end == day_start + 24).
  { unfold day_start, day_end, Qeq; simpl. lia. }
  assert (Hlt : day_start < day_end) by lra.
  set (acc := {| day_activities := []; day_miles := 0.0; day_remarks := [] |}).
  destruct (day_tiles day_start day_end events (hundredths_Z _) (hundredths_Z _)
                      Hlt start finish acc Htl)
    as [acts [Hrun Htiles]].
  pose proof (day_fold_status s day_start day_end events (hundredths_Z _)
                              (hundredths_Z _) Hlt start finish acc Htl)
    as Hfold.
  rewrite Hrun in Hfold. change (day_activities acc ++ acts) with acts in *.
  change (status_hours s (day_activities acc)) with 0 in Hfold.
  unfold daily_log. cbn [totals]. fold day_start day_end.
  unfold day_loop. fold acc. rewrite Hrun.
  pose proof (fill_gaps_with_gaps acts) as Hgaps.
  rewrite (tiles_sorted _ _ _ Htiles) in Hgaps.
  pose proof (with_gaps_status s _ _ Hgaps Hs) as Hsame.
  assert (Hh : hundredths (status_hours s (_fill_gaps acts))).
  { apply (hundredths_eq (status_hours s acts)); [lra |].
    apply status_hours_hundredths, (tiles_hundredths _ _ _ Htiles). }
  rewrite (calc_totals_status s _ Hs Hh). lra.
Qed.

Lemma logs_hours_add_up (s : Status) (events : list Event) (start finish : Q)
      (start_date : Z) :
  timeline start events finish -> 0 <= start -> s <> off_duty ->
  sum_over (fun log => total_of s (totals log))
           (generate_daily_logs events start_date)
  == sum_durations_where (has_status s) events.
Proof.
  intros Htl Hstart Hs.
  destruct events as [| first rest]; [reflexivity |].
  unfold generate_daily_logs. rewrite sum_over_map. unfold range.
  set (events := first :: rest) in *.
  set (n := num_days (last events first)).
  rewrite sum_where_as_sum_over.
  rewrite <- (days_hours_add_up (has_status s) events (Z.to_nat n)).
  - apply sum_over_ext. intros d _.
    apply (daily_status_hours s events start finish start_date d Htl Hs).
  - pose proof (timeline_last rest first start finish Htl) as Hlast.
    pose proof (num_days_cover (last events first)) as Hcover.
    fold n in Hcover.
    rewrite Z2Nat.id by (pose proof (num_days_positive (last events first)); lia).
    apply (Forall_impl _ (P := fun e => start <= e_clock e /\ 0 < e_duration e
                                        /\ e_clock e + e_duration e <= finish));
      [| exact (timeline_spans _ _ _ Htl)].
    intros e (H1 & H2 & H3). fold events in Hlast. repeat split; lra.
Qed.

(** X14.  The daily logs never report more hours of driving, of other
    duty or in the sleeper berth than the events: for events that follow
    each other from hour 0 or later, and for each status but off duty, the
    totals of that status over the days add up to at most the durations of
    the events of that status.  An event that goes on past midnight gives
    each day its part, and the fix of [_calc_totals] touches the off-duty
    total only.  In exact arithmetic the two sides are equal
    ([logs_hours_add_up]); on doubles a part of 0.01 hour can fall under
    the threshold of the partitioner and is then missing from the totals
    ([hundredth_left_out_on_doubles]). *)
Theorem X14_hours_of_the_days (s : Status) (events : list Event)
        (start finish : Q) (start_date : Z) :
  timeline start events finish -> 0 <= start -> s <> off_duty ->
  sum_over (fun log => total_of s (totals log))
           (generate_daily_logs events start_date)
  <= sum_durations_where (has_status s) events.
Proof.
  intros Htl Hstart Hs.
  rewrite (logs_hours_add_up s events start finish start_date Htl Hstart Hs).
  apply Qle_refl.
Qed.

Lemma X14_hours_of_the_days_witness :
  let events :=
    [ {| e_status := on_duty_not_driving; e_clock := 8; e_duration := 0.25;
         e_description := Text "Pre-trip inspection";
         e_location := Place "Tulsa"; e_distance := 0; e_miles := None |};
      {| e_status := driving; e_clock := 8.25; e_duration := 20;
         e_description := DrivingMiles 1100;
         e_location := EnRoute 50 "Tulsa" "Omaha"; e_distance := 0;
         e_miles := Some 1100 |} ] in
  sum_over (fun log => t_driving (totals log)) (generate_daily_logs events 739000)
  <= sum_durations_where is_driving events.
Proof.
  cbv zeta.
  refine (X14_hours_of_the_days driving _ 8 28.25 739000 _ _ _).
  - simpl. repeat split; try reflexivity; try lra;
      apply has_two_decimals_ok; reflexivity.
  - lra.
  - discriminate.
Defined.

(** The daily logs of a trip on doubles, in hundredths of an hour and
    tenths of a mile.  The trip of 1250 miles in 20 hours with 53.5 cycle
    hours used has a driving event of 0.01 hour and 0.6 mile at hour 35.25;
    on doubles [(35.25 + 0.01) - 35.25] is under 0.01, and the partitioner
    leaves the event out.  The second day has no activity between hours
    11.25 and 11.26, the driving hours of the days add up to 19.99 where
    the driving events last 20 hours, and the miles of the days add up to
    1249.4 where the trip reports 1250. *)
Lemma hundredth_left_out_on_doubles :
  let hundredths_of x := Py.round_half_even (Binary64.value x * 100) in
  let tenths_of x := Py.round_half_even (Binary64.value x * 10) in
  match Binary64.HOSCalculator.simulate
          10 (Binary64.double 53.5) (Binary64.double 1250) (Binary64.double 20)
          (Binary64.double 0) (Binary64.double 0) "Tulsa" "Wichita" "Omaha" with
  | Some r =>
      let logs :=
        Binary64.Views.generate_daily_logs (Binary64.HOSCalculator.r_events r)
                                           739000 in
      map (fun act =>
             (Binary64.Views.a_status act,
              hundredths_of (Binary64.Views.start_hour act),
              hundredths_of (Binary64.Views.end_hour act)))
          (Binary64.Views.activities (nth 1 logs (Binary64.Views.daily_log [] 0 0)))
      = [(sleeper_berth, 0, 575); (driving, 575, 1075);
         (on_duty_not_driving, 1075, 1125); (sleeper_berth, 1126, 2400)]%Z
      /\ map (fun log =>
                hundredths_of (Binary64.Views.t_driving (Binary64.Views.totals log)))
             logs
         = [1100; 500; 274; 125]%Z
      /\ map (fun e => hundredths_of (Binary64.e_duration e))
             (filter (fun e => is_driving (Binary64.e_status e))
                     (Binary64.HOSCalculator.r_events r))
         = [800; 300; 500; 1; 399]%Z
      /\ map (fun log => tenths_of (Binary64.Views.total_miles log)) logs
         = [6875; 3125; 2494; 0]%Z
      /\ tenths_of (Binary64.HOSCalculator.r_total_distance r) = 12500%Z
  | None => False
  end.
Proof.
  vm_compute. repeat split; reflexivity.
Qed.

(** ** The trip returns *)

Lemma tenths_positive (x : Q) : tenths x -> 0 < x -> 0.1 <= x.
Proof.
  intros [k Hk] Hpos. rewrite Hk in *.
  unfold Qlt, Qle in *; simpl in *. lia.
Qed.

(** Above 5 mph, an iteration that goes back to the [while] test has
    driven a tenth of a mile or more. *)
Lemma drive_body_progress (events : list Event) (s : State)
      (remaining segment_miles avg_speed : Q) (from_loc to_loc : string) :
  5 < avg_speed -> 0.5 < remaining ->
  fst (drive_body events s remaining segment_miles avg_speed from_loc to_loc)
  = NextIteration ->
  snd (snd (drive_body events s remaining segment_miles avg_speed
                       from_loc to_loc))
  <= remaining - 0.1.
Proof.
  intros Hv Hrem. unfold drive_body.
  destruct (before_driving events s _) as [ev1 s1].
  destruct (ltb_spec (drive_time s1 remaining avg_speed) 0.01);
    [discriminate |].
  unfold drive_increment.
  destruct (ltb_spec (remaining - Py.round1 (drive_miles s1 remaining avg_speed))
                     0.5); simpl; [discriminate |].
  intros _.
  assert (Hmiles : 0.05 < drive_miles s1 remaining avg_speed).
  { unfold drive_miles.
    pose proof (can_drive_floor s1 remaining avg_speed) as Hfloor.
    assert (Hcd : 0.01 * avg_speed
                  <= can_drive s1 remaining avg_speed * avg_speed).
    { apply Qmult_le_compat_r; lra. }
    destruct (min_spec (can_drive s1 remaining avg_speed * avg_speed) remaining)
      as [[_ ->] | [_ ->]]; lra. }
  pose proof (round1_near (drive_miles s1 remaining avg_speed)) as Hnear.
  assert (Hpos : 0 < Py.round1 (drive_miles s1 remaining avg_speed)) by lra.
  pose proof (tenths_positive _ (round1_tenths _) Hpos). lra.
Qed.

(** The loop is left after [n] iterations at most when what remains is no
    more than half a mile and [n] tenths. *)
Lemma drive_loop_returns (fuel : nat) :
  forall (events : list Event) (s : State)
         (remaining segment_miles avg_speed : Q) (from_loc to_loc : string),
    5 < avg_speed ->
    remaining <= 0.5 + 0.1 * inject_Z (Z.of_nat fuel) ->
    exists result,
      drive_loop fuel events s remaining segment_miles avg_speed
                 from_loc to_loc = Some result.
Proof.
  induction fuel as [| fuel IH]; intros events s remaining seg speed from to
                                        Hv Hfuel; cbn [drive_loop].
  - destruct (ltb_spec 0.5 remaining); [| eexists; reflexivity].
    change (inject_Z (Z.of_nat 0)) with 0 in Hfuel. lra.
  - destruct (ltb_spec 0.5 remaining) as [Hbig | _]; [| eexists; reflexivity].
    pose proof (drive_body_progress events s remaining seg speed from to
                                    Hv Hbig) as Hprog.
    destruct (drive_body events s remaining seg speed from to)
      as [flow [[ev' s'] remaining']].
    cbn [fst snd] in Hprog.
    destruct flow; [| eexists; reflexivity ..].
    apply IH; [exact Hv |]. specialize (Hprog eq_refl).
    assert (Hnext : inject_Z (Z.of_nat (S fuel))
                    == inject_Z (Z.of_nat fuel) + 1).
    { rewrite Nat2Z.inj_succ. unfold Z.succ. rewrite inject_Z_plus.
      reflexivity. }
    lra.
Qed.

Lemma drive_leg_returns (fuel : nat) (events : list Event) (s : State)
      (leg_miles leg_hours : Q) (from_loc to_loc : string) :
  (0 < leg_hours -> 5 * leg_hours < leg_miles) ->
  leg_miles <= 0.5 + 0.1 * inject_Z (Z.of_nat fuel) ->
  exists result,
    drive_leg fuel events s leg_miles leg_hours from_loc to_loc = Some result.
Proof.
  intros Hspeed Hfuel. unfold drive_leg, _drive.
  destruct (ltb_spec 0.5 leg_miles); [| eexists; reflexivity].
  assert (Hv : 5 < (if leg_hours >? 0 then leg_miles / leg_hours else 55)).
  { destruct (ltb_spec 0 leg_hours) as [Hh | _]; [| lra].
    apply lt_div_iff; [exact Hh |]. specialize (Hspeed Hh). lra. }
  destruct (drive_loop_returns fuel events s leg_miles leg_miles _
                               from_loc to_loc Hv Hfuel)
    as [[[ev' s'] remaining'] Hrun].
  rewrite Hrun. eexists; reflexivity.
Qed.

(** X15.  The trip returns when the average speed of each leg is above
    5 mph (a leg without hours is driven at 55 mph): every iteration of the
    [while] loop of [_drive] that does not leave it drives a tenth of a
    mile or more, so a leg takes no more iterations than ten times its
    miles. *)
Theorem X15_trip_returns
        (fuel : nat) (current_cycle_used : Q)
        (leg1_miles leg1_hours leg2_miles leg2_hours : Q)
        (current_loc pickup_loc dropoff_loc : string) :
  (0 < leg1_hours -> 5 * leg1_hours < leg1_miles) ->
  (0 < leg2_hours -> 5 * leg2_hours < leg2_miles) ->
  leg1_miles <= 0.5 + 0.1 * inject_Z (Z.of_nat fuel) ->
  leg2_miles <= 0.5 + 0.1 * inject_Z (Z.of_nat fuel) ->
  exists r : TripResult,
    simulate fuel current_cycle_used leg1_miles leg1_hours leg2_miles leg2_hours
             current_loc pickup_loc dropoff_loc = Some r.
Proof.
  intros Hspeed1 Hspeed2 Hfuel1 Hfuel2.
  unfold simulate, calculate_trip, run_trip.
  destruct (initial_restart _ _ _) as [ev0 s0].
  destruct (inspection ev0 s0 _ _ _) as [ev1 s1].
  destruct (drive_leg_returns fuel ev1 s1 leg1_miles leg1_hours
                              current_loc pickup_loc Hspeed1 Hfuel1)
    as [[ev2 s2] Hleg1].
  rewrite Hleg1.
  destruct (_do_on_duty ev2 s2 _ _ _) as [ev3 s3].
  destruct (drive_leg_returns fuel ev3 s3 leg2_miles leg2_hours
                              pickup_loc dropoff_loc Hspeed2 Hfuel2)
    as [[ev4 s4] Hleg2].
  rewrite Hleg2.
  destruct (_do_on_duty ev4 s4 _ _ _) as [ev5 s5].
  destruct (inspection ev5 s5 _ _ _) as [ev6 s6].
  eexists; reflexivity.
Qed.

Lemma X15_trip_returns_witness :
  exists r : TripResult,
    simulate 1000 20 90 1.8 30 0.6 "Tulsa" "Wichita" "Omaha" = Some r.
Proof.
  apply X15_trip_returns.
  - intros _. lra.
  - intros _. lra.
  - change (inject_Z (Z.of_nat 1000)) with 1000. lra.
  - change (inject_Z (Z.of_nat 1000)) with 1000. lra.
Defined.

(** ** The trip that does not return *)

Lemma max_below (a b c : Q) : a <= c -> b <= c -> Py.max a b <= c.
Proof. intros. destruct (max_spec a b) as [[? ->] | [? ->]]; lra. Qed.

Lemma tenths_small (x : Q) : tenths x -> - (0.1) < x -> x < 0.1 -> x == 0.
Proof.
  intros [k Hk] Hlo Hhi. rewrite Hk in *.
  unfold Qlt, Qeq in *; simpl in *. lia.
Qed.

(** No more than 8 hours are driven at a time. *)
Lemma can_drive_at_most_8 (s : State) (remaining avg_speed : Q) :
  0 <= driving_since_break s -> can_drive s remaining avg_speed <= 8.
Proof.
  intros Hd. unfold can_drive. cbv zeta.
  apply max_below; [lra |].
  do 5 (eapply Qle_trans; [apply min_le_left |]).
  apply max_below; unfold BREAK_AFTER_DRIVING; lra.
Qed.

(** Under 1/160 mph an iteration logs a driving event of 0.0 miles and
    goes back to the [while] test with what remained before. *)
Lemma drive_body_stuck (events : list Event) (s : State)
      (remaining segment_miles avg_speed : Q) (from_loc to_loc : string) :
  reachable s -> 0 < avg_speed -> avg_speed * 8 < 0.05 -> 0.5 < remaining ->
  exists (events' : list Event) (s' : State) (remaining' : Q),
    drive_body events s remaining segment_miles avg_speed from_loc to_loc
    = (NextIteration, (events', s', remaining'))
    /\ remaining' == remaining
    /\ reachable s'.
Proof.
  intros Hs Hv Hslow Hrem. unfold drive_body.
  pose proof (before_driving_reachable
                events s (_loc from_loc to_loc segment_miles remaining) Hs) as H1.
  destruct (before_driving _ _ _) as [ev1 s1]. simpl in H1.
  destruct (reachable_consistent _ H1) as [Hdsb _].
  pose proof (can_drive_at_most_8 s1 remaining avg_speed Hdsb) as Hmost.
  pose proof (can_drive_floor s1 remaining avg_speed) as Hfloor.
  assert (Hcd : can_drive s1 remaining avg_speed * avg_speed <= 8 * avg_speed).
  { apply Qmult_le_compat_r; lra. }
  assert (Hcd' : 0.01 * avg_speed
                 <= can_drive s1 remaining avg_speed * avg_speed).
  { apply Qmult_le_compat_r; lra. }
  assert (Hm : drive_miles s1 remaining avg_speed
               == can_drive s1 remaining avg_speed * avg_speed).
  { unfold drive_miles.
    destruct (min_spec (can_drive s1 remaining avg_speed * avg_speed) remaining)
      as [[? ->] | [? ->]]; lra. }
  assert (Ht : drive_time s1 remaining avg_speed
               == can_drive s1 remaining avg_speed).
  { unfold drive_time. destruct (ltb_spec 0 avg_speed) as [_ | ?]; [| lra].
    rewrite Hm. apply Qdiv_mult_l. lra. }
  destruct (ltb_spec (drive_time s1 remaining avg_speed) 0.01) as [? | Hge];
    [lra |].
  pose proof (round1_near (drive_miles s1 remaining avg_speed)) as Hnear.
  assert (Hzero : Py.round1 (drive_miles s1 remaining avg_speed) == 0).
  { apply tenths_small; [apply round1_tenths | lra | lra]. }
  pose proof (round2_ge _ 1 Hge) as Hr.
  pose proof (reach_increment
                ev1 s1 (_loc from_loc to_loc segment_miles remaining)
                (Py.round2 (drive_time s1 remaining avg_speed))
                (Py.round1 (drive_miles s1 remaining avg_speed)) H1 Hr) as H2.
  destruct (drive_increment _ _ _ _ _) as [ev2 s2]. simpl in H2.
  destruct (ltb_spec (remaining - Py.round1 (drive_miles s1 remaining avg_speed))
                     0.5); [lra |].
  eexists _, _, _. split; [reflexivity |]. split; [lra | exact H2].
Qed.

Lemma drive_loop_stuck (fuel : nat) :
  forall (events : list Event) (s : State)
         (remaining segment_miles avg_speed : Q) (from_loc to_loc : string),
    reachable s -> 0 < avg_speed -> avg_speed * 8 < 0.05 -> 0.5 < remaining ->
    drive_loop fuel events s remaining segment_miles avg_speed from_loc to_loc
    = None.
Proof.
  induction fuel as [| fuel IH]; intros events s remaining seg speed from to
                                        Hs Hv Hslow Hrem; cbn [drive_loop];
    (destruct (ltb_spec 0.5 remaining) as [_ | ?]; [| lra]).
  - reflexivity.
  - destruct (drive_body_stuck events s remaining seg speed from to
                               Hs Hv Hslow Hrem)
      as (ev' & s' & remaining' & Hbody & Hsame & Hs').
    rewrite Hbody. apply IH; try assumption. lra.
Qed.

Lemma drive_leg_stuck (fuel : nat) (events : list Event) (s : State)
      (leg_miles leg_hours : Q) (from_loc to_loc : string) :
  reachable s -> 0.5 < leg_miles -> leg_miles * 160 < leg_hours ->
  drive_leg fuel events s leg_miles leg_hours from_loc to_loc = None.
Proof.
  intros Hs Hmiles Hslow. unfold drive_leg, _drive.
  destruct (ltb_spec 0.5 leg_miles) as [_ | ?]; [| lra].
  destruct (ltb_spec 0 leg_hours) as [Hh | ?]; [| lra].
  assert (Hv : 0 < leg_miles / leg_hours).
  { apply lt_div_iff; [exact Hh | lra]. }
  assert (Hv' : leg_miles / leg_hours < 0.00625).
  { apply div_lt_iff; [exact Hh | lra]. }
  rewrite (drive_loop_stuck fuel events s leg_miles leg_miles
                            (leg_miles / leg_hours) from_loc to_loc Hs Hv);
    [reflexivity | lra | exact Hmiles].
Qed.

(** X16.  The trip does not return when its first leg is of more than half
    a mile and has more than 200 hours to the mile: each iteration of the
    [while] loop of [_drive] then logs a driving event of 0.0 miles and
    leaves what remains of the leg as it was, so no number of iterations
    ends the loop.  The proof needs neither the cycle hours nor the bound
    on the hours of the leg.  They are what keeps the statement true of the
    program on doubles: from cycle hours that are a whole number of quarter
    hours every stretch driven is a whole number of quarter hours, and at a
    speed that is no subnormal number [(can_drive * avg_speed) / avg_speed]
    rounds back to it; from other cycle hours a stretch of 0.01 hour comes
    up, and the loop is left where [(0.01 * avg_speed) / avg_speed] is
    under 0.01 ([slow_leg_on_doubles]). *)
Theorem X16_trip_does_not_return
        (fuel : nat) (current_cycle_used : Q)
        (leg1_miles leg1_hours leg2_miles leg2_hours : Q)
        (current_loc pickup_loc dropoff_loc : string) :
  quarter_hours current_cycle_used ->
  0.5 < leg1_miles -> leg1_miles * 200 < leg1_hours ->
  leg1_hours <= leg1_miles * 1000000 ->
  simulate fuel current_cycle_used leg1_miles leg1_hours leg2_miles leg2_hours
           current_loc pickup_loc dropoff_loc = None.
Proof.
  intros _ Hm Hh _. unfold simulate, calculate_trip, run_trip.
  pose proof (reach_initial_restart (initial_cycle current_cycle_used)
                                    current_loc) as H0.
  destruct (initial_restart _ _ _) as [ev0 s0]. simpl in H0.
  pose proof (reach_inspection ev0 s0 PRE_TRIP_DURATION
                "Pre-trip inspection" current_loc H0 quarter_nonneg) as H1.
  destruct (inspection ev0 s0 _ _ _) as [ev1 s1]. simpl in H1.
  rewrite (drive_leg_stuck fuel ev1 s1 _ _ _ _ H1 Hm); [reflexivity | lra].
Qed.

Lemma X16_trip_does_not_return_witness :
  simulate 50 20 1 250 300 6 "Tulsa" "Wichita" "Omaha" = None.
Proof.
  apply X16_trip_does_not_return; [exists 80%Z; reflexivity | lra ..].
Defined.

(** The slow leg on doubles: one mile in 274 hours.  From 69.745 cycle
    hours the first stretch is of 0.01 hour, [(0.01 * avg_speed) /
    avg_speed] is under 0.01, and the trip returns with nothing driven and no driving
    event.  From 20, 69.75 and 70 cycle hours 2000 iterations do not end
    the loop. *)
Lemma slow_leg_on_doubles :
  let trip fuel cycle :=
    Binary64.HOSCalculator.simulate
      fuel (Binary64.double cycle) (Binary64.double 1) (Binary64.double 274)
      (Binary64.double 0) (Binary64.double 0) "Tulsa" "Wichita" "Omaha" in
  match trip 10%nat 69.745 with
  | Some r =>
      Binary64.value (Binary64.HOSCalculator.r_total_distance r) == 0
      /\ map Binary64.e_status (Binary64.HOSCalculator.r_events r)
         = [on_duty_not_driving; sleeper_berth; on_duty_not_driving;
            on_duty_not_driving; on_duty_not_driving]
  | None => False
  end
  /\ trip 2000%nat 20 = None
  /\ trip 2000%nat 69.75 = None
  /\ trip 2000%nat 70 = None.
Proof.
  vm_compute. repeat split; reflexivity.
Qed.
